(** * Execution core of the WASM smart-contract VM: a shallow embedding

    The development follows the Go packages of the repository:
    - [math]      : the overflow-aware arithmetic helpers,
    - [contexts]  : the storage, runtime and blockchain contexts,
    - [host]      : the asynchronous-call machinery of the VM host,
    - [elrondapi] : the big-integer host functions.

    Byte strings are [list byte]; Go's [uint64], [int32] and [int] values are
    integers in [Z] with the wrap-around or saturation written out where the
    source performs arithmetic on them; Go maps keyed by [string(key)] are
    [gmap]s keyed by the byte string. *)

From Stdlib Require Import ZArith Lia.
From Stdlib Require Strings.Byte.
From stdpp Require Import base decidable option list gmap strings.

#[local] Open Scope Z_scope.

(** ** Byte strings *)

Abbreviation byte := Init.Byte.byte.
Abbreviation bytes := (list Init.Byte.byte).

#[global] Instance byte_eq_dec : EqDecision byte := Byte.byte_eq_dec.

#[global] Instance byte_countable : Countable byte :=
  inj_countable Byte.to_N Byte.of_N Byte.of_to_N.

(** [bytes.Equal]: a nil slice and an empty slice are equal, as the two are
    the same list here. *)
Definition bytes_Equal (a b : bytes) : bool := bool_decide (a = b).

(** [bytes.HasPrefix]. *)
Fixpoint HasPrefix (s p : bytes) : bool :=
  match p with
  | [] => true
  | c :: p' =>
      match s with
      | [] => false
      | d :: s' => if decide (d = c) then HasPrefix s' p' else false
      end
  end.

(** [len] of a slice or string, as a Go [int]. *)
Definition len {A} (l : list A) : Z := Z.of_nat (length l).

(** [[]byte(s)] for a Go string literal. *)
Definition bytes_of (s : string) : bytes := String.list_byte_of_string s.

(** ** Errors of package arwen (errors.go) and of package math *)

Inductive VMError : Type :=
  | ErrNotEnoughGas
  | ErrBadBounds
  | ErrBadLowerBounds
  | ErrBadUpperBounds
  | ErrNegativeLength
  | ErrCallBackFuncNotExpected
  | ErrStoreElrondReservedKey
  | ErrCannotWriteProtectedKey
  | ErrDivZero
  | ErrNoBigIntUnderThisHandle
  | ErrAdditionOverflow
  | ErrJSONUnmarshal
  | ErrWrapped (context : string) (err : VMError).

#[global] Instance VMError_eq_dec : EqDecision VMError.
Proof. solve_decision. Defined.

(** [errors.Is]: unwraps [fmt.Errorf("...: %w", err)] chains. The two bounds
    errors are declared in errors.go as wrappers of [ErrBadBounds]. *)
Fixpoint errors_Is (e target : VMError) : bool :=
  if decide (e = target) then true
  else match e with
       | ErrWrapped _ e' => errors_Is e' target
       | ErrBadLowerBounds | ErrBadUpperBounds => bool_decide (target = ErrBadBounds)
       | _ => false
       end.

(** ** Package math *)

Module math.

Definition MaxUint64 : Z := 2 ^ 64 - 1.
Definition MaxInt64 : Z := 2 ^ 63 - 1.
Definition MaxInt32 : Z := 2 ^ 31 - 1.
Definition MinInt32 : Z := - 2 ^ 31.

Definition is_uint64 (x : Z) : Prop := 0 <= x <= MaxUint64.
Definition is_int32 (x : Z) : Prop := MinInt32 <= x <= MaxInt32.

(** Conversions [uint64(x)] and [uint32(x)] of Go: reduction modulo the
    width. *)
Definition to_uint64 (x : Z) : Z := x mod 2 ^ 64.
Definition to_uint32 (x : Z) : Z := x mod 2 ^ 32.

(** Modelled from the spec: package math is not part of the sources; the
    spec says of gas that all arithmetic saturates or explicitly fails on
    overflow. The one-result helpers used by the storage and runtime
    contexts cannot fail, so they saturate. *)
Definition MulUint64 (a b : Z) : Z :=
  if a * b <=? MaxUint64 then a * b else MaxUint64.

Definition AddUint64 (a b : Z) : Z :=
  if a + b <=? MaxUint64 then a + b else MaxUint64.

Definition AddInt32 (a b : Z) : Z :=
  if MaxInt32 <? a + b then MaxInt32
  else if a + b <? MinInt32 then MinInt32
  else a + b.

(** [SubInt] on two slice lengths never leaves the range of [int]. *)
Definition SubInt (a b : Z) : Z := a - b.

(** Modelled from the spec: the two-result adder of the version of the
    package that the host imports (there it is [math.AddUint64]) explicitly
    fails on overflow. Its error is a value of package math: package arwen
    imports math, so math cannot refer to the errors of package arwen. *)
Definition AddUint64WithErr (a b : Z) : Z * option VMError :=
  if a + b <=? MaxUint64 then (a + b, None) else (0, Some ErrAdditionOverflow).

End math.

(** ** Gas schedule: the costs the modelled code reads *)

Record BaseOperationCost := {
  DataCopyPerByte : Z;
  PersistPerByte : Z;
  StorePerByte : Z;
  ReleasePerByte : Z }.

Record ElrondAPICost := {
  AsyncCallStep : Z;
  CachedStorageLoad : Z }.

(** The costs of [BigIntAPICost] carry the names of the host functions they
    are charged by; they are prefixed here to keep those names free. *)
Record BigIntAPICost := {
  cost_BigIntTDiv : Z;
  cost_BigIntTMod : Z;
  cost_BigIntEDiv : Z;
  cost_BigIntEMod : Z;
  cost_BigIntPow : Z }.

Record GasSchedule := {
  BaseOperationCostOf : BaseOperationCost;
  ElrondAPICostOf : ElrondAPICost;
  BigIntAPICostOf : BigIntAPICost }.

(** ** Package contexts: the storage context (v1_4) *)

Module contexts.

(** [vmcommon.StorageUpdate]. *)
Record StorageUpdate := {
  Offset : bytes;
  Data : bytes;
  Written : bool }.

Inductive StorageStatus : Type :=
  | StorageUnchanged
  | StorageModified
  | StorageAdded
  | StorageDeleted.

(** The part of the host that the storage context reaches through
    [context.host]: the read-only flag of the runtime, the gas counters of
    the metering context, the refund counter and the accounts of the output
    context. An output account is represented by its storage-update map. *)
Record VMHost := {
  readOnly : bool;
  gasSchedule : GasSchedule;
  gasForExecution : Z;
  pointsUsed : Z;
  GasRefund : Z;
  OutputAccounts : gmap bytes (gmap bytes StorageUpdate) }.

Definition set_pointsUsed (p : Z) (h : VMHost) : VMHost :=
  {| readOnly := readOnly h; gasSchedule := gasSchedule h;
     gasForExecution := gasForExecution h; pointsUsed := p;
     GasRefund := GasRefund h; OutputAccounts := OutputAccounts h |}.

Definition set_GasRefund (r : Z) (h : VMHost) : VMHost :=
  {| readOnly := readOnly h; gasSchedule := gasSchedule h;
     gasForExecution := gasForExecution h; pointsUsed := pointsUsed h;
     GasRefund := r; OutputAccounts := OutputAccounts h |}.

Definition set_OutputAccounts (a : gmap bytes (gmap bytes StorageUpdate))
    (h : VMHost) : VMHost :=
  {| readOnly := readOnly h; gasSchedule := gasSchedule h;
     gasForExecution := gasForExecution h; pointsUsed := pointsUsed h;
     GasRefund := GasRefund h; OutputAccounts := a |}.

(** Modelled from the spec: the metering context is not part of the sources.
    [gas-left() = gas-for-execution - instance-points-used], saturating. *)
Definition GasLeft (h : VMHost) : Z :=
  if gasForExecution h <? pointsUsed h then 0
  else gasForExecution h - pointsUsed h.

(** [SetPointsUsed] of the runtime context: the counter of the instance never
    exceeds the largest [int64]. *)
Definition SetPointsUsed (gasPoints : Z) (h : VMHost) : VMHost :=
  set_pointsUsed (if math.MaxInt64 <? gasPoints then math.MaxInt64 else gasPoints) h.

(** Modelled from the spec: [use-gas(n)] increases the instance's used-points
    counter, saturating at the largest [int64]. *)
Definition UseGas (n : Z) (h : VMHost) : VMHost :=
  SetPointsUsed (math.AddUint64 (pointsUsed h) n) h.

(** Modelled from the spec: [use-gas-bounded(n)] fails with not-enough-gas if
    [n > gas-left()], else applies. *)
Definition UseGasBounded (n : Z) (h : VMHost) : option VMError * VMHost :=
  if GasLeft h <? n then (Some ErrNotEnoughGas, h) else (None, UseGas n h).

(** Modelled from the spec: [free-gas(n)] increases the output's refund
    counter (an arbitrary-precision integer of the output context). *)
Definition FreeGas (n : Z) (h : VMHost) : VMHost :=
  set_GasRefund (GasRefund h + n) h.

(** Modelled from the spec: output accounts are created lazily on first
    reference; [GetOutputAccount] returns the account of the address, adding
    an empty one when there is none. *)
Definition GetOutputAccount (address : bytes) (h : VMHost)
    : gmap bytes StorageUpdate * VMHost :=
  match OutputAccounts h !! address with
  | Some account => (account, h)
  | None => (∅, set_OutputAccounts (<[address := ∅]> (OutputAccounts h)) h)
  end.

Section storage.

(** Constants of package arwen that the sources use but do not declare. *)
Variable ProtectedStoragePrefix : bytes.
Variable AddressLen : Z.

Record storageContext := {
  host : VMHost;
  blockChainHook_GetStorageData : bytes -> bytes -> bytes;
  address : bytes;
  stateStack : list bytes;
  elrondProtectedKeyPrefix : bytes;
  arwenStorageProtectionEnabled : bool;
  flagUseDifferentGasCostForReadingCachedStorage : bool }.

Definition set_host (h : VMHost) (c : storageContext) : storageContext :=
  {| host := h;
     blockChainHook_GetStorageData := blockChainHook_GetStorageData c;
     address := address c; stateStack := stateStack c;
     elrondProtectedKeyPrefix := elrondProtectedKeyPrefix c;
     arwenStorageProtectionEnabled := arwenStorageProtectionEnabled c;
     flagUseDifferentGasCostForReadingCachedStorage :=
       flagUseDifferentGasCostForReadingCachedStorage c |}.

Definition set_address_stack (a : bytes) (s : list bytes) (c : storageContext)
    : storageContext :=
  {| host := host c;
     blockChainHook_GetStorageData := blockChainHook_GetStorageData c;
     address := a; stateStack := s;
     elrondProtectedKeyPrefix := elrondProtectedKeyPrefix c;
     arwenStorageProtectionEnabled := arwenStorageProtectionEnabled c;
     flagUseDifferentGasCostForReadingCachedStorage :=
       flagUseDifferentGasCostForReadingCachedStorage c |}.

Definition set_protection (b : bool) (c : storageContext) : storageContext :=
  {| host := host c;
     blockChainHook_GetStorageData := blockChainHook_GetStorageData c;
     address := address c; stateStack := stateStack c;
     elrondProtectedKeyPrefix := elrondProtectedKeyPrefix c;
     arwenStorageProtectionEnabled := b;
     flagUseDifferentGasCostForReadingCachedStorage :=
       flagUseDifferentGasCostForReadingCachedStorage c |}.

(** [PushState] appends the current address to the state stack. *)
Definition PushState (c : storageContext) : storageContext :=
  set_address_stack (address c) (stateStack c ++ [address c]) c.

(** [PopSetActiveState]: an empty stack returns at once; otherwise the last
    entry becomes the current address. *)
Definition PopSetActiveState (c : storageContext) : storageContext :=
  match last (stateStack c) with
  | None => c
  | Some prevAddress =>
      set_address_stack prevAddress (removelast (stateStack c)) c
  end.

(** [PopDiscard]. *)
Definition PopDiscard (c : storageContext) : storageContext :=
  match last (stateStack c) with
  | None => c
  | Some _ => set_address_stack (address c) (removelast (stateStack c)) c
  end.

Definition isArwenProtectedKey (key : bytes) : bool :=
  HasPrefix key ProtectedStoragePrefix.

Definition isElrondReservedKey (c : storageContext) (key : bytes) : bool :=
  HasPrefix key (elrondProtectedKeyPrefix c).

(** [GetStorageUpdates]: the storage-update map of the output account of the
    address. The Go map is shared with the account; the writes the callers
    make to it are put back with [put_StorageUpdates]. *)
Definition GetStorageUpdates (addr : bytes) (c : storageContext)
    : gmap bytes StorageUpdate * storageContext :=
  let '(account, h) := GetOutputAccount addr (host c) in
  (account, set_host h c).

Definition put_StorageUpdates (addr : bytes) (u : gmap bytes StorageUpdate)
    (c : storageContext) : storageContext :=
  set_host (set_OutputAccounts (<[addr := u]> (OutputAccounts (host c))) (host c)) c.

(** [getStorageFromAddressUnmetered]. *)
Definition getStorageFromAddressUnmetered (addr key : bytes) (c : storageContext)
    : (bytes * bool) * storageContext :=
  if negb (isArwenProtectedKey key)
     && isElrondReservedKey c key
     && flagUseDifferentGasCostForReadingCachedStorage c
  then ((blockChainHook_GetStorageData c addr key, false), c)
  else
    let '(storageUpdates, c1) := GetStorageUpdates addr c in
    match storageUpdates !! key with
    | Some storageUpdate => ((Data storageUpdate, true), c1)
    | None =>
        let value := blockChainHook_GetStorageData c addr key in
        let u := {| Offset := key; Data := value; Written := false |} in
        ((value, false), put_StorageUpdates addr (<[key := u]> storageUpdates) c1)
    end.

Definition GetStorageUnmetered (key : bytes) (c : storageContext)
    : (bytes * bool) * storageContext :=
  getStorageFromAddressUnmetered (address c) key c.

Definition useGasForValueIfNeeded (value : bytes) (usedCache : bool)
    (c : storageContext) : storageContext :=
  let gasFlagSet := flagUseDifferentGasCostForReadingCachedStorage c in
  if negb usedCache || negb gasFlagSet then
    let costPerByte := DataCopyPerByte (BaseOperationCostOf (gasSchedule (host c))) in
    set_host (UseGas (math.MulUint64 costPerByte (len value)) (host c)) c
  else c.

Definition useExtraGasForKeyIfNeeded (key : bytes) (usedCache : bool)
    (c : storageContext) : storageContext :=
  let extraBytes := len key - AddressLen in
  if extraBytes <=? 0 then c
  else
    let gasFlagSet := flagUseDifferentGasCostForReadingCachedStorage c in
    if negb gasFlagSet || negb usedCache then
      let costPerByte := DataCopyPerByte (BaseOperationCostOf (gasSchedule (host c))) in
      set_host (UseGas (math.MulUint64 costPerByte extraBytes) (host c)) c
    else c.

(** [GetStorage]: the metered read of the current address. *)
Definition GetStorage (key : bytes) (c : storageContext)
    : (bytes * bool) * storageContext :=
  let '((value, usedCache), c1) := GetStorageUnmetered key c in
  let c2 := useExtraGasForKeyIfNeeded key usedCache c1 in
  let c3 := useGasForValueIfNeeded value usedCache c2 in
  ((value, usedCache), c3).

(** [getOldValue]. The map argument of the Go function is the map of the
    account of [addr], shared by reference: what [GetStorageUnmetered] adds to
    it (when [addr] is the current address) is seen by the later write, so
    the map is read again from the account after the call. *)
Definition getOldValue (addr key : bytes) (c : storageContext)
    : (bytes * bool) * storageContext :=
  let '(storageUpdates, c1) := GetStorageUpdates addr c in
  match storageUpdates !! key with
  | None =>
      let '((oldValue, _), c2) := GetStorageUnmetered key c1 in
      let '(storageUpdates2, c3) := GetStorageUpdates addr c2 in
      let u := {| Offset := key; Data := oldValue; Written := false |} in
      ((oldValue, false), put_StorageUpdates addr (<[key := u]> storageUpdates2) c3)
  | Some update => ((Data update, true), c1)
  end.

Definition computeGasForKey (key : bytes) (usedCache : bool) (c : storageContext) : Z :=
  let extraBytes := len key - AddressLen in
  if (0 <? extraBytes)
     && (negb usedCache || negb (flagUseDifferentGasCostForReadingCachedStorage c))
  then math.MulUint64 (DataCopyPerByte (BaseOperationCostOf (gasSchedule (host c))))
                      extraBytes
  else 0.

(** [changeStorageUpdate]: the entry of the key is replaced by a fresh copy
    of the value, marked as written. *)
Definition changeStorageUpdate (addr key value : bytes) (c : storageContext)
    : storageContext :=
  let '(storageUpdates, c1) := GetStorageUpdates addr c in
  let newUpdate := {| Offset := key; Data := value; Written := true |} in
  put_StorageUpdates addr (<[key := newUpdate]> storageUpdates) c1.

Definition computeGasForSmallerValues (newValueExtraLength length : Z)
    (c : storageContext) : Z * Z :=
  let cost := BaseOperationCostOf (gasSchedule (host c)) in
  let newValueExtraLength := - newValueExtraLength in
  (math.MulUint64 (PersistPerByte cost) length,
   math.MulUint64 (ReleasePerByte cost) newValueExtraLength).

Definition computeGasForBiggerValues (lengthOldValue newValueExtraLength : Z)
    (c : storageContext) : Z * Z :=
  let cost := BaseOperationCostOf (gasSchedule (host c)) in
  let useGas := math.MulUint64 (PersistPerByte cost) lengthOldValue in
  let newValStoreUseGas := math.MulUint64 (StorePerByte cost) newValueExtraLength in
  (math.AddUint64 useGas newValStoreUseGas, 0).

Definition storageAdded (length : Z) (c : storageContext)
    : (StorageStatus * option VMError) * storageContext :=
  let useGas := math.MulUint64 (StorePerByte (BaseOperationCostOf (gasSchedule (host c))))
                               length in
  match UseGasBounded useGas (host c) with
  | (Some err, h) => ((StorageUnchanged, Some err), set_host h c)
  | (None, h) => ((StorageAdded, None), set_host h c)
  end.

Definition storageDeleted (lengthOldValue : Z) (c : storageContext)
    : (StorageStatus * option VMError) * storageContext :=
  let freeGas := math.MulUint64
                   (ReleasePerByte (BaseOperationCostOf (gasSchedule (host c))))
                   lengthOldValue in
  ((StorageDeleted, None), set_host (FreeGas freeGas (host c)) c).

Definition computeGasForUnchangedValue (length : Z) (usedCache : bool)
    (c : storageContext) : Z :=
  if negb usedCache || negb (flagUseDifferentGasCostForReadingCachedStorage c)
  then math.MulUint64 (DataCopyPerByte (BaseOperationCostOf (gasSchedule (host c))))
                      length
  else 0.

Definition storageUnchanged (length : Z) (usedCache : bool) (c : storageContext)
    : (StorageStatus * option VMError) * storageContext :=
  let useGas := computeGasForUnchangedValue length usedCache c in
  match UseGasBounded useGas (host c) with
  | (Some err, h) => ((StorageUnchanged, Some err), set_host h c)
  | (None, h) => ((StorageUnchanged, None), set_host h c)
  end.

(** [setStorageToAddress]. *)
Definition setStorageToAddress (addr key value : bytes) (c : storageContext)
    : (StorageStatus * option VMError) * storageContext :=
  if readOnly (host c) then ((StorageUnchanged, None), c)
  else if negb (isArwenProtectedKey key) && isElrondReservedKey c key then
    ((StorageUnchanged, Some ErrStoreElrondReservedKey), c)
  else if isArwenProtectedKey key && arwenStorageProtectionEnabled c then
    ((StorageUnchanged, Some ErrCannotWriteProtectedKey), c)
  else
    let length := len value in
    let '((oldValue, usedCache), c1) := getOldValue addr key c in
    let gasForKey := computeGasForKey key usedCache c1 in
    match UseGasBounded gasForKey (host c1) with
    | (Some err, h) => ((StorageUnchanged, Some err), set_host h c1)
    | (None, h) =>
        let c2 := set_host h c1 in
        if bytes_Equal oldValue value then storageUnchanged length usedCache c2
        else
          let c3 := changeStorageUpdate addr key value c2 in
          if bytes_Equal oldValue [] then storageAdded length c3
          else
            let lengthOldValue := len oldValue in
            if bytes_Equal value [] then storageDeleted lengthOldValue c3
            else
              let newValueExtraLength := math.SubInt length lengthOldValue in
              let '(gasToUseForValue, gasToFreeForValue) :=
                if 0 <? newValueExtraLength
                then computeGasForBiggerValues lengthOldValue newValueExtraLength c3
                else if newValueExtraLength <? 0
                then computeGasForSmallerValues newValueExtraLength length c3
                else (0, 0) in
              match UseGasBounded gasToUseForValue (host c3) with
              | (Some err, h') => ((StorageUnchanged, Some err), set_host h' c3)
              | (None, h') =>
                  ((StorageModified, None),
                   set_host (FreeGas gasToFreeForValue h') c3)
              end
    end.

(** [SetStorage] writes under the current address. *)
Definition SetStorage (key value : bytes) (c : storageContext)
    : (StorageStatus * option VMError) * storageContext :=
  setStorageToAddress (address c) key value c.

(** [SetProtectedStorage]: the protection is lifted for the duration of the
    write and put back by the deferred call. *)
Definition SetProtectedStorage (key value : bytes) (c : storageContext)
    : (StorageStatus * option VMError) * storageContext :=
  let '(r, c1) := SetStorage key value (set_protection false c) in
  (r, set_protection true c1).

(** A run of writes under the current address, each on the state the previous
    one left; the statuses and errors are collected in order. *)
Fixpoint SetStorage_all (writes : list (bytes * bytes)) (c : storageContext)
    : list (StorageStatus * option VMError) * storageContext :=
  match writes with
  | [] => ([], c)
  | (key, value) :: rest =>
      let '(r, c1) := SetStorage key value c in
      let '(rs, c2) := SetStorage_all rest c1 in
      (r :: rs, c2)
  end.

(** The storage-update map of the account of an address, as the output would
    report it (no account: no updates). *)
Definition StorageUpdatesOf (addr : bytes) (c : storageContext)
    : gmap bytes StorageUpdate :=
  default ∅ (OutputAccounts (host c) !! addr).

(** [SetAddress]. *)
Definition SetAddress (a : bytes) (c : storageContext) : storageContext :=
  set_address_stack a (stateStack c) c.

(** [ClearStateStack]. *)
Definition ClearStateStack (c : storageContext) : storageContext :=
  set_address_stack (address c) [] c.

End storage.

End contexts.

(** What a call may do besides returning a value: return an error, or stop
    the Go program with a run-time panic (nil dereference, slice bounds). *)
Inductive outcome (A : Type) : Type :=
  | Returns (a : A)
  | Fails (e : VMError)
  | Panics.
Arguments Returns {A} a.
Arguments Fails {A} e.
Arguments Panics {A}.

(** ** Package contexts: the runtime context (v1_4) *)

Module runtime.

Inductive CallType : Type :=
  | DirectCall
  | AsynchronousCall
  | AsynchronousCallBack
  | ESDTTransferAndExecute.

Record ESDTTransfer := {
  ESDTValue : Z;
  ESDTTokenName : bytes;
  ESDTTokenType : Z;
  ESDTTokenNonce : Z }.

(** [vmcommon.VMInput]. [CallValue] is a pointer to a big integer and may be
    nil. *)
Record VMInput := {
  CallerAddr : bytes;
  Arguments_ : list bytes;
  CallValue : option Z;
  CallType_ : CallType;
  GasPrice : Z;
  GasProvided : Z;
  GasLocked : Z;
  OriginalTxHash : bytes;
  CurrentTxHash : bytes;
  PrevTxHash : bytes;
  ESDTTransfers : list ESDTTransfer;
  ReturnCallAfterError : bool }.

(** A Wasmer instance, as far as the runtime context uses it: its linear
    memory and whether [Clean] was called on it. *)
Record WasmerInstance := {
  memoryData : bytes;
  cleaned : bool }.

(** The entries of the state stack: [PushState] fills these four fields of a
    new [runtimeContext] and leaves the others zero. *)
Record savedState := {
  saved_vmInput : option VMInput;
  saved_scAddress : bytes;
  saved_callFunction : string;
  saved_readOnly : bool }.

(** The runtime context. Instances are Go pointers: [instance] and the
    entries of [instanceStack] are addresses into [instances] ([None] is
    nil), so that the pointer comparison of [popInstance] is the comparison
    of addresses. *)
Record runtimeContext := {
  instances : gmap nat WasmerInstance;
  instance : option nat;
  vmInput : option VMInput;
  scAddress : bytes;
  callFunction : string;
  readOnly : bool;
  stateStack : list savedState;
  instanceStack : list (option nat) }.

Definition copyESDTTransfer (t : ESDTTransfer) : ESDTTransfer :=
  {| ESDTValue := ESDTValue t; ESDTTokenName := ESDTTokenName t;
     ESDTTokenType := ESDTTokenType t; ESDTTokenNonce := ESDTTokenNonce t |}.

(** The clone made by [SetVMInput]: a nil call value becomes zero. *)
Definition cloneVMInput (i : VMInput) : VMInput :=
  {| CallerAddr := CallerAddr i;
     Arguments_ := Arguments_ i;
     CallValue := Some (default 0 (CallValue i));
     CallType_ := CallType_ i;
     GasPrice := GasPrice i;
     GasProvided := GasProvided i;
     GasLocked := GasLocked i;
     OriginalTxHash := OriginalTxHash i;
     CurrentTxHash := CurrentTxHash i;
     PrevTxHash := PrevTxHash i;
     ESDTTransfers := copyESDTTransfer <$> ESDTTransfers i;
     ReturnCallAfterError := ReturnCallAfterError i |}.

Definition SetVMInput (i : option VMInput) (c : runtimeContext) : runtimeContext :=
  {| instances := instances c; instance := instance c;
     vmInput := cloneVMInput <$> i;
     scAddress := scAddress c; callFunction := callFunction c;
     readOnly := readOnly c; stateStack := stateStack c;
     instanceStack := instanceStack c |}.

Definition set_frame (a : bytes) (f : string) (r : bool) (c : runtimeContext)
    : runtimeContext :=
  {| instances := instances c; instance := instance c; vmInput := vmInput c;
     scAddress := a; callFunction := f; readOnly := r;
     stateStack := stateStack c; instanceStack := instanceStack c |}.

Definition set_stateStack (s : list savedState) (c : runtimeContext) : runtimeContext :=
  {| instances := instances c; instance := instance c; vmInput := vmInput c;
     scAddress := scAddress c; callFunction := callFunction c;
     readOnly := readOnly c; stateStack := s; instanceStack := instanceStack c |}.

Definition set_instanceStack (s : list (option nat)) (c : runtimeContext)
    : runtimeContext :=
  {| instances := instances c; instance := instance c; vmInput := vmInput c;
     scAddress := scAddress c; callFunction := callFunction c;
     readOnly := readOnly c; stateStack := stateStack c; instanceStack := s |}.

Definition set_instance (h : gmap nat WasmerInstance) (i : option nat)
    (c : runtimeContext) : runtimeContext :=
  {| instances := h; instance := i; vmInput := vmInput c;
     scAddress := scAddress c; callFunction := callFunction c;
     readOnly := readOnly c; stateStack := stateStack c;
     instanceStack := instanceStack c |}.

Definition pushInstance (c : runtimeContext) : runtimeContext :=
  set_instanceStack (instanceStack c ++ [instance c]) c.

(** [PushState]. *)
Definition PushState (c : runtimeContext) : runtimeContext :=
  let newState := {| saved_vmInput := cloneVMInput <$> vmInput c;
                     saved_scAddress := scAddress c;
                     saved_callFunction := callFunction c;
                     saved_readOnly := readOnly c |} in
  pushInstance (set_stateStack (stateStack c ++ [newState]) c).

(** [CleanWasmerInstance]: cleans the current instance and forgets it. *)
Definition CleanWasmerInstance (c : runtimeContext) : runtimeContext :=
  match instance c with
  | None => c
  | Some p =>
      let clean i := {| memoryData := memoryData i; cleaned := true |} in
      set_instance (alter clean p (instances c)) None c
  end.

(** [popInstance]. *)
Definition popInstance (c : runtimeContext) : runtimeContext :=
  match last (instanceStack c) with
  | None => c
  | Some prevInstance =>
      let c1 := set_instanceStack (removelast (instanceStack c)) c in
      if decide (prevInstance = instance c1) then c1
      else
        let c2 := CleanWasmerInstance c1 in
        set_instance (instances c2) prevInstance c2
  end.

(** [PopSetActiveState]. *)
Definition PopSetActiveState (c : runtimeContext) : runtimeContext :=
  match last (stateStack c) with
  | None => c
  | Some prevState =>
      let c1 := set_stateStack (removelast (stateStack c)) c in
      let c2 := SetVMInput (saved_vmInput prevState) c1 in
      let c3 := set_frame (saved_scAddress prevState)
                          (saved_callFunction prevState)
                          (saved_readOnly prevState) c2 in
      popInstance c3
  end.

(** [PopDiscard]. *)
Definition PopDiscard (c : runtimeContext) : runtimeContext :=
  match last (stateStack c) with
  | None => c
  | Some _ => popInstance (set_stateStack (removelast (stateStack c)) c)
  end.

(** Go's [s[lo:hi]]: a run-time panic unless [0 <= lo <= hi <= len(s)]. *)
Definition slice (s : bytes) (lo hi : Z) : option bytes :=
  if (0 <=? lo) && (lo <=? hi) && (hi <=? len s)
  then Some (take (Z.to_nat (hi - lo)) (drop (Z.to_nat lo) s))
  else None.

(** Go's [copy(dst, src)], returning the new contents of [dst]. *)
Definition copy (dst src : bytes) : bytes :=
  take (length dst) src ++ drop (length src) dst.

(** [make([]byte, n)]. *)
Definition make (n : Z) : bytes := replicate (Z.to_nat n) Byte.x00.

(** The instance [context.instance] points to, if the pointer is not nil. *)
Definition currentInstance (c : runtimeContext) : option WasmerInstance :=
  match instance c with
  | Some p => instances c !! p
  | None => None
  end.

(** [MemLoad] on the linear memory of the current instance (the memory length
    is a [uint32]: a linear memory has less than 2^32 bytes). *)
Definition MemLoad (c : runtimeContext) (offset length : Z) : outcome bytes :=
  if length =? 0 then Returns []
  else
    match currentInstance c with
    | None => Panics
    | Some inst =>
        let memoryView := memoryData inst in
        let memoryLength := len memoryView in
        let requestedEnd := math.AddInt32 offset length in
        let isOffsetTooSmall := offset <? 0 in
        let isOffsetTooLarge := memoryLength <? math.to_uint32 offset in
        let isRequestedEndTooLarge := memoryLength <? math.to_uint32 requestedEnd in
        let isLengthNegative := length <? 0 in
        if isOffsetTooSmall || isOffsetTooLarge
        then Fails (ErrWrapped "mem load" ErrBadBounds)
        else if isLengthNegative
        then Fails (ErrWrapped "mem load" ErrNegativeLength)
        else
          let result := make length in
          let source :=
            if isRequestedEndTooLarge then slice memoryView offset memoryLength
            else slice memoryView offset requestedEnd in
          match source with
          | None => Panics
          | Some src => Returns (copy result src)
          end
    end.

(** The conversion [int32(x)] of Go, which is also the wrap-around of the
    arithmetic on [int32]. *)
Definition to_int32 (x : Z) : Z := (x + 2 ^ 31) mod 2 ^ 32 - 2 ^ 31.

(** [CountSameContractInstancesOnStack]: the counter is a [uint64]. *)
Definition CountSameContractInstancesOnStack (address : bytes) (c : runtimeContext) : Z :=
  fold_left
    (fun count state =>
       if bytes_Equal address (saved_scAddress state)
       then math.to_uint64 (count + 1) else count)
    (stateStack c) 0.

(** The loop of [MemLoadMultiple]: the first failing load ends it. *)
Fixpoint MemLoadMultiple_loop (c : runtimeContext) (offset : Z) (lengths : list Z)
    : outcome (list bytes) :=
  match lengths with
  | [] => Returns []
  | length :: rest =>
      match MemLoad c offset length with
      | Returns result =>
          match MemLoadMultiple_loop c (to_int32 (offset + length)) rest with
          | Returns results => Returns (result :: results)
          | Fails err => Fails err
          | Panics => Panics
          end
      | Fails err => Fails err
      | Panics => Panics
      end
  end.

(** [MemLoadMultiple]. *)
Definition MemLoadMultiple (c : runtimeContext) (offset : Z) (lengths : list Z)
    : outcome (list bytes) :=
  if len lengths =? 0 then Returns []
  else MemLoadMultiple_loop c offset lengths.

(** The memory of the instance at [p] replaced: the effect of a write
    through the view [memory.Data()], or of [memory.Grow]. *)
Definition set_memory (p : nat) (m : bytes) (c : runtimeContext) : runtimeContext :=
  let write i := {| memoryData := m; cleaned := cleaned i |} in
  set_instance (alter write p (instances c)) (instance c) c.

Section memory.

(** [memory.Grow(1)] of the Wasmer memory, which is not part of the sources:
    from the contents of the memory, the contents after growing by one page,
    or an error. *)
Variable Grow : bytes -> VMError + bytes.

(** [MemStore]. *)
Definition MemStore (c : runtimeContext) (offset : Z) (data : bytes)
    : outcome unit * runtimeContext :=
  let dataLength := to_int32 (len data) in
  if dataLength =? 0 then (Returns tt, c)
  else
    match instance c, currentInstance c with
    | Some p, Some inst =>
        let memoryView := memoryData inst in
        let memoryLength := len memoryView in
        let requestedEnd := math.AddInt32 offset dataLength in
        let isOffsetTooSmall := offset <? 0 in
        let isNewPageNecessary := memoryLength <? math.to_uint32 requestedEnd in
        if isOffsetTooSmall then (Fails ErrBadLowerBounds, c)
        else
          let grown :=
            if isNewPageNecessary
            then match Grow memoryView with
                 | inl err => inl err
                 | inr m => inr (m, set_memory p m c)
                 end
            else inr (memoryView, c) in
          match grown with
          | inl err => (Fails err, c)
          | inr (memoryView, c1) =>
              let memoryLength := len memoryView in
              let isRequestedEndTooLarge := memoryLength <? math.to_uint32 requestedEnd in
              if isRequestedEndTooLarge then (Fails ErrBadUpperBounds, c1)
              else
                match slice memoryView offset requestedEnd with
                | None => (Panics, c1)
                | Some dst =>
                    (Returns tt,
                     set_memory p
                       (take (Z.to_nat offset) memoryView ++ copy dst data
                          ++ drop (Z.to_nat requestedEnd) memoryView) c1)
                end
          end
    | _, _ => (Panics, c)
    end.

End memory.

End runtime.

(** ** Package host: asynchronous calls *)

Module host.

Inductive AsyncCallStatus : Type :=
  | AsyncCallPending
  | AsyncCallResolved
  | AsyncCallRejected.

(** [arwen.AsyncCall], with the fields the host reads and writes. *)
Record AsyncCall := {
  Status : AsyncCallStatus;
  Destination : bytes;
  Data : bytes;
  GasLimit : Z;
  ProvidedGas : Z;
  ValueBytes : bytes;
  SuccessCallback : string;
  ErrorCallback : string }.

Record AsyncCallGroup := {
  Callback : string;
  AsyncCalls : list AsyncCall }.

(** [arwen.AsyncContext]. The Go map of groups is iterated in an order the
    language leaves open: the list gives the groups in the order of the
    iteration, one entry per group identifier. *)
Record AsyncContext := {
  CallerAddr : bytes;
  ReturnData : bytes;
  AsyncCallGroups : list (string * AsyncCallGroup) }.

(** [vmcommon.VMOutput], with the fields the host reads. The return code is
    an integer enumeration ([vmcommon.Ok] is 0). *)
Record VMOutput := {
  ReturnCode : Z;
  ReturnData_ : list bytes;
  ReturnMessage : string;
  GasRemaining : Z }.

Record ContractCallInput := {
  VMInput_ : runtime.VMInput;
  RecipientAddr : bytes;
  Function : string }.

#[global] Instance AsyncCallStatus_eq_dec : EqDecision AsyncCallStatus.
Proof. solve_decision. Defined.

#[global] Instance AsyncCall_eq_dec : EqDecision AsyncCall.
Proof. solve_decision. Defined.

#[global] Instance AsyncCallGroup_eq_dec : EqDecision AsyncCallGroup.
Proof. solve_decision. Defined.

#[global] Instance AsyncContext_eq_dec : EqDecision AsyncContext.
Proof. solve_decision. Defined.

Definition CallbackDefault : string := "callBack".

(** The contexts and libraries the host functions call through interfaces:
    metering, runtime, storage, output and blockchain contexts of the host,
    nested execution, [encoding/json], and the storage-key helpers of package
    arwen. *)
Class HostAPI (vmHost : Type) := {
  Metering_GasLeft : vmHost -> Z;
  Metering_GasSchedule : vmHost -> GasSchedule;
  Runtime_GetVMInput : vmHost -> runtime.VMInput;
  Runtime_GetSCAddress : vmHost -> bytes;
  Runtime_GetCurrentTxHash : vmHost -> bytes;
  Runtime_GetOriginalTxHash : vmHost -> bytes;
  Storage_GetStorage : bytes -> vmHost -> bytes * vmHost;
  Storage_SetStorage : bytes -> bytes -> vmHost -> option VMError * vmHost;
  Blockchain_GetCode : bytes -> vmHost -> bytes * option VMError;
  Output_GetVMOutput : vmHost -> VMOutput;
  ExecuteOnDestContext :
    ContractCallInput -> vmHost -> (VMOutput * option VMError) * vmHost;
  processCallbackVMOutput :
    VMOutput -> option VMError -> vmHost -> option VMError * vmHost;
  sendStorageCallbackToDestination :
    bytes -> bytes -> vmHost -> option VMError * vmHost;
  json_Marshal : AsyncContext -> bytes + VMError;
  json_Unmarshal : bytes -> AsyncContext + VMError;
  CustomStorageKey : string -> bytes -> bytes;
  AsyncDataPrefix : string }.

(** [big.NewInt(x).Bytes()]: the big-endian bytes of the absolute value,
    without leading zeros (no byte at all for zero). *)
Fixpoint be_bytes (fuel : nat) (n : N) (acc : bytes) : bytes :=
  match fuel with
  | O => acc
  | S fuel' =>
      if (n =? 0)%N then acc
      else
        let b := default Byte.x00 (Byte.of_N (n mod 256)%N) in
        be_bytes fuel' (n / 256)%N (b :: acc)
  end.

Definition big_Bytes (x : Z) : bytes :=
  be_bytes (S (N.to_nat (N.log2 (Z.abs_N x)))) (Z.abs_N x) [].

Section host_functions.

Context {vmHost : Type} `{HostAPI vmHost}.

Definition canExecuteSynchronouslyOnDest (dest : bytes) (host : vmHost) : bool :=
  let '(calledSCCode, err) := Blockchain_GetCode dest host in
  negb (len calledSCCode =? 0) && bool_decide (err = None).

(** [computeDataLengthFromArguments]: the length the data field would have,
    were it of the form [callback@arg1@arg2...]. *)
Definition computeDataLengthFromArguments (function : string)
    (arguments : list bytes) : Z :=
  let numSeparators := len arguments in
  let dataLength := len (bytes_of function) + numSeparators in
  fold_left (fun dataLength element => dataLength + len element) arguments dataLength.

(** The arguments of a callback: the return code first, then the return data
    when the execution went well, else the return message. *)
Definition callbackArguments (destinationVMOutput : VMOutput)
    (destinationErr : option VMError) : list bytes :=
  let arguments := [big_Bytes (ReturnCode destinationVMOutput)] in
  match destinationErr with
  | None => arguments ++ ReturnData_ destinationVMOutput
  | Some _ => arguments ++ [bytes_of (ReturnMessage destinationVMOutput)]
  end.

(** [createCallbackContractCallInput]. The sum of the two gas costs is
    computed on [uint64] with the wrap-around of Go. *)
Definition createCallbackContractCallInput (host : vmHost)
    (destinationVMOutput : VMOutput) (callbackInitiator : bytes)
    (callbackFunction : string) (destinationErr : option VMError)
    : ContractCallInput + VMError :=
  let arguments := callbackArguments destinationVMOutput destinationErr in
  let gasLimit := GasRemaining destinationVMOutput in
  let dataLength := computeDataLengthFromArguments callbackFunction arguments in
  let gasToUse := AsyncCallStep (ElrondAPICostOf (Metering_GasSchedule host)) in
  let gasToUse :=
    math.to_uint64
      (gasToUse +
       math.to_uint64
         (DataCopyPerByte (BaseOperationCostOf (Metering_GasSchedule host))
          * math.to_uint64 dataLength)) in
  if gasLimit <=? gasToUse then inr ErrNotEnoughGas
  else
    let gasLimit := gasLimit - gasToUse in
    inl {| VMInput_ :=
             {| runtime.CallerAddr := callbackInitiator;
                runtime.Arguments_ := arguments;
                runtime.CallValue := Some 0;
                runtime.CallType_ := runtime.AsynchronousCallBack;
                runtime.GasPrice := runtime.GasPrice (Runtime_GetVMInput host);
                runtime.GasProvided := gasLimit;
                runtime.GasLocked := 0;
                runtime.OriginalTxHash := Runtime_GetOriginalTxHash host;
                runtime.CurrentTxHash := Runtime_GetCurrentTxHash host;
                runtime.PrevTxHash := [];
                runtime.ESDTTransfers := [];
                runtime.ReturnCallAfterError := false |};
           RecipientAddr := Runtime_GetSCAddress host;
           Function := callbackFunction |}.

Definition set_GasLimit (g : Z) (c : AsyncCall) : AsyncCall :=
  {| Status := Status c; Destination := Destination c; Data := Data c;
     GasLimit := g; ProvidedGas := ProvidedGas c; ValueBytes := ValueBytes c;
     SuccessCallback := SuccessCallback c; ErrorCallback := ErrorCallback c |}.

Definition set_AsyncCalls (calls : list AsyncCall) (g : AsyncCallGroup)
    : AsyncCallGroup :=
  {| Callback := Callback g; AsyncCalls := calls |}.

Definition set_AsyncCallGroups (groups : list (string * AsyncCallGroup))
    (c : AsyncContext) : AsyncContext :=
  {| CallerAddr := CallerAddr c; ReturnData := ReturnData c;
     AsyncCallGroups := groups |}.

(** The state of the first loop of [setupAsyncCallsGas]. *)
Record gasTally := {
  gasNeeded : Z;
  callsWithZeroGas : Z }.

(** The inner loop of the first pass, over the calls of one group. The calls
    are reached through pointers: the limits assigned before an early return
    stay assigned, so the calls come back in both cases. *)
Fixpoint provideGas_calls (gasLeft : Z) (calls : list AsyncCall) (t : gasTally)
    : list AsyncCall * (gasTally + VMError) :=
  match calls with
  | [] => ([], inl t)
  | asyncCall :: rest =>
      match math.AddUint64WithErr (gasNeeded t) (ProvidedGas asyncCall) with
      | (_, Some err) => (asyncCall :: rest, inr err)
      | (needed, None) =>
          if gasLeft <? needed then (asyncCall :: rest, inr ErrNotEnoughGas)
          else if ProvidedGas asyncCall =? 0 then
            let t' := {| gasNeeded := needed;
                         callsWithZeroGas := callsWithZeroGas t + 1 |} in
            let '(rest', r) := provideGas_calls gasLeft rest t' in
            (asyncCall :: rest', r)
          else
            let t' := {| gasNeeded := needed;
                         callsWithZeroGas := callsWithZeroGas t |} in
            let '(rest', r) := provideGas_calls gasLeft rest t' in
            (set_GasLimit (ProvidedGas asyncCall) asyncCall :: rest', r)
      end
  end.

(** The outer loop of the first pass, over the groups. *)
Fixpoint provideGas_groups (gasLeft : Z) (groups : list (string * AsyncCallGroup))
    (t : gasTally) : list (string * AsyncCallGroup) * (gasTally + VMError) :=
  match groups with
  | [] => ([], inl t)
  | (groupID, asyncCallGroup) :: rest =>
      match provideGas_calls gasLeft (AsyncCalls asyncCallGroup) t with
      | (calls', inr err) =>
          ((groupID, set_AsyncCalls calls' asyncCallGroup) :: rest, inr err)
      | (calls', inl t') =>
          let '(rest', r) := provideGas_groups gasLeft rest t' in
          ((groupID, set_AsyncCalls calls' asyncCallGroup) :: rest', r)
      end
  end.

(** The second pass: the calls without gas of their own get the share. *)
Definition shareGas_calls (gasShare : Z) (calls : list AsyncCall) : list AsyncCall :=
  (fun asyncCall =>
     if ProvidedGas asyncCall =? 0 then set_GasLimit gasShare asyncCall
     else asyncCall) <$> calls.

Definition shareGas_groups (gasShare : Z) (groups : list (string * AsyncCallGroup))
    : list (string * AsyncCallGroup) :=
  (fun g => (g.1, set_AsyncCalls (shareGas_calls gasShare (AsyncCalls g.2)) g.2))
    <$> groups.

(** [setupAsyncCallsGas]: the error, if any, and the context as the
    assignments left it. *)
Definition setupAsyncCallsGas (host : vmHost) (asyncContext : AsyncContext)
    : option VMError * AsyncContext :=
  let gasLeft := Metering_GasLeft host in
  let start := {| gasNeeded := 0; callsWithZeroGas := 0 |} in
  match provideGas_groups gasLeft (AsyncCallGroups asyncContext) start with
  | (groups, inr err) => (Some err, set_AsyncCallGroups groups asyncContext)
  | (groups, inl t) =>
      if callsWithZeroGas t =? 0 then (None, set_AsyncCallGroups groups asyncContext)
      else if gasLeft <=? gasNeeded t
      then (Some ErrNotEnoughGas, set_AsyncCallGroups groups asyncContext)
      else
        let gasShare := (gasLeft - gasNeeded t) / callsWithZeroGas t in
        (None, set_AsyncCallGroups (shareGas_groups gasShare groups) asyncContext)
  end.

(** [savePendingAsyncCalls]. *)
Definition savePendingAsyncCalls (pendingAsyncMap : AsyncContext) (host : vmHost)
    : option VMError * vmHost :=
  if len (AsyncCallGroups pendingAsyncMap) =? 0 then (None, host)
  else
    let asyncCallStorageKey :=
      CustomStorageKey AsyncDataPrefix (Runtime_GetOriginalTxHash host) in
    match json_Marshal pendingAsyncMap with
    | inr err => (Some err, host)
    | inl data => Storage_SetStorage asyncCallStorageKey data host
    end.

(** The position of the first call of a group whose destination is the
    caller of the callback. *)
Fixpoint findCall (callerAddr : bytes) (calls : list AsyncCall) (position : nat)
    : option nat :=
  match calls with
  | [] => None
  | asyncCall :: rest =>
      if bytes_Equal callerAddr (Destination asyncCall) then Some position
      else findCall callerAddr rest (S position)
  end.

(** The search loop of [processCallbackStack]: [asyncCallPosition] and
    [currentGroupID] are set at the first match of each group visited, and
    the loop over the groups stops once the identifier is not empty. *)
Fixpoint findGroup (callerAddr : bytes) (groups : list (string * AsyncCallGroup))
    (asyncCallPosition : nat) (currentGroupID : string) : nat * string :=
  match groups with
  | [] => (asyncCallPosition, currentGroupID)
  | (groupID, asyncCallGroup) :: rest =>
      let '(position, current) :=
        match findCall callerAddr (AsyncCalls asyncCallGroup) 0 with
        | Some position => (position, groupID)
        | None => (asyncCallPosition, currentGroupID)
        end in
      if (0 <? String.length current)%nat then (position, current)
      else findGroup callerAddr rest position current
  end.

(** [asyncContext.AsyncCallGroups[groupID]]. *)
Fixpoint lookupGroup (groupID : string) (groups : list (string * AsyncCallGroup))
    : option AsyncCallGroup :=
  match groups with
  | [] => None
  | (k, asyncCallGroup) :: rest =>
      if decide (k = groupID) then Some asyncCallGroup
      else lookupGroup groupID rest
  end.

(** [delete(asyncContext.AsyncCallGroups, groupID)]. *)
Definition deleteGroup (groupID : string) (groups : list (string * AsyncCallGroup))
    : list (string * AsyncCallGroup) :=
  filter (fun g => g.1 ≠ groupID) groups.

(** The removal of [processCallbackStack] on the slice of calls: the last
    call takes the place of the one removed and the slice loses its last
    element. *)
Definition removeCall (position : nat) (calls : list AsyncCall) : list AsyncCall :=
  match last calls with
  | None => calls
  | Some lastCall => removelast (<[position := lastCall]> calls)
  end.

(** The end of [processCallbackStack], once nothing is pending any more: the
    callback goes to the original caller, in this shard or in another. *)
Definition resolveContext (asyncContext : AsyncContext) (host : vmHost)
    : option VMError * vmHost :=
  if negb (canExecuteSynchronouslyOnDest (CallerAddr asyncContext) host) then
    sendStorageCallbackToDestination
      (CallerAddr asyncContext) (ReturnData asyncContext) host
  else
    match createCallbackContractCallInput host (Output_GetVMOutput host)
            (CallerAddr asyncContext) CallbackDefault None with
    | inr err => (Some err, host)
    | inl callbackCallInput =>
        let '((callbackVMOutput, callBackErr), host1) :=
          ExecuteOnDestContext callbackCallInput host in
        processCallbackVMOutput callbackVMOutput callBackErr host1
    end.

(** [processCallbackStack]. *)
Definition processCallbackStack (host : vmHost) : option VMError * vmHost :=
  let storageKey := CustomStorageKey AsyncDataPrefix (Runtime_GetOriginalTxHash host) in
  let '(buff, host1) := Storage_GetStorage storageKey host in
  match json_Unmarshal buff with
  | inr err => (Some err, host1)
  | inl asyncContext =>
      let vmInput := Runtime_GetVMInput host1 in
      let '(asyncCallPosition, currentGroupID) :=
        findGroup (runtime.CallerAddr vmInput) (AsyncCallGroups asyncContext) 0 "" in
      if (String.length currentGroupID =? 0)%nat
      then (Some ErrCallBackFuncNotExpected, host1)
      else
        let currentContextCalls :=
          default [] (AsyncCalls <$>
                        lookupGroup currentGroupID (AsyncCallGroups asyncContext)) in
        let currentContextCalls := removeCall asyncCallPosition currentContextCalls in
        let groups :=
          if len currentContextCalls =? 0
          then deleteGroup currentGroupID (AsyncCallGroups asyncContext)
          else AsyncCallGroups asyncContext in
        if 0 <? len groups then (None, host1)
        else
          match Storage_SetStorage storageKey [] host1 with
          | (Some err, host2) => (Some err, host2)
          | (None, host2) =>
              resolveContext (set_AsyncCallGroups groups asyncContext) host2
          end
  end.

(** The body of the inner loops of [getPendingAsyncCalls] and
    [saveCrossShardCalls] for a call that is kept: the group of the
    identifier is created, with the callback of the source group and no
    calls, if the new map does not have it, and the call is appended to it. *)
Fixpoint appendCall (groupID : string) (callback : string) (asyncCall : AsyncCall)
    (groups : list (string * AsyncCallGroup)) : list (string * AsyncCallGroup) :=
  match groups with
  | [] => [(groupID, {| Callback := callback; AsyncCalls := [] ++ [asyncCall] |})]
  | (k, g) :: rest =>
      if decide (k = groupID)
      then (k, set_AsyncCalls (AsyncCalls g ++ [asyncCall]) g) :: rest
      else (k, g) :: appendCall groupID callback asyncCall rest
  end.

(** The two nested loops, over the groups and over the calls of each. *)
Definition collectCalls (keep : AsyncCall -> bool)
    (groups : list (string * AsyncCallGroup)) : list (string * AsyncCallGroup) :=
  fold_left
    (fun collected g =>
       fold_left
         (fun collected asyncCall =>
            if keep asyncCall
            then appendCall g.1 (Callback g.2) asyncCall collected
            else collected)
         (AsyncCalls g.2) collected)
    groups [].

(** [getPendingAsyncCalls]. *)
Definition getPendingAsyncCalls (asyncContext : AsyncContext) : AsyncContext :=
  {| CallerAddr := CallerAddr asyncContext;
     ReturnData := ReturnData asyncContext;
     AsyncCallGroups :=
       collectCalls (fun asyncCall => bool_decide (Status asyncCall = AsyncCallPending))
         (AsyncCallGroups asyncContext) |}.

(** [saveCrossShardCalls]. *)
Definition saveCrossShardCalls (asyncContext : AsyncContext) (host : vmHost)
    : option VMError * vmHost :=
  let crossShardCallGroups :=
    {| CallerAddr := CallerAddr asyncContext;
       ReturnData := ReturnData asyncContext;
       AsyncCallGroups :=
         collectCalls
           (fun asyncCall =>
              negb (canExecuteSynchronouslyOnDest (Destination asyncCall) host))
           (AsyncCallGroups asyncContext) |} in
  savePendingAsyncCalls crossShardCallGroups host.

End host_functions.

End host.

(** ** Package elrondapi: big-integer host functions *)

Module elrondapi.

(** The state the big-integer host functions reach through [EICallbacks]:
    the handle table of the managed-types context, the gas counters and trace
    of the metering context, and the error chain and failure mark of the
    runtime context. *)
Record EICallbacks := {
  bigIntValues : gmap Z Z;
  gasSchedule : GasSchedule;
  pointsUsed : Z;
  tracedFunction : string;
  gasTrace : list (string * Z);
  allErrors : list VMError;
  executionFailed : bool }.

Definition set_bigIntValues (v : gmap Z Z) (c : EICallbacks) : EICallbacks :=
  {| bigIntValues := v; gasSchedule := gasSchedule c; pointsUsed := pointsUsed c;
     tracedFunction := tracedFunction c; gasTrace := gasTrace c;
     allErrors := allErrors c; executionFailed := executionFailed c |}.

Definition set_gas (p : Z) (f : string) (t : list (string * Z)) (c : EICallbacks)
    : EICallbacks :=
  {| bigIntValues := bigIntValues c; gasSchedule := gasSchedule c; pointsUsed := p;
     tracedFunction := f; gasTrace := t;
     allErrors := allErrors c; executionFailed := executionFailed c |}.

Definition set_errors (e : list VMError) (failed : bool) (c : EICallbacks)
    : EICallbacks :=
  {| bigIntValues := bigIntValues c; gasSchedule := gasSchedule c;
     pointsUsed := pointsUsed c; tracedFunction := tracedFunction c;
     gasTrace := gasTrace c; allErrors := e; executionFailed := failed |}.

(** [x.BitLen()]: the length of the absolute value in bits, 0 for zero. *)
Definition BitLen (x : Z) : Z :=
  if x =? 0 then 0 else Z.log2 (Z.abs x) + 1.

(** [len(x.Bytes())]. *)
Definition ByteLen (x : Z) : Z := (BitLen x + 7) / 8.

(** [z.Div(x, y)] and [z.Mod(x, y)] of math/big: Euclidean division, the
    modulus is never negative. *)
Definition big_Div (x y : Z) : Z :=
  if 0 <? y then x / y else - (x / - y).

Definition big_Mod (x y : Z) : Z := x mod Z.abs y.

(** Modelled from the spec: the metering context is not part of the sources.
    [StartGasTracing] names the host function the next deductions are
    ascribed to; [UseAndTraceGas] is [use-gas] (saturating at the largest
    [int64]) and records the deduction in the gas trace. *)
Definition StartGasTracing (name : string) (c : EICallbacks) : EICallbacks :=
  set_gas (pointsUsed c) name (gasTrace c) c.

Definition UseAndTraceGas (gas : Z) (c : EICallbacks) : EICallbacks :=
  let gasUsed := math.AddUint64 (pointsUsed c) gas in
  set_gas (if math.MaxInt64 <? gasUsed then math.MaxInt64 else gasUsed)
          (tracedFunction c)
          (gasTrace c ++ [(tracedFunction c, gas)]) c.

(** Modelled from the spec: the managed-types context is not part of the
    sources. Get-or-create creates a zero value if the handle was never seen. *)
Definition GetBigIntOrCreate (handle : Z) (c : EICallbacks) : Z * EICallbacks :=
  match bigIntValues c !! handle with
  | Some value => (value, c)
  | None => (0, set_bigIntValues (<[handle := 0]> (bigIntValues c)) c)
  end.

(** Modelled from the spec: reading a handle that was never seen is an
    error. *)
Definition GetBigInt (handle : Z) (c : EICallbacks) : Z + VMError :=
  match bigIntValues c !! handle with
  | Some value => inl value
  | None => inr ErrNoBigIntUnderThisHandle
  end.

Definition GetTwoBigInt (handle1 handle2 : Z) (c : EICallbacks) : (Z * Z) + VMError :=
  match GetBigInt handle1 c, GetBigInt handle2 c with
  | inl a, inl b => inl (a, b)
  | inr err, _ => inr err
  | _, inr err => inr err
  end.

(** A gas amount computed on big integers, brought into [uint64]. *)
Definition clamp_uint64 (x : Z) : Z := Z.max 0 (Z.min x math.MaxUint64).

(** Modelled from the spec: [consume-gas-for-bigint-copy(v...)] deducts the
    per-byte cost for the aggregate byte length. *)
Definition ConsumeGasForBigIntCopy (values : list Z) (c : EICallbacks) : EICallbacks :=
  let bytesTotal := foldr (fun v n => ByteLen v + n) 0 values in
  UseAndTraceGas
    (math.MulUint64 (DataCopyPerByte (BaseOperationCostOf (gasSchedule c))) bytesTotal) c.

(** Modelled from the spec: a deduction proportional to the given number of
    bytes, at the per-byte copy cost. *)
Definition ConsumeGasForThisBigIntNumberOfBytes (byteLen : Z) (c : EICallbacks)
    : EICallbacks :=
  UseAndTraceGas
    (clamp_uint64 (DataCopyPerByte (BaseOperationCostOf (gasSchedule c)) * byteLen)) c.

(** [BigIntAPIErrorShouldFailExecution] of the runtime context. *)
Definition BigIntAPIErrorShouldFailExecution (c : EICallbacks) : bool := true.

(** Modelled from the spec: the propagation policy applied by every host
    function. On an error the runtime failure is marked if the flag asks for
    it, the error joins the error chain, and the caller is told to return. *)
Definition WithFault (err : option VMError) (failExecution : bool) (c : EICallbacks)
    : bool * EICallbacks :=
  match err with
  | None => (false, c)
  | Some e => (true, set_errors (allErrors c ++ [e])
                                (executionFailed c || failExecution) c)
  end.

(** [BigIntTDiv]: [Quo] is the truncated division. *)
Definition BigIntTDiv (destinationHandle op1Handle op2Handle : Z) (c : EICallbacks)
    : EICallbacks :=
  let c := StartGasTracing "bigIntTDiv" c in
  let gasToUse := cost_BigIntTDiv (BigIntAPICostOf (gasSchedule c)) in
  let c := UseAndTraceGas gasToUse c in
  let '(dest, c) := GetBigIntOrCreate destinationHandle c in
  match GetTwoBigInt op1Handle op2Handle c with
  | inr err => (WithFault (Some err) (BigIntAPIErrorShouldFailExecution c) c).2
  | inl (a, b) =>
      let c := ConsumeGasForBigIntCopy [dest; a; b] c in
      if Z.sgn b =? 0 then
        (WithFault (Some ErrDivZero) (BigIntAPIErrorShouldFailExecution c) c).2
      else set_bigIntValues (<[destinationHandle := Z.quot a b]> (bigIntValues c)) c
  end.

(** [BigIntTMod]: [Rem] is the truncated modulus. *)
Definition BigIntTMod (destinationHandle op1Handle op2Handle : Z) (c : EICallbacks)
    : EICallbacks :=
  let c := StartGasTracing "bigIntTMod" c in
  let gasToUse := cost_BigIntTMod (BigIntAPICostOf (gasSchedule c)) in
  let c := UseAndTraceGas gasToUse c in
  let '(dest, c) := GetBigIntOrCreate destinationHandle c in
  match GetTwoBigInt op1Handle op2Handle c with
  | inr err => (WithFault (Some err) (BigIntAPIErrorShouldFailExecution c) c).2
  | inl (a, b) =>
      let c := ConsumeGasForBigIntCopy [dest; a; b] c in
      if Z.sgn b =? 0 then
        (WithFault (Some ErrDivZero) (BigIntAPIErrorShouldFailExecution c) c).2
      else set_bigIntValues (<[destinationHandle := Z.rem a b]> (bigIntValues c)) c
  end.

(** [BigIntEDiv]: [Div] is the Euclidean division. *)
Definition BigIntEDiv (destinationHandle op1Handle op2Handle : Z) (c : EICallbacks)
    : EICallbacks :=
  let c := StartGasTracing "bigIntEDiv" c in
  let gasToUse := cost_BigIntEDiv (BigIntAPICostOf (gasSchedule c)) in
  let c := UseAndTraceGas gasToUse c in
  let '(dest, c) := GetBigIntOrCreate destinationHandle c in
  match GetTwoBigInt op1Handle op2Handle c with
  | inr err => (WithFault (Some err) (BigIntAPIErrorShouldFailExecution c) c).2
  | inl (a, b) =>
      let c := ConsumeGasForBigIntCopy [dest; a; b] c in
      if Z.sgn b =? 0 then
        (WithFault (Some ErrDivZero) (BigIntAPIErrorShouldFailExecution c) c).2
      else set_bigIntValues (<[destinationHandle := big_Div a b]> (bigIntValues c)) c
  end.

(** [BigIntEMod]: [Mod] is the Euclidean modulus. *)
Definition BigIntEMod (destinationHandle op1Handle op2Handle : Z) (c : EICallbacks)
    : EICallbacks :=
  let c := StartGasTracing "bigIntEMod" c in
  let gasToUse := cost_BigIntEMod (BigIntAPICostOf (gasSchedule c)) in
  let c := UseAndTraceGas gasToUse c in
  let '(dest, c) := GetBigIntOrCreate destinationHandle c in
  match GetTwoBigInt op1Handle op2Handle c with
  | inr err => (WithFault (Some err) (BigIntAPIErrorShouldFailExecution c) c).2
  | inl (a, b) =>
      let c := ConsumeGasForBigIntCopy [dest; a; b] c in
      if Z.sgn b =? 0 then
        (WithFault (Some ErrDivZero) (BigIntAPIErrorShouldFailExecution c) c).2
      else set_bigIntValues (<[destinationHandle := big_Mod a b]> (bigIntValues c)) c
  end.

(** The length of the result in bytes, as [BigIntPow] estimates it:
    [Div(Mul(b, a.BitLen()), 8)], an Euclidean division by a positive
    number. *)
Definition lengthOfResult (a b : Z) : Z := big_Div (b * BitLen a) 8.

(** [BigIntPow]. *)
Definition BigIntPow (destinationHandle op1Handle op2Handle : Z) (c : EICallbacks)
    : EICallbacks :=
  let c := StartGasTracing "bigIntPow" c in
  let gasToUse := cost_BigIntPow (BigIntAPICostOf (gasSchedule c)) in
  let c := UseAndTraceGas gasToUse c in
  let '(dest, c) := GetBigIntOrCreate destinationHandle c in
  match GetTwoBigInt op1Handle op2Handle c with
  | inr err => (WithFault (Some err) (BigIntAPIErrorShouldFailExecution c) c).2
  | inl (a, b) =>
      let c := ConsumeGasForThisBigIntNumberOfBytes (lengthOfResult a b) c in
      let c := ConsumeGasForBigIntCopy [a; b] c in
      if Z.sgn b <? 0 then
        (WithFault (Some ErrBadLowerBounds) (BigIntAPIErrorShouldFailExecution c) c).2
      else set_bigIntValues (<[destinationHandle := a ^ b]> (bigIntValues c)) c
  end.

(** The fields of [BigIntAPICost] that the functions below read. *)
Record MoreBigIntAPICost := {
  cost_BigIntAdd : Z;
  cost_BigIntSub : Z;
  cost_BigIntMul : Z;
  cost_BigIntSqrt : Z;
  cost_BigIntLog : Z;
  cost_BigIntAbs : Z;
  cost_BigIntNeg : Z;
  cost_BigIntSign : Z;
  cost_BigIntCmp : Z }.

Section more_operations.

(** [metering.GasSchedule().BigIntAPICost], on these fields. *)
Variable MoreBigIntAPICostOf : GasSchedule -> MoreBigIntAPICost.

(** [BigIntAdd]. *)
Definition BigIntAdd (destinationHandle op1Handle op2Handle : Z) (c : EICallbacks)
    : EICallbacks :=
  let c := StartGasTracing "bigIntAdd" c in
  let gasToUse := cost_BigIntAdd (MoreBigIntAPICostOf (gasSchedule c)) in
  let c := UseAndTraceGas gasToUse c in
  let '(dest, c) := GetBigIntOrCreate destinationHandle c in
  match GetTwoBigInt op1Handle op2Handle c with
  | inr err => (WithFault (Some err) (BigIntAPIErrorShouldFailExecution c) c).2
  | inl (a, b) =>
      let c := ConsumeGasForBigIntCopy [dest; a; b] c in
      set_bigIntValues (<[destinationHandle := a + b]> (bigIntValues c)) c
  end.

(** [BigIntSub]. *)
Definition BigIntSub (destinationHandle op1Handle op2Handle : Z) (c : EICallbacks)
    : EICallbacks :=
  let c := StartGasTracing "bigIntSub" c in
  let gasToUse := cost_BigIntSub (MoreBigIntAPICostOf (gasSchedule c)) in
  let c := UseAndTraceGas gasToUse c in
  let '(dest, c) := GetBigIntOrCreate destinationHandle c in
  match GetTwoBigInt op1Handle op2Handle c with
  | inr err => (WithFault (Some err) (BigIntAPIErrorShouldFailExecution c) c).2
  | inl (a, b) =>
      let c := ConsumeGasForBigIntCopy [dest; a; b] c in
      set_bigIntValues (<[destinationHandle := a - b]> (bigIntValues c)) c
  end.

(** [BigIntMul]. *)
Definition BigIntMul (destinationHandle op1Handle op2Handle : Z) (c : EICallbacks)
    : EICallbacks :=
  let c := StartGasTracing "bigIntMul" c in
  let gasToUse := cost_BigIntMul (MoreBigIntAPICostOf (gasSchedule c)) in
  let c := UseAndTraceGas gasToUse c in
  let '(dest, c) := GetBigIntOrCreate destinationHandle c in
  match GetTwoBigInt op1Handle op2Handle c with
  | inr err => (WithFault (Some err) (BigIntAPIErrorShouldFailExecution c) c).2
  | inl (a, b) =>
      let c := ConsumeGasForBigIntCopy [dest; a; b] c in
      set_bigIntValues (<[destinationHandle := a * b]> (bigIntValues c)) c
  end.

(** [BigIntSqrt]: [Sqrt] is the integer square root, rounded down. *)
Definition BigIntSqrt (destinationHandle opHandle : Z) (c : EICallbacks)
    : EICallbacks :=
  let c := StartGasTracing "bigIntSqrt" c in
  let gasToUse := cost_BigIntSqrt (MoreBigIntAPICostOf (gasSchedule c)) in
  let c := UseAndTraceGas gasToUse c in
  let '(dest, c) := GetBigIntOrCreate destinationHandle c in
  match GetBigInt opHandle c with
  | inr err => (WithFault (Some err) (BigIntAPIErrorShouldFailExecution c) c).2
  | inl a =>
      let c := ConsumeGasForBigIntCopy [dest; a] c in
      if Z.sgn a <? 0 then
        (WithFault (Some ErrBadLowerBounds) (BigIntAPIErrorShouldFailExecution c) c).2
      else set_bigIntValues (<[destinationHandle := Z.sqrt a]> (bigIntValues c)) c
  end.

(** [BigIntLog2]: the result is an [int32]. *)
Definition BigIntLog2 (op1Handle : Z) (c : EICallbacks) : Z * EICallbacks :=
  let c := StartGasTracing "bigIntLog2" c in
  let gasToUse := cost_BigIntLog (MoreBigIntAPICostOf (gasSchedule c)) in
  let c := UseAndTraceGas gasToUse c in
  match GetBigInt op1Handle c with
  | inr err => (-1, (WithFault (Some err) (BigIntAPIErrorShouldFailExecution c) c).2)
  | inl a =>
      let c := ConsumeGasForBigIntCopy [a] c in
      if Z.sgn a <? 0 then
        (-1, (WithFault (Some ErrBadLowerBounds)
                (BigIntAPIErrorShouldFailExecution c) c).2)
      else (runtime.to_int32 (BitLen a - 1), c)
  end.

(** [BigIntAbs]. *)
Definition BigIntAbs (destinationHandle opHandle : Z) (c : EICallbacks)
    : EICallbacks :=
  let c := StartGasTracing "bigIntAbs" c in
  let gasToUse := cost_BigIntAbs (MoreBigIntAPICostOf (gasSchedule c)) in
  let c := UseAndTraceGas gasToUse c in
  let '(dest, c) := GetBigIntOrCreate destinationHandle c in
  match GetBigInt opHandle c with
  | inr err => (WithFault (Some err) (BigIntAPIErrorShouldFailExecution c) c).2
  | inl a =>
      let c := ConsumeGasForBigIntCopy [dest; a] c in
      set_bigIntValues (<[destinationHandle := Z.abs a]> (bigIntValues c)) c
  end.

(** [BigIntNeg]. *)
Definition BigIntNeg (destinationHandle opHandle : Z) (c : EICallbacks)
    : EICallbacks :=
  let c := StartGasTracing "bigIntNeg" c in
  let gasToUse := cost_BigIntNeg (MoreBigIntAPICostOf (gasSchedule c)) in
  let c := UseAndTraceGas gasToUse c in
  let '(dest, c) := GetBigIntOrCreate destinationHandle c in
  match GetBigInt opHandle c with
  | inr err => (WithFault (Some err) (BigIntAPIErrorShouldFailExecution c) c).2
  | inl a =>
      let c := ConsumeGasForBigIntCopy [dest; a] c in
      set_bigIntValues (<[destinationHandle := - a]> (bigIntValues c)) c
  end.

(** [BigIntSign]. *)
Definition BigIntSign (opHandle : Z) (c : EICallbacks) : Z * EICallbacks :=
  let c := StartGasTracing "bigIntSign" c in
  let gasToUse := cost_BigIntSign (MoreBigIntAPICostOf (gasSchedule c)) in
  let c := UseAndTraceGas gasToUse c in
  match GetBigInt opHandle c with
  | inr err => (-2, (WithFault (Some err) (BigIntAPIErrorShouldFailExecution c) c).2)
  | inl a =>
      let c := ConsumeGasForBigIntCopy [a] c in
      (Z.sgn a, c)
  end.

(** [x.Cmp(y)] of math/big. *)
Definition big_Cmp (x y : Z) : Z :=
  match x ?= y with
  | Lt => -1
  | Eq => 0
  | Gt => 1
  end.

(** [BigIntCmp]. *)
Definition BigIntCmp (op1Handle op2Handle : Z) (c : EICallbacks) : Z * EICallbacks :=
  let c := StartGasTracing "bigIntCmp" c in
  let gasToUse := cost_BigIntCmp (MoreBigIntAPICostOf (gasSchedule c)) in
  let c := UseAndTraceGas gasToUse c in
  match GetTwoBigInt op1Handle op2Handle c with
  | inr err => (-2, (WithFault (Some err) (BigIntAPIErrorShouldFailExecution c) c).2)
  | inl (a, b) =>
      let c := ConsumeGasForBigIntCopy [a; b] c in
      (big_Cmp a b, c)
  end.

End more_operations.

End elrondapi.

(** * Quantities the properties speak of *)

(** The total length of a list of byte strings. *)
Definition sum_len (l : list bytes) : Z := foldr (fun e n => len e + n) 0 l.

(** The developer-specified gas of the calls of an async context, in the
    order in which the groups and their calls are visited. *)
Definition allCalls (groups : list (string * host.AsyncCallGroup))
    : list host.AsyncCall :=
  concat ((fun g => host.AsyncCalls g.2) <$> groups).

Definition sumProvidedGas (calls : list host.AsyncCall) : Z :=
  foldr (fun c n => host.ProvidedGas c + n) 0 calls.

Definition zeroGasCalls (calls : list host.AsyncCall) : Z :=
  foldr (fun c n => (if host.ProvidedGas c =? 0 then 1 else 0) + n) 0 calls.

(** The gas limit a successful setup leaves on a call: its own gas if it
    specified some, the share otherwise. *)
Definition assignGas (gasShare : Z) (c : host.AsyncCall) : host.AsyncCall :=
  host.set_GasLimit
    (if host.ProvidedGas c =? 0 then gasShare else host.ProvidedGas c) c.

Definition assignGas_groups (gasShare : Z) (groups : list (string * host.AsyncCallGroup))
    : list (string * host.AsyncCallGroup) :=
  (fun g => (g.1, host.set_AsyncCalls (assignGas gasShare <$> host.AsyncCalls g.2) g.2))
    <$> groups.

(** What the first pass of the gas setup leaves on a call and on the groups:
    the calls with gas of their own have it as limit. *)
Definition firstPass (c : host.AsyncCall) : host.AsyncCall :=
  if host.ProvidedGas c =? 0 then c else host.set_GasLimit (host.ProvidedGas c) c.

Definition firstPass_groups (groups : list (string * host.AsyncCallGroup))
    : list (string * host.AsyncCallGroup) :=
  (fun g => (g.1, host.set_AsyncCalls (firstPass <$> host.AsyncCalls g.2) g.2))
    <$> groups.

(** The outcome of a division by zero on the state: the error is signalled
    and the handle table is the old one, with the destination handle added
    at zero if it was never seen. *)
Definition div_zero_outcome (c c' : elrondapi.EICallbacks) (dest : Z) : Prop :=
  elrondapi.allErrors c' = elrondapi.allErrors c ++ [ErrDivZero] /\
  elrondapi.executionFailed c' = true /\
  elrondapi.bigIntValues c'
    = match elrondapi.bigIntValues c !! dest with
      | Some _ => elrondapi.bigIntValues c
      | None => <[dest := 0]> (elrondapi.bigIntValues c)
      end /\
  (forall handle value,
     elrondapi.bigIntValues c !! handle = Some value ->
     elrondapi.bigIntValues c' !! handle = Some value).

(** The total of the gas limits of a list of calls. *)
Definition sumGasLimit (calls : list host.AsyncCall) : Z :=
  foldr (fun c n => host.GasLimit c + n) 0 calls.

(** The groups of an async context restricted to the calls that [keep]
    holds of, without the groups that are left with no call. *)
Definition keptGroups (keep : host.AsyncCall -> bool)
    (groups : list (string * host.AsyncCallGroup))
    : list (string * host.AsyncCallGroup) :=
  filter (fun g => host.AsyncCalls g.2 ≠ [])
    ((fun g => (g.1, host.set_AsyncCalls (filter (fun c => keep c = true)
                                            (host.AsyncCalls g.2)) g.2))
       <$> groups).

(** The guards of a storage write, before the old value is looked at: the
    frame is not read-only, the key is not reserved by the node (unless it is
    a key of the VM itself), and a key of the VM is written only while the
    protection is lifted. *)
Definition writeAllowed (P : bytes) (c : contexts.storageContext) (key : bytes) : bool :=
  negb (contexts.readOnly (contexts.host c))
  && negb (negb (contexts.isArwenProtectedKey P key) && contexts.isElrondReservedKey c key)
  && negb (contexts.isArwenProtectedKey P key && contexts.arwenStorageProtectionEnabled c).

(** The storage-update map of the account of the current address once the
    key has been read: an entry that is there stays, a missing one is filled
    with the value of the node, not marked as written. *)
Definition cachedUpdates (c : contexts.storageContext) (key : bytes)
    : gmap bytes contexts.StorageUpdate :=
  let m := contexts.StorageUpdatesOf (contexts.address c) c in
  match m !! key with
  | Some _ => m
  | None =>
      <[key := {| contexts.Offset := key;
                  contexts.Data :=
                    contexts.blockChainHook_GetStorageData c (contexts.address c) key;
                  contexts.Written := false |}]> m
  end.

(** The value a read of the key finds, and whether it finds it in the
    storage-update map. *)
Definition storedValue (c : contexts.storageContext) (key : bytes) : bytes :=
  match contexts.StorageUpdatesOf (contexts.address c) c !! key with
  | Some u => contexts.Data u
  | None => contexts.blockChainHook_GetStorageData c (contexts.address c) key
  end.

Definition isCached (c : contexts.storageContext) (key : bytes) : bool :=
  bool_decide (is_Some (contexts.StorageUpdatesOf (contexts.address c) c !! key)).


(** * Sample states

    Concrete contexts on which the properties below are exercised. *)

Definition gas_schedule_1 : GasSchedule :=
  {| BaseOperationCostOf :=
       {| DataCopyPerByte := 1; PersistPerByte := 2; StorePerByte := 3;
          ReleasePerByte := 5 |};
     ElrondAPICostOf := {| AsyncCallStep := 10; CachedStorageLoad := 1 |};
     BigIntAPICostOf :=
       {| cost_BigIntTDiv := 7; cost_BigIntTMod := 7; cost_BigIntEDiv := 7;
          cost_BigIntEMod := 7; cost_BigIntPow := 9 |} |}.

Definition storage_host_1 (ro : bool) : contexts.VMHost :=
  {| contexts.readOnly := ro; contexts.gasSchedule := gas_schedule_1;
     contexts.gasForExecution := 1000; contexts.pointsUsed := 0;
     contexts.GasRefund := 0;
     contexts.OutputAccounts :=
       {[ bytes_of "alice" :=
            {[ bytes_of "k" := {| contexts.Offset := bytes_of "k";
                                  contexts.Data := bytes_of "0123456789";
                                  contexts.Written := true |};
               bytes_of "ELRONDx" := {| contexts.Offset := bytes_of "ELRONDx";
                                        contexts.Data := bytes_of "cached";
                                        contexts.Written := false |} ]} ]} |}.

Definition storage_context_1 (ro flag : bool) : contexts.storageContext :=
  {| contexts.host := storage_host_1 ro;
     contexts.blockChainHook_GetStorageData := fun _ _ => bytes_of "node";
     contexts.address := bytes_of "alice";
     contexts.stateStack := [];
     contexts.elrondProtectedKeyPrefix := bytes_of "ELROND";
     contexts.arwenStorageProtectionEnabled := true;
     contexts.flagUseDifferentGasCostForReadingCachedStorage := flag |}.

Definition runtime_context_1 (mem : bytes) : runtime.runtimeContext :=
  {| runtime.instances := {[ 1%nat := {| runtime.memoryData := mem;
                                          runtime.cleaned := false |} ]};
     runtime.instance := Some 1%nat;
     runtime.vmInput := None;
     runtime.scAddress := bytes_of "alice";
     runtime.callFunction := "wasteGas";
     runtime.readOnly := false;
     runtime.stateStack := [];
     runtime.instanceStack := [None] |}.

(** A host for the async functions: storage is a map from keys to values,
    every account of [sample_code] holds code in this shard, nested
    executions return the current output, and the callbacks sent to other
    shards are recorded. The serialisation is given on the two contexts that
    occur below. *)
Record sampleHost := {
  sample_gasLeft : Z;
  sample_callerAddr : bytes;
  sample_txHash : bytes;
  sample_storage : gmap bytes bytes;
  sample_code : gmap bytes bytes;
  sample_sent : list (bytes * bytes);
  sample_output : host.VMOutput }.

Definition sample_call (dest : string) (gas : Z) : host.AsyncCall :=
  {| host.Status := host.AsyncCallPending;
     host.Destination := bytes_of dest;
     host.Data := bytes_of "wasteGas";
     host.GasLimit := 0;
     host.ProvidedGas := gas;
     host.ValueBytes := [];
     host.SuccessCallback := "onSuccess";
     host.ErrorCallback := "onError" |}.

Definition sample_context (calls : list host.AsyncCall) : host.AsyncContext :=
  {| host.CallerAddr := bytes_of "user";
     host.ReturnData := [];
     host.AsyncCallGroups :=
       [("group", {| host.Callback := ""; host.AsyncCalls := calls |})] |}.

Definition context_AB : host.AsyncContext :=
  sample_context [sample_call "childA" 0; sample_call "childB" 0].

Definition context_B : host.AsyncContext :=
  sample_context [sample_call "childB" 0].

Definition sample_Marshal (c : host.AsyncContext) : bytes + VMError :=
  if decide (c = context_AB) then inl (bytes_of "[childA,childB]")
  else if decide (c = context_B) then inl (bytes_of "[childB]")
  else inl (bytes_of "[]").

Definition sample_Unmarshal (b : bytes) : host.AsyncContext + VMError :=
  if decide (b = bytes_of "[childA,childB]") then inl context_AB
  else if decide (b = bytes_of "[childB]") then inl context_B
  else inr ErrJSONUnmarshal.

Definition sample_set_storage (key value : bytes) (h : sampleHost) : sampleHost :=
  {| sample_gasLeft := sample_gasLeft h; sample_callerAddr := sample_callerAddr h;
     sample_txHash := sample_txHash h;
     sample_storage := <[key := value]> (sample_storage h);
     sample_code := sample_code h; sample_sent := sample_sent h;
     sample_output := sample_output h |}.

Definition sample_send (addr data : bytes) (h : sampleHost) : sampleHost :=
  {| sample_gasLeft := sample_gasLeft h; sample_callerAddr := sample_callerAddr h;
     sample_txHash := sample_txHash h; sample_storage := sample_storage h;
     sample_code := sample_code h;
     sample_sent := sample_sent h ++ [(addr, data)];
     sample_output := sample_output h |}.

#[global] Instance sampleHostAPI : host.HostAPI sampleHost := {|
  host.Metering_GasLeft := sample_gasLeft;
  host.Metering_GasSchedule := fun _ => gas_schedule_1;
  host.Runtime_GetVMInput := fun h =>
    {| runtime.CallerAddr := sample_callerAddr h;
       runtime.Arguments_ := [];
       runtime.CallValue := Some 0;
       runtime.CallType_ := runtime.AsynchronousCallBack;
       runtime.GasPrice := 1;
       runtime.GasProvided := sample_gasLeft h;
       runtime.GasLocked := 0;
       runtime.OriginalTxHash := sample_txHash h;
       runtime.CurrentTxHash := sample_txHash h;
       runtime.PrevTxHash := [];
       runtime.ESDTTransfers := [];
       runtime.ReturnCallAfterError := false |};
  host.Runtime_GetSCAddress := fun _ => bytes_of "parent";
  host.Runtime_GetCurrentTxHash := sample_txHash;
  host.Runtime_GetOriginalTxHash := sample_txHash;
  host.Storage_GetStorage := fun key h => (default [] (sample_storage h !! key), h);
  host.Storage_SetStorage := fun key value h => (None, sample_set_storage key value h);
  host.Blockchain_GetCode := fun dest h => (default [] (sample_code h !! dest), None);
  host.Output_GetVMOutput := sample_output;
  host.ExecuteOnDestContext := fun _ h => ((sample_output h, None), h);
  host.processCallbackVMOutput := fun _ _ h => (None, h);
  host.sendStorageCallbackToDestination := fun addr data h => (None, sample_send addr data h);
  host.json_Marshal := sample_Marshal;
  host.json_Unmarshal := sample_Unmarshal;
  host.CustomStorageKey := fun prefix key => bytes_of prefix ++ key;
  host.AsyncDataPrefix := "ASYNC" |}.

Definition sample_vmOutput (returnData : list bytes) (gasRemaining : Z) : host.VMOutput :=
  {| host.ReturnCode := 0;
     host.ReturnData_ := returnData;
     host.ReturnMessage := "";
     host.GasRemaining := gasRemaining |}.

(** The host at the arrival of a callback from [caller], with [stored] under
    the async-data key of the transaction. *)
Definition sample_host (gasLeft : Z) (caller : string) (stored : bytes) : sampleHost :=
  {| sample_gasLeft := gasLeft;
     sample_callerAddr := bytes_of caller;
     sample_txHash := bytes_of "tx1";
     sample_storage := {[ bytes_of "ASYNCtx1" := stored ]};
     sample_code := ∅;
     sample_sent := [];
     sample_output := sample_vmOutput [] gasLeft |}.

(** The state of the big-integer functions with the given handle table. *)
Definition sample_callbacks (values : gmap Z Z) : elrondapi.EICallbacks :=
  {| elrondapi.bigIntValues := values;
     elrondapi.gasSchedule := gas_schedule_1;
     elrondapi.pointsUsed := 0;
     elrondapi.tracedFunction := "";
     elrondapi.gasTrace := [];
     elrondapi.allErrors := [];
     elrondapi.executionFailed := false |}.

(** A context whose node holds nothing, with [used] points of the 1000 of
    the execution spent. *)
Definition storage_context_2 (used : Z) : contexts.storageContext :=
  {| contexts.host := contexts.set_pointsUsed used (storage_host_1 false);
     contexts.blockChainHook_GetStorageData := fun _ _ => [];
     contexts.address := bytes_of "alice";
     contexts.stateStack := [bytes_of "carol"];
     contexts.elrondProtectedKeyPrefix := bytes_of "ELROND";
     contexts.arwenStorageProtectionEnabled := true;
     contexts.flagUseDifferentGasCostForReadingCachedStorage := true |}.

(** The costs of the further big-integer functions, one unit each. *)
Definition sample_more_costs (_ : GasSchedule) : elrondapi.MoreBigIntAPICost :=
  {| elrondapi.cost_BigIntAdd := 1; elrondapi.cost_BigIntSub := 1;
     elrondapi.cost_BigIntMul := 1; elrondapi.cost_BigIntSqrt := 1;
     elrondapi.cost_BigIntLog := 1; elrondapi.cost_BigIntAbs := 1;
     elrondapi.cost_BigIntNeg := 1; elrondapi.cost_BigIntSign := 1;
     elrondapi.cost_BigIntCmp := 1 |}.

(** * Properties *)

(** ** State stacks (storage and runtime contexts) *)

(** C10. When the state stack of a context is empty, pop-set-active and
    pop-discard return at once: the call cannot fail and the whole context,
    hence its current address, frame and instance, is left as it was. This
    holds for the storage context and for the runtime context, whatever the
    instance stack of the latter holds. *)
Theorem pop_on_empty_state_stack_is_noop
    (sc : contexts.storageContext) (rc : runtime.runtimeContext) :
  contexts.stateStack sc = [] ->
  runtime.stateStack rc = [] ->
  contexts.PopSetActiveState sc = sc /\ contexts.PopDiscard sc = sc /\
  runtime.PopSetActiveState rc = rc /\ runtime.PopDiscard rc = rc.
Proof.
  intros Hs Hr.
  unfold contexts.PopSetActiveState, contexts.PopDiscard,
    runtime.PopSetActiveState, runtime.PopDiscard.
  rewrite Hs, Hr. simpl. auto.
Qed.

Lemma pop_on_empty_state_stack_is_noop_witness :
  contexts.PopSetActiveState (storage_context_1 false true)
    = storage_context_1 false true /\
  contexts.PopDiscard (storage_context_1 false true)
    = storage_context_1 false true /\
  runtime.PopSetActiveState (runtime_context_1 []) = runtime_context_1 [] /\
  runtime.PopDiscard (runtime_context_1 []) = runtime_context_1 [].
Proof.
  apply (pop_on_empty_state_stack_is_noop
           (storage_context_1 false true) (runtime_context_1 []));
    reflexivity.
Defined.

(** ** Storage context *)

Lemma SetStorage_all_read_only (P : bytes) (A : Z) (writes : list (bytes * bytes))
    (c : contexts.storageContext) :
  contexts.readOnly (contexts.host c) = true ->
  contexts.SetStorage_all P A writes c
    = ((fun _ => (contexts.StorageUnchanged, None)) <$> writes, c).
Proof.
  intros Hro. induction writes as [|[key value] rest IH]; simpl; [done|].
  unfold contexts.SetStorage, contexts.setStorageToAddress.
  rewrite Hro, IH. done.
Qed.

(** C6. While the read-only flag of the runtime is set, a storage write, for
    every address, key and value, returns the status Unchanged with no error
    and leaves the whole context as it was, the storage-update maps of the
    output accounts included. The same holds for any run of writes: each
    reports Unchanged without error and the storage-update map of every
    account is the one from before the run, so a read-only execution adds no
    entry marked as written. *)
Theorem read_only_write_is_unchanged_noop (P : bytes) (A : Z)
    (c : contexts.storageContext) :
  contexts.readOnly (contexts.host c) = true ->
  (forall addr key value,
     contexts.setStorageToAddress P A addr key value c
       = ((contexts.StorageUnchanged, None), c)) /\
  (forall key value,
     contexts.SetStorage P A key value c = ((contexts.StorageUnchanged, None), c)) /\
  (forall writes,
     Forall (fun r => r = (contexts.StorageUnchanged, None))
            (contexts.SetStorage_all P A writes c).1 /\
     length (contexts.SetStorage_all P A writes c).1 = length writes /\
     forall addr,
       contexts.StorageUpdatesOf addr (contexts.SetStorage_all P A writes c).2
         = contexts.StorageUpdatesOf addr c).
Proof.
  intros Hro. repeat split.
  - intros. unfold contexts.setStorageToAddress. by rewrite Hro.
  - intros. unfold contexts.SetStorage, contexts.setStorageToAddress. by rewrite Hro.
  - rewrite SetStorage_all_read_only by done. simpl.
    apply Forall_fmap, Forall_true. done.
  - rewrite SetStorage_all_read_only by done. simpl. by rewrite length_fmap.
  - intros addr. by rewrite SetStorage_all_read_only.
Qed.

Lemma read_only_write_is_unchanged_noop_witness :
  contexts.setStorageToAddress (bytes_of "ARWEN@") 32 (bytes_of "alice")
      (bytes_of "k") (bytes_of "new") (storage_context_1 true true)
    = ((contexts.StorageUnchanged, None), storage_context_1 true true).
Proof.
  apply (read_only_write_is_unchanged_noop (bytes_of "ARWEN@") 32
           (storage_context_1 true true)).
  reflexivity.
Defined.

(** C2, as stated, fails. With the flag for the different gas cost of cached
    reads unset, a read of a key with the reserved prefix that has an entry
    in the storage-update map of the output account is served from that
    entry: the node holds another value and is not asked. *)
Lemma reserved_key_read_served_from_cache :
  let c := storage_context_1 false false in
  let key := bytes_of "ELRONDx" in
  contexts.isElrondReservedKey c key = true /\
  (contexts.GetStorage (bytes_of "ARWEN@") 32 key c).1 = (bytes_of "cached", true) /\
  contexts.blockChainHook_GetStorageData c (contexts.address c) key = bytes_of "node" /\
  bytes_of "cached" <> bytes_of "node".
Proof. vm_compute. repeat split; discriminate. Qed.

(** C2, amended. For a key that begins with the reserved prefix and not with
    the prefix protected by the VM, while the flag for the different gas cost
    of cached reads is set, the read takes the value from the blockchain
    hook and reports that no cache was used; the storage-update maps of the
    output accounts are neither consulted nor changed, whatever they hold for
    the key. This is so for the unmetered read of any address and for the
    metered read of the current address, which only adds the gas of the
    read. *)
Theorem reserved_key_read_bypasses_cache (P : bytes) (A : Z)
    (c : contexts.storageContext) (key : bytes) :
  contexts.isElrondReservedKey c key = true ->
  contexts.isArwenProtectedKey P key = false ->
  contexts.flagUseDifferentGasCostForReadingCachedStorage c = true ->
  (forall addr,
     contexts.getStorageFromAddressUnmetered P addr key c
       = ((contexts.blockChainHook_GetStorageData c addr key, false), c)) /\
  (contexts.GetStorage P A key c).1
    = (contexts.blockChainHook_GetStorageData c (contexts.address c) key, false) /\
  contexts.OutputAccounts (contexts.host (contexts.GetStorage P A key c).2)
    = contexts.OutputAccounts (contexts.host c).
Proof.
  intros Hres Hprot Hflag.
  assert (Hun : forall addr,
     contexts.getStorageFromAddressUnmetered P addr key c
       = ((contexts.blockChainHook_GetStorageData c addr key, false), c)).
  { intros addr. unfold contexts.getStorageFromAddressUnmetered.
    by rewrite Hprot, Hres, Hflag. }
  split; [exact Hun|].
  unfold contexts.GetStorage, contexts.GetStorageUnmetered. rewrite Hun.
  unfold contexts.useExtraGasForKeyIfNeeded, contexts.useGasForValueIfNeeded.
  split; [done|].
  repeat (case_match; simpl); done.
Qed.

Lemma reserved_key_read_bypasses_cache_witness :
  (contexts.GetStorage (bytes_of "ARWEN@") 32 (bytes_of "ELRONDx")
     (storage_context_1 false true)).1 = (bytes_of "node", false).
Proof.
  apply (reserved_key_read_bypasses_cache (bytes_of "ARWEN@") 32
           (storage_context_1 false true) (bytes_of "ELRONDx"));
    reflexivity.
Defined.






(** ** Runtime context: memory loads *)

(** C7, as stated, fails. A load of length 0 returns the empty byte string
    before the offset is looked at: with a negative offset it succeeds. *)
Lemma MemLoad_negative_offset_zero_length :
  runtime.MemLoad (runtime_context_1 (bytes_of "abcd")) (-1) 0 = Returns [].
Proof. reflexivity. Qed.

Lemma copy_make (n : nat) (src : bytes) :
  (length src <= n)%nat ->
  runtime.copy (replicate n Byte.x00) src
    = src ++ replicate (n - length src) Byte.x00.
Proof.
  intros Hle. unfold runtime.copy. rewrite length_replicate.
  rewrite take_ge by lia. f_equal. by rewrite drop_replicate.
Qed.

Lemma slice_to_end (s : bytes) (offset : Z) :
  0 <= offset <= len s ->
  runtime.slice s offset (len s) = Some (drop (Z.to_nat offset) s).
Proof.
  intros [H0 H1]. unfold runtime.slice.
  rewrite (proj2 (Z.leb_le 0 offset)), (proj2 (Z.leb_le offset (len s))),
    (proj2 (Z.leb_le (len s) (len s))) by lia.
  simpl. f_equal. apply take_ge. rewrite length_drop. unfold len in *. lia.
Qed.

(** C7, amended. For 32-bit offset and length: a load of length 0 returns the
    empty byte string whatever the offset and without looking at the
    instance or its memory; a load of non-zero length fails for every
    negative offset and for every negative length; and a load of positive
    length whose offset lies within the memory (of at most 2^31-1 bytes) and
    whose end lies beyond it succeeds with the bytes from the offset to the
    end of the memory followed by zeros, exactly [length] bytes in all. *)
Theorem MemLoad_bounds (c : runtime.runtimeContext) (inst : runtime.WasmerInstance)
    (offset length : Z) :
  math.is_int32 offset -> math.is_int32 length ->
  (length = 0 -> runtime.MemLoad c offset length = Returns []) /\
  (runtime.currentInstance c = Some inst ->
   length <> 0 -> (offset < 0 \/ length < 0) ->
   exists e, runtime.MemLoad c offset length = Fails e /\
             (offset < 0 -> errors_Is e ErrBadBounds = true) /\
             (errors_Is e ErrBadBounds = true \/ errors_Is e ErrNegativeLength = true)) /\
  (runtime.currentInstance c = Some inst ->
   len (runtime.memoryData inst) <= math.MaxInt32 ->
   0 <= offset <= len (runtime.memoryData inst) ->
   0 < length ->
   len (runtime.memoryData inst) < offset + length ->
   let available := drop (Z.to_nat offset) (runtime.memoryData inst) in
   runtime.MemLoad c offset length
     = Returns (available ++ replicate (Z.to_nat length - List.length available)
                                        Byte.x00) /\
   len (available ++ replicate (Z.to_nat length - List.length available) Byte.x00)
     = length).
Proof.
  intros [Ho1 Ho2] [Hl1 Hl2]. unfold math.MinInt32, math.MaxInt32 in *.
  split; [|split].
  - intros ->. reflexivity.
  - intros Hinst Hne Hneg. unfold runtime.MemLoad.
    rewrite (proj2 (Z.eqb_neq _ _) Hne), Hinst.
    destruct (offset <? 0) eqn:Eo; simpl; [eauto|].
    apply Z.ltb_ge in Eo.
    destruct (_ <? math.to_uint32 offset); simpl.
    { eexists. split; [reflexivity|]. split; [lia | by left]. }
    assert (Hl : (length <? 0) = true) by (apply Z.ltb_lt; lia).
    rewrite Hl. eexists. split; [reflexivity|]. split; [lia | by right].
  - intros Hinst Hmem Hoff Hlen Hend.
    set (available := drop (Z.to_nat offset) (runtime.memoryData inst)).
    assert (Havail : (List.length available <= Z.to_nat length)%nat).
    { subst available. rewrite length_drop. unfold len in *. lia. }
    split.
    2:{ unfold len. rewrite length_app, length_replicate. lia. }
    unfold runtime.MemLoad.
    rewrite (proj2 (Z.eqb_neq _ _)) by lia. rewrite Hinst.
    rewrite (proj2 (Z.ltb_ge _ _)) by lia. simpl.
    unfold math.to_uint32. rewrite (Z.mod_small offset) by lia.
    rewrite (proj2 (Z.ltb_ge _ _)) by lia. simpl.
    rewrite (proj2 (Z.ltb_ge length 0)) by lia.
    assert (Hsrc :
      (if len (runtime.memoryData inst) <? math.AddInt32 offset length `mod` 2 ^ 32
       then runtime.slice (runtime.memoryData inst) offset
              (len (runtime.memoryData inst))
       else runtime.slice (runtime.memoryData inst) offset
              (math.AddInt32 offset length))
      = Some available).
    { destruct (_ <? _) eqn:E; [by apply slice_to_end|].
      apply Z.ltb_ge in E. unfold math.AddInt32, math.MaxInt32, math.MinInt32 in *.
      destruct (2 ^ 31 - 1 <? offset + length) eqn:E1.
      - rewrite Z.mod_small in E by lia.
        replace (2 ^ 31 - 1) with (len (runtime.memoryData inst)) by lia.
        by apply slice_to_end.
      - apply Z.ltb_ge in E1.
        rewrite (proj2 (Z.ltb_ge (offset + length) (- 2 ^ 31))) in * by lia.
        rewrite Z.mod_small in E by lia. lia. }
    rewrite Hsrc. f_equal. unfold runtime.make. by rewrite copy_make.
Qed.

Lemma MemLoad_bounds_witness :
  runtime.MemLoad (runtime_context_1 (bytes_of "abcd")) 2 5
    = Returns (bytes_of "cd" ++ [Byte.x00; Byte.x00; Byte.x00]) /\
  (exists e, runtime.MemLoad (runtime_context_1 (bytes_of "abcd")) (-1) 5 = Fails e /\
             (-1 < 0 -> errors_Is e ErrBadBounds = true) /\
             (errors_Is e ErrBadBounds = true \/ errors_Is e ErrNegativeLength = true)).
Proof.
  split.
  - apply (MemLoad_bounds (runtime_context_1 (bytes_of "abcd"))
             {| runtime.memoryData := bytes_of "abcd"; runtime.cleaned := false |}
             2 5); try reflexivity; vm_compute; try split; intros; discriminate.
  - apply (MemLoad_bounds (runtime_context_1 (bytes_of "abcd"))
             {| runtime.memoryData := bytes_of "abcd"; runtime.cleaned := false |}
             (-1) 5); try reflexivity; try (left; reflexivity);
      vm_compute; try split; intros; discriminate.
Defined.

(** ** Host: the callback of an async call *)

Lemma fold_left_add_len (args : list bytes) (z : Z) :
  fold_left (fun dataLength element => dataLength + len element) args z
    = z + sum_len args.
Proof.
  revert z. induction args as [|a args IH]; intros z; simpl; [lia|].
  rewrite IH. lia.
Qed.

Lemma computeDataLengthFromArguments_sum (f : string) (args : list bytes) :
  host.computeDataLengthFromArguments f args
    = len (bytes_of f) + len args + sum_len args.
Proof. unfold host.computeDataLengthFromArguments. apply fold_left_add_len. Qed.

Lemma sum_len_nonneg (l : list bytes) : 0 <= sum_len l.
Proof. induction l; simpl; unfold len in *; lia. Qed.

Lemma to_uint64_sum_product (step perByte n : Z) :
  0 <= n <= math.MaxUint64 ->
  math.to_uint64 (step + math.to_uint64 (perByte * math.to_uint64 n))
    = (step + perByte * n) mod 2 ^ 64.
Proof.
  intros Hn. unfold math.to_uint64, math.MaxUint64 in *.
  rewrite (Z.mod_small n) by lia.
  by rewrite Zplus_mod_idemp_r.
Qed.

(** C4, as stated, fails. The deduction is not async-call-step plus
    data-copy-per-byte times the length of the return data: with a step of
    10, a copy cost of 1 per byte and the return data [ok], that would be
    12; the code deducts 22. With 20 units of gas remaining the construction
    fails although 20 exceeds 12, and with 100 it provides 78, not 88. *)
Lemma callback_gas_is_not_return_data_length :
  let h := sample_host 1000 "childA" [] in
  let returnData := [bytes_of "ok"] in
  let claimed :=
    AsyncCallStep (ElrondAPICostOf (host.Metering_GasSchedule h))
    + DataCopyPerByte (BaseOperationCostOf (host.Metering_GasSchedule h))
      * sum_len returnData in
  claimed = 12 /\
  host.createCallbackContractCallInput h (sample_vmOutput returnData 20)
      (bytes_of "childA") "callBack" None
    = inr ErrNotEnoughGas /\
  (runtime.GasProvided <$>
     (host.VMInput_ <$>
        sum_rect (fun _ => option host.ContractCallInput) Some (fun _ => None)
          (host.createCallbackContractCallInput h (sample_vmOutput returnData 100)
             (bytes_of "childA") "callBack" None)))
    = Some 78 /\
  78 <> 100 - claimed.
Proof. vm_compute. repeat split; discriminate. Qed.

(** C4, amended. The callback input built from the output of the destination
    has call kind asynchronous-callback and, as first argument, the bytes of
    the return code; the other arguments are the return data, or the return
    message when the destination failed. The gas deducted from the gas
    remaining [g] of the destination is, modulo 2^64, async-call-step plus
    data-copy-per-byte times the length the data field of the callback would
    have: the length of the callback name, one separator per argument, and
    the bytes of all arguments, the return code included (and exactly that
    sum when it fits in 64 bits). The construction fails with not-enough-gas
    when [g] is not strictly greater than the deduction, and otherwise
    provides [g] minus the deduction. *)
Theorem callback_input_gas {vmHost : Type} `{host.HostAPI vmHost} (h : vmHost)
    (out : host.VMOutput) (initiator : bytes) (f : string) (err : option VMError) :
  let status := host.big_Bytes (host.ReturnCode out) in
  let arguments :=
    status :: match err with
              | None => host.ReturnData_ out
              | Some _ => [bytes_of (host.ReturnMessage out)]
              end in
  let dataLength := len (bytes_of f) + len arguments + sum_len arguments in
  let step := AsyncCallStep (ElrondAPICostOf (host.Metering_GasSchedule h)) in
  let perByte := DataCopyPerByte (BaseOperationCostOf (host.Metering_GasSchedule h)) in
  let gasToUse := (step + perByte * dataLength) mod 2 ^ 64 in
  dataLength <= math.MaxUint64 ->
  (0 <= step -> 0 <= perByte -> step + perByte * dataLength <= math.MaxUint64 ->
   gasToUse = step + perByte * dataLength) /\
  (host.GasRemaining out <= gasToUse ->
   host.createCallbackContractCallInput h out initiator f err = inr ErrNotEnoughGas) /\
  (gasToUse < host.GasRemaining out ->
   exists input,
     host.createCallbackContractCallInput h out initiator f err = inl input /\
     runtime.CallType_ (host.VMInput_ input) = runtime.AsynchronousCallBack /\
     runtime.Arguments_ (host.VMInput_ input) = arguments /\
     head (runtime.Arguments_ (host.VMInput_ input)) = Some status /\
     runtime.GasProvided (host.VMInput_ input) = host.GasRemaining out - gasToUse /\
     runtime.CallerAddr (host.VMInput_ input) = initiator /\
     host.RecipientAddr input = host.Runtime_GetSCAddress h /\
     host.Function input = f).
Proof.
  intros status arguments dataLength step perByte gasToUse Hfit.
  assert (Hargs : host.callbackArguments out err = arguments).
  { unfold host.callbackArguments. by destruct err. }
  assert (Hlen : 0 <= dataLength).
  { subst dataLength. pose proof (sum_len_nonneg arguments). unfold len. lia. }
  assert (Hgas :
    math.to_uint64
      (step + math.to_uint64
                (perByte * math.to_uint64
                             (host.computeDataLengthFromArguments f arguments)))
    = gasToUse).
  { rewrite computeDataLengthFromArguments_sum. by apply to_uint64_sum_product. }
  split; [|split].
  - intros Hs Hp Hsum. subst gasToUse. apply Z.mod_small.
    unfold math.MaxUint64 in *. nia.
  - intros Hle. unfold host.createCallbackContractCallInput.
    rewrite Hargs. fold step perByte. rewrite Hgas.
    by rewrite (proj2 (Z.leb_le _ _) Hle).
  - intros Hlt. unfold host.createCallbackContractCallInput.
    rewrite Hargs. fold step perByte. rewrite Hgas.
    rewrite (proj2 (Z.leb_gt _ _) Hlt).
    eexists. split; [reflexivity|]. simpl. done.
Qed.

Lemma callback_input_gas_witness :
  exists input,
    host.createCallbackContractCallInput (sample_host 1000 "childA" [])
        (sample_vmOutput [bytes_of "ok"] 100) (bytes_of "childA") "callBack" None
      = inl input /\
    runtime.CallType_ (host.VMInput_ input) = runtime.AsynchronousCallBack /\
    runtime.Arguments_ (host.VMInput_ input) = [[]; bytes_of "ok"] /\
    head (runtime.Arguments_ (host.VMInput_ input)) = Some [] /\
    runtime.GasProvided (host.VMInput_ input) = 100 - 22 /\
    runtime.CallerAddr (host.VMInput_ input) = bytes_of "childA" /\
    host.RecipientAddr input = bytes_of "parent" /\
    host.Function input = "callBack".
Proof.
  refine (proj2 (proj2 (callback_input_gas (sample_host 1000 "childA" [])
                          (sample_vmOutput [bytes_of "ok"] 100) (bytes_of "childA")
                          "callBack" None _)) _);
    vm_compute; [discriminate | reflexivity].
Defined.

(** ** Host: the gas of the async calls *)

Lemma sumProvidedGas_app (l1 l2 : list host.AsyncCall) :
  sumProvidedGas (l1 ++ l2) = sumProvidedGas l1 + sumProvidedGas l2.
Proof. induction l1; simpl; lia. Qed.

Lemma zeroGasCalls_app (l1 l2 : list host.AsyncCall) :
  zeroGasCalls (l1 ++ l2) = zeroGasCalls l1 + zeroGasCalls l2.
Proof. induction l1; simpl; lia. Qed.

Lemma zeroGasCalls_nonneg (l : list host.AsyncCall) : 0 <= zeroGasCalls l.
Proof. induction l as [|c l IH]; simpl; [lia|]. destruct (_ =? 0); lia. Qed.

Lemma sumProvidedGas_nonneg (l : list host.AsyncCall) :
  Forall (fun c => 0 <= host.ProvidedGas c <= math.MaxUint64) l ->
  0 <= sumProvidedGas l.
Proof. induction 1; simpl; lia. Qed.


Lemma provideGas_calls_ok (gasLeft : Z) (calls : list host.AsyncCall)
    (t : host.gasTally) :
  Forall (fun c => 0 <= host.ProvidedGas c <= math.MaxUint64) calls ->
  0 <= host.gasNeeded t ->
  host.gasNeeded t + sumProvidedGas calls <= gasLeft ->
  gasLeft <= math.MaxUint64 ->
  host.provideGas_calls gasLeft calls t
    = (firstPass <$> calls,
       inl {| host.gasNeeded := host.gasNeeded t + sumProvidedGas calls;
              host.callsWithZeroGas := host.callsWithZeroGas t + zeroGasCalls calls |}).
Proof.
  intros Hall. revert t.
  induction Hall as [|c calls [Hc0 Hc1] Hall IH]; intros [needed zeros] Hn Hsum Hmax;
    simpl in *.
  - do 3 f_equal; lia.
  - pose proof (sumProvidedGas_nonneg _ Hall) as Hnn.
    unfold math.AddUint64WithErr.
    rewrite (proj2 (Z.leb_le _ _)) by lia.
    rewrite (proj2 (Z.ltb_ge _ _)) by lia.
    unfold firstPass.
    destruct (host.ProvidedGas c =? 0) eqn:E;
      rewrite IH by (simpl; lia); simpl; do 3 f_equal; lia.
Qed.

Lemma provideGas_calls_fail (gasLeft : Z) (calls : list host.AsyncCall)
    (t : host.gasTally) :
  Forall (fun c => 0 <= host.ProvidedGas c <= math.MaxUint64) calls ->
  0 <= host.gasNeeded t <= gasLeft ->
  gasLeft < host.gasNeeded t + sumProvidedGas calls ->
  gasLeft <= math.MaxUint64 ->
  exists calls' e,
    host.provideGas_calls gasLeft calls t = (calls', inr e) /\
    (e = ErrNotEnoughGas \/ e = ErrAdditionOverflow) /\
    (host.gasNeeded t + sumProvidedGas calls <= math.MaxUint64 -> e = ErrNotEnoughGas).
Proof.
  intros Hall. revert t.
  induction Hall as [|c calls [Hc0 Hc1] Hall IH]; intros [needed zeros] Hn Hsum Hmax;
    simpl in *; [lia|].
  pose proof (sumProvidedGas_nonneg _ Hall) as Hnn.
  unfold math.AddUint64WithErr.
  destruct (needed + host.ProvidedGas c <=? math.MaxUint64) eqn:Efit.
  - apply Z.leb_le in Efit.
    destruct (gasLeft <? needed + host.ProvidedGas c) eqn:Egas.
    + eexists _, _. split; [reflexivity|]. auto.
    + apply Z.ltb_ge in Egas.
      destruct (host.ProvidedGas c =? 0) eqn:E.
      * destruct (IH {| host.gasNeeded := needed + host.ProvidedGas c;
                        host.callsWithZeroGas := zeros + 1 |})
          as (calls' & e & Heq & Hkind & Hfit); [simpl; lia..|].
        rewrite Heq. simpl in *. eexists _, _. split; [reflexivity|].
        split; [done|]. intros; apply Hfit; lia.
      * destruct (IH {| host.gasNeeded := needed + host.ProvidedGas c;
                        host.callsWithZeroGas := zeros |})
          as (calls' & e & Heq & Hkind & Hfit); [simpl; lia..|].
        rewrite Heq. simpl in *. eexists _, _. split; [reflexivity|].
        split; [done|]. intros; apply Hfit; lia.
  - apply Z.leb_gt in Efit. eexists _, _. split; [reflexivity|].
    split; [auto|]. lia.
Qed.

Lemma allCalls_cons (g : string * host.AsyncCallGroup)
    (rest : list (string * host.AsyncCallGroup)) :
  allCalls (g :: rest) = host.AsyncCalls g.2 ++ allCalls rest.
Proof. reflexivity. Qed.


Lemma provideGas_groups_ok (gasLeft : Z) (groups : list (string * host.AsyncCallGroup))
    (t : host.gasTally) :
  Forall (fun c => 0 <= host.ProvidedGas c <= math.MaxUint64) (allCalls groups) ->
  0 <= host.gasNeeded t ->
  host.gasNeeded t + sumProvidedGas (allCalls groups) <= gasLeft ->
  gasLeft <= math.MaxUint64 ->
  host.provideGas_groups gasLeft groups t
    = (firstPass_groups groups,
       inl {| host.gasNeeded := host.gasNeeded t + sumProvidedGas (allCalls groups);
              host.callsWithZeroGas :=
                host.callsWithZeroGas t + zeroGasCalls (allCalls groups) |}).
Proof.
  revert t. induction groups as [|[gid g] rest IH]; intros [needed zeros] Hall Hn Hsum Hmax.
  - simpl in *. do 3 f_equal; lia.
  - rewrite allCalls_cons in *. simpl in *.
    rewrite sumProvidedGas_app, zeroGasCalls_app in *.
    apply Forall_app in Hall as [Hg Hrest].
    pose proof (sumProvidedGas_nonneg _ Hg). pose proof (sumProvidedGas_nonneg _ Hrest).
    rewrite provideGas_calls_ok by (simpl; auto; lia).
    rewrite IH by (simpl; auto; lia). simpl. do 3 f_equal; lia.
Qed.

Lemma provideGas_groups_fail (gasLeft : Z) (groups : list (string * host.AsyncCallGroup))
    (t : host.gasTally) :
  Forall (fun c => 0 <= host.ProvidedGas c <= math.MaxUint64) (allCalls groups) ->
  0 <= host.gasNeeded t <= gasLeft ->
  gasLeft < host.gasNeeded t + sumProvidedGas (allCalls groups) ->
  gasLeft <= math.MaxUint64 ->
  exists groups' e,
    host.provideGas_groups gasLeft groups t = (groups', inr e) /\
    (e = ErrNotEnoughGas \/ e = ErrAdditionOverflow) /\
    (host.gasNeeded t + sumProvidedGas (allCalls groups) <= math.MaxUint64 ->
     e = ErrNotEnoughGas).
Proof.
  revert t. induction groups as [|[gid g] rest IH]; intros [needed zeros] Hall Hn Hsum Hmax.
  - simpl in *. lia.
  - rewrite allCalls_cons in *. simpl in *.
    rewrite sumProvidedGas_app in *.
    apply Forall_app in Hall as [Hg Hrest].
    pose proof (sumProvidedGas_nonneg _ Hg). pose proof (sumProvidedGas_nonneg _ Hrest).
    destruct (decide (needed + sumProvidedGas (host.AsyncCalls g) <= gasLeft)) as [Hle|Hgt].
    + rewrite provideGas_calls_ok by (simpl; auto; lia). simpl.
      destruct (IH {| host.gasNeeded := needed + sumProvidedGas (host.AsyncCalls g);
                      host.callsWithZeroGas := zeros + zeroGasCalls (host.AsyncCalls g) |})
        as (groups' & e & Heq & Hkind & Hfit); [done | simpl; lia.. |].
      rewrite Heq. simpl in *. eexists _, _. split; [reflexivity|]. split; [done|].
      intros; apply Hfit; lia.
    + destruct (provideGas_calls_fail gasLeft (host.AsyncCalls g)
                  {| host.gasNeeded := needed; host.callsWithZeroGas := zeros |})
        as (calls' & e & Heq & Hkind & Hfit); [done | simpl; lia.. |].
      rewrite Heq. simpl in *. eexists _, _. split; [reflexivity|]. split; [done|].
      intros; apply Hfit; lia.
Qed.

Lemma shareGas_firstPass (gasShare : Z) (groups : list (string * host.AsyncCallGroup)) :
  host.shareGas_groups gasShare (firstPass_groups groups)
    = assignGas_groups gasShare groups.
Proof.
  unfold host.shareGas_groups, firstPass_groups, assignGas_groups.
  rewrite <- list_fmap_compose. apply list_fmap_ext. intros _ [gid g] _. simpl.
  f_equal. unfold host.set_AsyncCalls. simpl. f_equal.
  unfold host.shareGas_calls. rewrite <- list_fmap_compose.
  apply list_fmap_ext. intros _ c _. simpl.
  unfold firstPass, assignGas.
  destruct (host.ProvidedGas c =? 0) eqn:E; simpl; rewrite E; done.
Qed.

Lemma firstPass_no_zero (gasShare : Z) (groups : list (string * host.AsyncCallGroup)) :
  zeroGasCalls (allCalls groups) = 0 ->
  firstPass_groups groups = assignGas_groups gasShare groups.
Proof.
  induction groups as [|[gid g] rest IH]; [done|].
  rewrite allCalls_cons, zeroGasCalls_app. simpl. intros Hz.
  pose proof (zeroGasCalls_nonneg (host.AsyncCalls g)).
  pose proof (zeroGasCalls_nonneg (allCalls rest)).
  unfold firstPass_groups, assignGas_groups in *. simpl.
  rewrite IH by lia. do 3 f_equal.
  assert (Hg : zeroGasCalls (host.AsyncCalls g) = 0) by lia.
  clear -Hg. induction (host.AsyncCalls g) as [|c l IHl]; [done|].
  simpl in *. pose proof (zeroGasCalls_nonneg l).
  destruct (host.ProvidedGas c =? 0) eqn:E; [lia|].
  f_equal; [|apply IHl; lia].
  unfold firstPass, assignGas. by rewrite E.
Qed.

(** C3, as stated, fails. With 10 units of gas left, a call that specifies
    10 and a call that specifies none, the specified gas does not exceed the
    gas left, yet the setup fails with not-enough-gas and the second call
    keeps the limit it had instead of getting the share (10 - 10) / 1. And
    when the running sum leaves 64 bits, the failure is the overflow of the
    addition, not not-enough-gas. *)
Lemma gas_setup_fails_without_gas_to_share :
  let h := sample_host 10 "childA" [] in
  let stale := host.set_GasLimit 7 (sample_call "childB" 0) in
  let ctx := sample_context [sample_call "childA" 10; stale] in
  sumProvidedGas (allCalls (host.AsyncCallGroups ctx)) <= host.Metering_GasLeft h /\
  (host.setupAsyncCallsGas h ctx).1 = Some ErrNotEnoughGas /\
  allCalls (host.AsyncCallGroups (host.setupAsyncCallsGas h ctx).2)
    = [host.set_GasLimit 10 (sample_call "childA" 10); stale] /\
  host.GasLimit stale <> (10 - 10) / 1 /\
  (host.setupAsyncCallsGas (sample_host math.MaxUint64 "childA" [])
     (sample_context [sample_call "childA" math.MaxUint64; sample_call "childB" 1])).1
    = Some ErrAdditionOverflow.
Proof. vm_compute. repeat split; discriminate. Qed.

(** C3, amended. Let the gas left and the gas specified by each call be
    64-bit values, [needed] the sum of the gas specified over all calls of
    all groups and [zeros] the number of calls that specify none. If [needed]
    exceeds the gas left, the setup fails: with not-enough-gas whenever
    [needed] fits in 64 bits, and otherwise with not-enough-gas or with the
    overflow error of the addition. If [needed] equals the gas left while
    some call specifies no gas, the setup fails with not-enough-gas as well.
    In every other case the setup succeeds, every call that specifies no gas
    gets the limit (gas-left - needed) / zeros, and every other call gets
    the gas it specified. *)
Theorem setupAsyncCallsGas_spec {vmHost : Type} `{host.HostAPI vmHost} (h : vmHost)
    (ctx : host.AsyncContext) :
  let gasLeft := host.Metering_GasLeft h in
  let calls := allCalls (host.AsyncCallGroups ctx) in
  let needed := sumProvidedGas calls in
  let zeros := zeroGasCalls calls in
  math.is_uint64 gasLeft ->
  Forall (fun c => math.is_uint64 (host.ProvidedGas c)) calls ->
  (gasLeft < needed ->
   exists e, (host.setupAsyncCallsGas h ctx).1 = Some e /\
             (e = ErrNotEnoughGas \/ e = ErrAdditionOverflow) /\
             (needed <= math.MaxUint64 -> e = ErrNotEnoughGas)) /\
  (needed = gasLeft -> 0 < zeros ->
   (host.setupAsyncCallsGas h ctx).1 = Some ErrNotEnoughGas) /\
  (needed < gasLeft \/ (needed = gasLeft /\ zeros = 0) ->
   host.setupAsyncCallsGas h ctx
     = (None,
        host.set_AsyncCallGroups
          (assignGas_groups ((gasLeft - needed) / zeros) (host.AsyncCallGroups ctx))
          ctx)).
Proof.
  intros gasLeft calls needed zeros Hgas Hall. unfold math.is_uint64 in *.
  pose proof (zeroGasCalls_nonneg calls) as Hz. fold zeros in Hz.
  unfold host.setupAsyncCallsGas. fold gasLeft.
  split; [|split].
  - intros Hlt.
    destruct (provideGas_groups_fail gasLeft (host.AsyncCallGroups ctx)
                {| host.gasNeeded := 0; host.callsWithZeroGas := 0 |})
      as (groups' & e & Heq & Hkind & Hfit);
      [done | unfold needed, calls in *; simpl; lia.. |].
    rewrite Heq. simpl in *. eauto.
  - intros Heq Hpos.
    rewrite provideGas_groups_ok
      by (unfold needed, calls in *; simpl; auto; lia). simpl.
    fold calls zeros needed. rewrite !Z.add_0_l.
    rewrite (proj2 (Z.eqb_neq zeros 0)) by lia.
    by rewrite (proj2 (Z.leb_le gasLeft needed)) by lia.
  - intros Hok.
    rewrite provideGas_groups_ok
      by (unfold needed, calls in *; simpl; auto; lia). simpl.
    fold calls zeros needed. rewrite !Z.add_0_l.
    destruct (zeros =? 0) eqn:Ez.
    + apply Z.eqb_eq in Ez. do 2 f_equal. by apply firstPass_no_zero.
    + apply Z.eqb_neq in Ez.
      rewrite (proj2 (Z.leb_gt gasLeft needed)) by lia.
      by rewrite shareGas_firstPass.
Qed.

Lemma setupAsyncCallsGas_spec_witness :
  host.setupAsyncCallsGas (sample_host 100 "childA" [])
      (sample_context [sample_call "a" 10; sample_call "b" 0; sample_call "c" 0])
    = (None,
       sample_context [host.set_GasLimit 10 (sample_call "a" 10);
                       host.set_GasLimit 45 (sample_call "b" 0);
                       host.set_GasLimit 45 (sample_call "c" 0)]).
Proof.
  refine (proj2 (proj2 (setupAsyncCallsGas_spec (sample_host 100 "childA" [])
            (sample_context [sample_call "a" 10; sample_call "b" 0; sample_call "c" 0])
            _ _)) _).
  - vm_compute. split; discriminate.
  - repeat constructor; vm_compute; discriminate.
  - left. reflexivity.
Defined.

(** ** Host: the callbacks that arrive from other shards *)

Lemma findCall_bounds (caller : bytes) (calls : list host.AsyncCall) (k p : nat) :
  host.findCall caller calls k = Some p -> (k <= p < k + length calls)%nat.
Proof.
  revert k. induction calls as [|c calls IH]; intros k; simpl; [done|].
  destruct (bytes_Equal caller (host.Destination c)).
  - intros [= ->]. lia.
  - intros Hf. apply IH in Hf. lia.
Qed.

Lemma findGroup_found (caller : bytes) (groups : list (string * host.AsyncCallGroup))
    (pos0 : nat) :
  (host.findGroup caller groups pos0 "").2 <> "" ->
  exists g,
    ((host.findGroup caller groups pos0 "").2, g) ∈ groups /\
    host.findCall caller (host.AsyncCalls g) 0
      = Some (host.findGroup caller groups pos0 "").1.
Proof.
  revert pos0. induction groups as [|[gid g] rest IH]; intros pos0; simpl; [done|].
  destruct (host.findCall caller (host.AsyncCalls g) 0) as [p|] eqn:Hf.
  - destruct gid as [|a gid]; simpl.
    + intros Hne. destruct (IH p Hne) as (g' & Hin & Hcall).
      exists g'. split; [by apply list_elem_of_further | done].
    + intros _. exists g. split; [apply list_elem_of_here | done].
  - simpl. intros Hne. destruct (IH pos0 Hne) as (g' & Hin & Hcall).
    exists g'. split; [by apply list_elem_of_further | done].
Qed.

Lemma lookupGroup_elem_of (gid : string) (g : host.AsyncCallGroup)
    (groups : list (string * host.AsyncCallGroup)) :
  NoDup groups.*1 -> (gid, g) ∈ groups -> host.lookupGroup gid groups = Some g.
Proof.
  induction groups as [|[k g'] rest IH]; simpl; [by intros _ ?%elem_of_nil|].
  intros Hnd Hin. apply NoDup_cons in Hnd as [Hk Hnd].
  apply elem_of_cons in Hin as [[= <- <-]|Hin].
  - by rewrite decide_True.
  - rewrite decide_False; [by apply IH|].
    intros ->. apply Hk. apply list_elem_of_fmap. by exists (gid, g).
Qed.

Lemma removeCall_length (p : nat) (calls : list host.AsyncCall) :
  length (host.removeCall p calls) = pred (length calls).
Proof.
  unfold host.removeCall. destruct (last calls) as [c|] eqn:Hl.
  - rewrite removelast_firstn_len, length_take, length_insert. lia.
  - apply last_None in Hl. by subst.
Qed.

Lemma other_group_remains (gid : string) (g : host.AsyncCallGroup)
    (groups : list (string * host.AsyncCallGroup)) :
  NoDup groups.*1 -> (gid, g) ∈ groups ->
  (length (host.AsyncCalls g) < length (allCalls groups))%nat ->
  (0 < length (host.deleteGroup gid groups))%nat.
Proof.
  intros Hnd Hin Hlen.
  apply list_elem_of_split in Hin as (l1 & l2 & ->).
  assert (Hcalls : allCalls (l1 ++ (gid, g) :: l2)
                   = allCalls l1 ++ host.AsyncCalls g ++ allCalls l2).
  { unfold allCalls. rewrite fmap_app, concat_app. done. }
  rewrite Hcalls, !length_app in Hlen.
  rewrite fmap_app, fmap_cons in Hnd. simpl in Hnd.
  apply NoDup_app in Hnd as (Hnd1 & Hdisj & Hnd2).
  apply NoDup_cons in Hnd2 as [Hk2 _].
  assert (Hother : exists k' g', (k', g') ∈ l1 ++ (gid, g) :: l2 /\ k' <> gid).
  { destruct l1 as [|[k1 g1] l1].
    - destruct l2 as [|[k2 g2] l2]; [simpl in *; lia|].
      exists k2, g2. split; [set_solver|].
      intros ->. apply Hk2. set_solver.
    - exists k1, g1. split; [set_solver|].
      intros ->. apply (Hdisj gid); set_solver. }
  destruct Hother as (k' & g' & Hin' & Hne).
  assert (Hkeep : (k', g') ∈ host.deleteGroup gid (l1 ++ (gid, g) :: l2)).
  { unfold host.deleteGroup. apply list_elem_of_filter. done. }
  destruct (host.deleteGroup gid (l1 ++ (gid, g) :: l2)); [by apply elem_of_nil in Hkeep|].
  simpl. lia.
Qed.

(** While another call of the persisted context is still pending, the
    processing of a callback ends with the state the read of the context
    left: on this path nothing is written to storage, whatever the storage
    context of the host is. *)
Lemma processCallbackStack_still_pending {vmHost : Type} `{host.HostAPI vmHost}
    (h : vmHost) (ctx : host.AsyncContext) :
  let key := host.CustomStorageKey host.AsyncDataPrefix (host.Runtime_GetOriginalTxHash h) in
  let read := host.Storage_GetStorage key h in
  let caller := runtime.CallerAddr (host.Runtime_GetVMInput read.2) in
  host.json_Unmarshal read.1 = inl ctx ->
  NoDup (host.AsyncCallGroups ctx).*1 ->
  (host.findGroup caller (host.AsyncCallGroups ctx) 0 "").2 <> "" ->
  (2 <= length (allCalls (host.AsyncCallGroups ctx)))%nat ->
  host.processCallbackStack h = (None, read.2).
Proof.
  intros key read caller Hjson Hnd Hfound Htwo.
  unfold host.processCallbackStack. fold key. fold read.
  destruct read as [buff h1] eqn:Hread. simpl in *. rewrite Hjson. fold caller.
  destruct (findGroup_found caller (host.AsyncCallGroups ctx) 0 Hfound)
    as (g & Hin & Hcall).
  destruct (host.findGroup caller (host.AsyncCallGroups ctx) 0 "") as [pos gid].
  simpl in *.
  destruct gid as [|a gid]; [done|]. simpl.
  rewrite (lookupGroup_elem_of _ g) by done. simpl.
  apply findCall_bounds in Hcall.
  assert (Hgroups :
    (0 <? len (if len (host.removeCall pos (host.AsyncCalls g)) =? 0
               then host.deleteGroup (String a gid) (host.AsyncCallGroups ctx)
               else host.AsyncCallGroups ctx)) = true).
  { apply Z.ltb_lt. unfold len. rewrite removeCall_length.
    destruct (Z.of_nat (pred (length (host.AsyncCalls g))) =? 0) eqn:E.
    - apply Z.eqb_eq in E.
      pose proof (other_group_remains _ g _ Hnd Hin). lia.
    - destruct (host.AsyncCallGroups ctx); [by apply elem_of_nil in Hin|]. simpl. lia. }
  by rewrite Hgroups.
Qed.

(** C1. Evaluation of the callback processing where it departs from the
    claim. The persisted context holds one group with two pending calls, to
    childA and to childB, and the callback of childA arrives. The call to
    childA is removed from the group in memory, the group is not empty, and
    the processing returns without error; but the context is not written
    back: storage still holds the context with both calls, not the context
    with the call to childB alone, which [savePendingAsyncCalls] would have
    put there. The callback of childB then meets the
    same two calls and returns in the same way, so the entry is never
    cleared and no callback goes to the original caller. (With a single
    pending call the entry is cleared and the callback is sent.) *)
Theorem pending_context_is_not_persisted_again :
  let stored := bytes_of "[childA,childB]" in
  let h := sample_host 1000 "childA" stored in
  let key :=
    host.CustomStorageKey host.AsyncDataPrefix (host.Runtime_GetOriginalTxHash h) in
  sample_storage h !! key = Some stored /\
  host.json_Unmarshal stored = inl context_AB /\
  host.json_Marshal context_B = inl (bytes_of "[childB]") /\
  host.processCallbackStack h = (None, h) /\
  sample_storage (host.processCallbackStack h).2 !! key <> Some (bytes_of "[childB]") /\
  sample_storage (host.savePendingAsyncCalls context_B h).2 !! key
    = Some (bytes_of "[childB]") /\
  host.processCallbackStack (sample_host 1000 "childB" stored)
    = (None, sample_host 1000 "childB" stored) /\
  (host.processCallbackStack (sample_host 1000 "childB" (bytes_of "[childB]"))).1
    = None /\
  sample_storage
    (host.processCallbackStack (sample_host 1000 "childB" (bytes_of "[childB]"))).2
    !! key = Some [] /\
  sample_sent
    (host.processCallbackStack (sample_host 1000 "childB" (bytes_of "[childB]"))).2
    = [(bytes_of "user", [])].
Proof. vm_compute. repeat split; discriminate. Qed.

(** ** Big-integer host functions *)


Lemma GetTwoBigInt_after_create (c : elrondapi.EICallbacks) (dest op1 op2 a b : Z) :
  elrondapi.bigIntValues c !! op1 = Some a ->
  elrondapi.bigIntValues c !! op2 = Some b ->
  elrondapi.GetTwoBigInt op1 op2 (elrondapi.GetBigIntOrCreate dest c).2 = inl (a, b).
Proof.
  intros H1 H2. unfold elrondapi.GetBigIntOrCreate, elrondapi.GetTwoBigInt,
    elrondapi.GetBigInt.
  destruct (elrondapi.bigIntValues c !! dest) as [d|] eqn:Hd; simpl.
  - by rewrite H1, H2.
  - rewrite !lookup_insert_ne by congruence. by rewrite H1, H2.
Qed.



(** C9, as stated, fails. The destination handle is obtained by
    get-or-create before the divisor is looked at: a division by zero whose
    destination handle was never seen leaves a new entry, holding zero, in
    the handle table. *)
Lemma division_by_zero_creates_destination :
  let c := sample_callbacks {[ 1 := 5; 2 := 0 ]} in
  elrondapi.bigIntValues c !! 3 = None /\
  elrondapi.bigIntValues (elrondapi.BigIntTDiv 3 1 2 c) !! 3 = Some 0 /\
  elrondapi.bigIntValues (elrondapi.BigIntTMod 3 1 2 c) !! 3 = Some 0 /\
  elrondapi.bigIntValues (elrondapi.BigIntEDiv 3 1 2 c) !! 3 = Some 0 /\
  elrondapi.bigIntValues (elrondapi.BigIntTDiv 3 1 2 c) <> elrondapi.bigIntValues c.
Proof.
  repeat split; try (vm_compute; reflexivity).
  intros Heq. apply (f_equal (fun m : gmap Z Z => m !! 3)) in Heq.
  vm_compute in Heq. discriminate.
Qed.

(** The operands after the destination was got or created: a dividend handle
    that was never seen is found only if it is the destination itself, which
    then holds zero. *)
Lemma GetTwoBigInt_after_create_cases (c : elrondapi.EICallbacks) (dest op1 op2 b : Z) :
  elrondapi.bigIntValues c !! op2 = Some b ->
  elrondapi.GetTwoBigInt op1 op2 (elrondapi.GetBigIntOrCreate dest c).2
    = match elrondapi.bigIntValues c !! op1 with
      | Some a => inl (a, b)
      | None => if decide (op1 = dest) then inl (0, b)
                else inr ErrNoBigIntUnderThisHandle
      end.
Proof.
  intros H2. unfold elrondapi.GetBigIntOrCreate, elrondapi.GetTwoBigInt,
    elrondapi.GetBigInt.
  destruct (elrondapi.bigIntValues c !! dest) as [d|] eqn:Hd; simpl.
  - rewrite H2. destruct (elrondapi.bigIntValues c !! op1) as [a|] eqn:H1; [done|].
    rewrite decide_False; [done|]. intros ->. congruence.
  - rewrite (lookup_insert_ne _ dest op2) by congruence. rewrite H2.
    destruct (decide (op1 = dest)) as [->|Hne].
    + rewrite lookup_insert_eq, Hd. done.
    + rewrite lookup_insert_ne by done.
      by destruct (elrondapi.bigIntValues c !! op1).
Qed.

(** The run of a division function up to the fault, for a divisor that is
    zero. *)
Ltac run_to_fault c dest op1 op2 H2 :=
  match goal with
  | |- context [elrondapi.GetBigIntOrCreate dest ?c1] =>
      let Htwo := fresh "Htwo" in
      let Hc2 := fresh "Hc2" in
      pose proof (GetTwoBigInt_after_create_cases c1 dest op1 op2 0 H2) as Htwo;
      destruct (elrondapi.GetBigIntOrCreate dest c1) as [d c2] eqn:Hc2;
      simpl in Htwo; rewrite Htwo; clear Htwo;
      revert Hc2; unfold elrondapi.GetBigIntOrCreate; simpl;
      destruct (elrondapi.bigIntValues c !! dest) eqn:Hd; intros [= <- <-]; simpl;
      unfold elrondapi.BigIntAPIErrorShouldFailExecution
  end.

(** C9, amended. Let the divisor, held under the second operand handle, be
    zero. When the dividend handle holds a value, or is the destination
    handle itself, each of the truncated division, the truncated modulus, the
    Euclidean division and the Euclidean modulus signals the div-zero error
    (it joins the error chain and the execution is marked as failed) and
    returns without performing the operation: every handle that held a value
    still holds the same value, the destination included. The handle table
    changes in one case only: a destination handle that was never seen has
    been created, holding zero. When the dividend handle was never seen and
    is not the destination, the functions return earlier: the missing handle
    is signalled, not the div-zero error, with the same effect on the handle
    table. *)
Theorem division_by_zero_keeps_values
    (f : Z -> Z -> Z -> elrondapi.EICallbacks -> elrondapi.EICallbacks)
    (c : elrondapi.EICallbacks) (dest op1 op2 : Z) :
  f ∈ [elrondapi.BigIntTDiv; elrondapi.BigIntTMod;
       elrondapi.BigIntEDiv; elrondapi.BigIntEMod] ->
  elrondapi.bigIntValues c !! op2 = Some 0 ->
  (is_Some (elrondapi.bigIntValues c !! op1) \/ op1 = dest ->
   div_zero_outcome c (f dest op1 op2 c) dest) /\
  (elrondapi.bigIntValues c !! op1 = None -> op1 <> dest ->
   elrondapi.allErrors (f dest op1 op2 c)
     = elrondapi.allErrors c ++ [ErrNoBigIntUnderThisHandle] /\
   elrondapi.executionFailed (f dest op1 op2 c) = true /\
   elrondapi.bigIntValues (f dest op1 op2 c)
     = match elrondapi.bigIntValues c !! dest with
       | Some _ => elrondapi.bigIntValues c
       | None => <[dest := 0]> (elrondapi.bigIntValues c)
       end).
Proof.
  intros Hf H2.
  assert (Hcase : f = elrondapi.BigIntTDiv \/ f = elrondapi.BigIntTMod \/
                  f = elrondapi.BigIntEDiv \/ f = elrondapi.BigIntEMod).
  { repeat (apply elem_of_cons in Hf as [->|Hf]; [tauto|]).
    by apply elem_of_nil in Hf. }
  split.
  - intros Hop1. unfold div_zero_outcome.
    assert (Hfound : match elrondapi.bigIntValues c !! op1 with
                     | Some a => True
                     | None => op1 = dest
                     end).
    { destruct Hop1 as [[a Ha]| ->].
      - by rewrite Ha.
      - by destruct (elrondapi.bigIntValues c !! dest). }
    destruct Hcase as [-> | [-> | [-> | ->]]];
      [unfold elrondapi.BigIntTDiv | unfold elrondapi.BigIntTMod
      | unfold elrondapi.BigIntEDiv | unfold elrondapi.BigIntEMod];
      run_to_fault c dest op1 op2 H2;
      (destruct (elrondapi.bigIntValues c !! op1) as [a|] eqn:H1;
       [| rewrite decide_True by done]);
      simpl; rewrite ?orb_true_r;
      (repeat split; try done; try congruence);
      (intros handle value Hh; rewrite lookup_insert_ne; [done | congruence]).
  - intros H1 Hne.
    destruct Hcase as [-> | [-> | [-> | ->]]];
      [unfold elrondapi.BigIntTDiv | unfold elrondapi.BigIntTMod
      | unfold elrondapi.BigIntEDiv | unfold elrondapi.BigIntEMod];
      run_to_fault c dest op1 op2 H2;
      rewrite H1, decide_False by done; simpl; rewrite ?orb_true_r; done.
Qed.

Lemma division_by_zero_keeps_values_witness :
  div_zero_outcome (sample_callbacks {[ 1 := 5; 2 := 0; 3 := 7 ]})
    (elrondapi.BigIntTDiv 3 1 2 (sample_callbacks {[ 1 := 5; 2 := 0; 3 := 7 ]})) 3.
Proof.
  refine (proj1 (division_by_zero_keeps_values elrondapi.BigIntTDiv
                   (sample_callbacks {[ 1 := 5; 2 := 0; 3 := 7 ]}) 3 1 2 _ _) _).
  - apply list_elem_of_here.
  - reflexivity.
  - left. eexists. reflexivity.
Defined.

(** * Further properties *)

(** ** Storage context: reads, writes and the state stack *)

Lemma put_StorageUpdates_id (c : contexts.storageContext) (addr : bytes)
    (m : gmap bytes contexts.StorageUpdate) :
  contexts.OutputAccounts (contexts.host c) !! addr = Some m ->
  contexts.put_StorageUpdates addr m c = c.
Proof.
  intros Hm. destruct c as [[ro gs gfe pu gr oa] hook a stk pre prot flag].
  unfold contexts.put_StorageUpdates, contexts.set_host, contexts.set_OutputAccounts.
  simpl in *. by rewrite insert_id.
Qed.

Lemma put_StorageUpdates_twice (c : contexts.storageContext) (addr : bytes)
    (m1 m2 : gmap bytes contexts.StorageUpdate) :
  contexts.put_StorageUpdates addr m2 (contexts.put_StorageUpdates addr m1 c)
    = contexts.put_StorageUpdates addr m2 c.
Proof.
  unfold contexts.put_StorageUpdates, contexts.set_host, contexts.set_OutputAccounts.
  simpl. by rewrite insert_insert_eq.
Qed.

Lemma StorageUpdatesOf_put (c : contexts.storageContext) (addr addr' : bytes)
    (m : gmap bytes contexts.StorageUpdate) :
  contexts.StorageUpdatesOf addr' (contexts.put_StorageUpdates addr m c)
    = if decide (addr = addr') then m else contexts.StorageUpdatesOf addr' c.
Proof.
  unfold contexts.StorageUpdatesOf, contexts.put_StorageUpdates. simpl.
  rewrite lookup_insert. by destruct (decide (addr = addr')).
Qed.

(** Reading the map of an account: the account is created empty if need be,
    which does not change the map read with [StorageUpdatesOf]. *)
Lemma GetStorageUpdates_eq (addr : bytes) (c : contexts.storageContext) :
  contexts.GetStorageUpdates addr c
    = (contexts.StorageUpdatesOf addr c,
       contexts.put_StorageUpdates addr (contexts.StorageUpdatesOf addr c) c).
Proof.
  unfold contexts.GetStorageUpdates, contexts.GetOutputAccount,
    contexts.StorageUpdatesOf.
  destruct (contexts.OutputAccounts (contexts.host c) !! addr) as [m|] eqn:Hm; simpl.
  - rewrite put_StorageUpdates_id by done. by destruct c.
  - reflexivity.
Qed.

Lemma changeStorageUpdate_eq (addr key value : bytes) (c : contexts.storageContext) :
  contexts.changeStorageUpdate addr key value c
    = contexts.put_StorageUpdates addr
        (<[key := {| contexts.Offset := key; contexts.Data := value;
                     contexts.Written := true |}]>
           (contexts.StorageUpdatesOf addr c)) c.
Proof.
  unfold contexts.changeStorageUpdate. rewrite GetStorageUpdates_eq.
  by rewrite put_StorageUpdates_twice.
Qed.

Lemma no_bypass (P : bytes) (c : contexts.storageContext) (key : bytes) :
  writeAllowed P c key = true ->
  negb (contexts.isArwenProtectedKey P key) && contexts.isElrondReservedKey c key
  && contexts.flagUseDifferentGasCostForReadingCachedStorage c = false.
Proof.
  unfold writeAllowed. intros H.
  destruct (contexts.isArwenProtectedKey P key), (contexts.isElrondReservedKey c key);
    simpl in *; try done.
  by rewrite andb_false_r in H.
Qed.

(** A read that is not a bypass returns the stored value and leaves the entry
    of the key in the map. *)
Lemma GetStorageUnmetered_eq (P : bytes) (c : contexts.storageContext) (key : bytes) :
  negb (contexts.isArwenProtectedKey P key) && contexts.isElrondReservedKey c key
  && contexts.flagUseDifferentGasCostForReadingCachedStorage c = false ->
  contexts.GetStorageUnmetered P key c
    = ((storedValue c key, isCached c key),
       contexts.put_StorageUpdates (contexts.address c) (cachedUpdates c key) c).
Proof.
  intros Hby. unfold contexts.GetStorageUnmetered, contexts.getStorageFromAddressUnmetered.
  rewrite Hby, GetStorageUpdates_eq. unfold storedValue, isCached, cachedUpdates.
  destruct (contexts.StorageUpdatesOf (contexts.address c) c !! key) as [u|] eqn:Hu.
  - rewrite bool_decide_eq_true_2 by eauto. done.
  - rewrite bool_decide_eq_false_2 by (intros [? ?]; done).
    by rewrite put_StorageUpdates_twice.
Qed.

Lemma getOldValue_eq (P : bytes) (c : contexts.storageContext) (key : bytes) :
  negb (contexts.isArwenProtectedKey P key) && contexts.isElrondReservedKey c key
  && contexts.flagUseDifferentGasCostForReadingCachedStorage c = false ->
  contexts.getOldValue P (contexts.address c) key c
    = ((storedValue c key, isCached c key),
       contexts.put_StorageUpdates (contexts.address c) (cachedUpdates c key) c).
Proof.
  intros Hby. unfold contexts.getOldValue. rewrite GetStorageUpdates_eq.
  unfold storedValue, isCached, cachedUpdates.
  destruct (contexts.StorageUpdatesOf (contexts.address c) c !! key) as [u|] eqn:Hu.
  - rewrite bool_decide_eq_true_2 by eauto. done.
  - rewrite bool_decide_eq_false_2 by (intros [? ?]; done).
    rewrite GetStorageUnmetered_eq by done. simpl.
    rewrite GetStorageUpdates_eq. rewrite !StorageUpdatesOf_put.
    rewrite decide_True by done.
    unfold storedValue, cachedUpdates. simpl.
    rewrite StorageUpdatesOf_put, decide_True by done. rewrite Hu.
    rewrite !put_StorageUpdates_twice. by rewrite insert_insert_eq.
Qed.

Ltac split_gas_checks :=
  repeat match goal with
    | |- context [if ?a <? ?b then _ else _] => destruct (a <? b)
    | |- context [if ?a =? ?b then _ else _] => destruct (a =? b)
    | |- context [if ?a <=? ?b then _ else _] => destruct (a <=? b)
    end.

Lemma writeAllowed_guards (P : bytes) (c : contexts.storageContext) (key : bytes) :
  writeAllowed P c key = true ->
  contexts.readOnly (contexts.host c) = false /\
  negb (contexts.isArwenProtectedKey P key) && contexts.isElrondReservedKey c key = false /\
  contexts.isArwenProtectedKey P key && contexts.arwenStorageProtectionEnabled c = false.
Proof.
  unfold writeAllowed. intros H.
  apply andb_true_iff in H as [H H3]. apply andb_true_iff in H as [H1 H2].
  apply negb_true_iff in H1, H2, H3. done.
Qed.

Lemma writeAllowed_false (P : bytes) (A : Z) (c : contexts.storageContext)
    (key value : bytes) :
  writeAllowed P c key = false ->
  (contexts.SetStorage P A key value c).2 = c.
Proof.
  unfold writeAllowed, contexts.SetStorage, contexts.setStorageToAddress.
  destruct (contexts.readOnly (contexts.host c)); [done|].
  destruct (negb (contexts.isArwenProtectedKey P key)
            && contexts.isElrondReservedKey c key); [done|].
  destruct (contexts.isArwenProtectedKey P key
            && contexts.arwenStorageProtectionEnabled c); done.
Qed.

Lemma cachedUpdates_lookup (c : contexts.storageContext) (key : bytes) :
  exists u, cachedUpdates c key !! key = Some u /\ contexts.Data u = storedValue c key.
Proof.
  unfold cachedUpdates, storedValue.
  destruct (contexts.StorageUpdatesOf (contexts.address c) c !! key) as [u|] eqn:Hu.
  - by exists u.
  - eexists. by rewrite lookup_insert_eq.
Qed.

Lemma cachedUpdates_lookup_ne (c : contexts.storageContext) (key key' : bytes) :
  key' <> key ->
  cachedUpdates c key !! key' = contexts.StorageUpdatesOf (contexts.address c) c !! key'.
Proof.
  intros Hne. unfold cachedUpdates.
  destruct (contexts.StorageUpdatesOf (contexts.address c) c !! key); [done|].
  by rewrite lookup_insert_ne.
Qed.

(** The normal form of a write that passes the three guards: the old value
    is read, which leaves the entry of the key in the map, and the key is
    charged for. *)
Lemma SetStorage_eq (P : bytes) (A : Z) (c : contexts.storageContext)
    (key value : bytes) :
  writeAllowed P c key = true ->
  let c1 := contexts.put_StorageUpdates (contexts.address c) (cachedUpdates c key) c in
  let gasForKey := contexts.computeGasForKey A key (isCached c key) c in
  contexts.SetStorage P A key value c =
    if contexts.GasLeft (contexts.host c) <? gasForKey
    then ((contexts.StorageUnchanged, Some ErrNotEnoughGas), c1)
    else
      let c2 := contexts.set_host (contexts.UseGas gasForKey (contexts.host c1)) c1 in
      if bytes_Equal (storedValue c key) value
      then contexts.storageUnchanged (len value) (isCached c key) c2
      else
        let c3 := contexts.put_StorageUpdates (contexts.address c)
                    (<[key := {| contexts.Offset := key; contexts.Data := value;
                                 contexts.Written := true |}]> (cachedUpdates c key)) c2 in
        if bytes_Equal (storedValue c key) [] then contexts.storageAdded (len value) c3
        else if bytes_Equal value []
        then contexts.storageDeleted (len (storedValue c key)) c3
        else
          let d := math.SubInt (len value) (len (storedValue c key)) in
          let '(gasToUseForValue, gasToFreeForValue) :=
            if 0 <? d
            then contexts.computeGasForBiggerValues (len (storedValue c key)) d c3
            else if d <? 0 then contexts.computeGasForSmallerValues d (len value) c3
            else (0, 0) in
          match contexts.UseGasBounded gasToUseForValue (contexts.host c3) with
          | (Some err, h') => ((contexts.StorageUnchanged, Some err), contexts.set_host h' c3)
          | (None, h') =>
              ((contexts.StorageModified, None),
               contexts.set_host (contexts.FreeGas gasToFreeForValue h') c3)
          end.
Proof.
  intros Hallowed c1 gasForKey.
  destruct (writeAllowed_guards _ _ _ Hallowed) as (Hro & Hres & Hprot).
  pose proof (no_bypass _ _ _ Hallowed) as Hby.
  unfold contexts.SetStorage, contexts.setStorageToAddress.
  rewrite Hro, Hres, Hprot, getOldValue_eq by done.
  cbv beta iota zeta.
  unfold contexts.UseGasBounded at 1.
  change (contexts.GasLeft (contexts.host
            (contexts.put_StorageUpdates (contexts.address c) (cachedUpdates c key) c)))
    with (contexts.GasLeft (contexts.host c)).
  change (contexts.computeGasForKey A key (isCached c key)
            (contexts.put_StorageUpdates (contexts.address c) (cachedUpdates c key) c))
    with gasForKey.
  destruct (contexts.GasLeft (contexts.host c) <? gasForKey); [by destruct c|].
  cbv beta iota.
  rewrite changeStorageUpdate_eq.
  replace (contexts.StorageUpdatesOf (contexts.address c)
             (contexts.set_host
                (contexts.UseGas gasForKey
                   (contexts.host
                      (contexts.put_StorageUpdates (contexts.address c)
                         (cachedUpdates c key) c)))
                (contexts.put_StorageUpdates (contexts.address c)
                   (cachedUpdates c key) c)))
    with (cachedUpdates c key).
  2:{ unfold contexts.StorageUpdatesOf. simpl. by rewrite lookup_insert_eq. }
  reflexivity.
Qed.

(** What any write leaves: only the host part of the context changes; the
    read-only flag, the gas schedule and the gas for the execution stay, and
    the accounts are as before, or as after the read of the old value, or
    with the entry of the key replaced by the new value, marked as
    written. *)
Lemma SetStorage_accounts (P : bytes) (A : Z) (c : contexts.storageContext)
    (key value : bytes) :
  exists r h',
    contexts.SetStorage P A key value c = (r, contexts.set_host h' c) /\
    contexts.readOnly h' = contexts.readOnly (contexts.host c) /\
    contexts.gasSchedule h' = contexts.gasSchedule (contexts.host c) /\
    contexts.gasForExecution h' = contexts.gasForExecution (contexts.host c) /\
    (contexts.OutputAccounts h' = contexts.OutputAccounts (contexts.host c) \/
     contexts.OutputAccounts h'
       = <[contexts.address c := cachedUpdates c key]>
           (contexts.OutputAccounts (contexts.host c)) \/
     contexts.OutputAccounts h'
       = <[contexts.address c :=
             <[key := {| contexts.Offset := key; contexts.Data := value;
                         contexts.Written := true |}]> (cachedUpdates c key)]>
           (contexts.OutputAccounts (contexts.host c))).
Proof.
  destruct (writeAllowed P c key) eqn:Hallowed.
  - rewrite SetStorage_eq by done. cbv zeta.
    unfold contexts.storageUnchanged, contexts.storageAdded, contexts.storageDeleted,
      contexts.UseGasBounded, contexts.computeGasForBiggerValues,
      contexts.computeGasForSmallerValues.
    repeat match goal with
      | |- context [if bytes_Equal ?a ?b then _ else _] => destruct (bytes_Equal a b)
      end;
      split_gas_checks; cbv beta iota zeta; split_gas_checks;
      (eexists _, _; split; [reflexivity|]); simpl;
      rewrite ?insert_insert_eq; auto 10.
  - pose proof (writeAllowed_false P A c key value Hallowed) as Hc.
    destruct (contexts.SetStorage P A key value c) as [r c'] eqn:Heq. simpl in Hc.
    subst c'. exists r, (contexts.host c). split; [by destruct c|]. auto 10.
Qed.

(** The entry of the key after a write that passes the guards and the charge
    for the key. *)
Lemma SetStorage_updates (P : bytes) (A : Z) (c : contexts.storageContext)
    (key value : bytes) :
  writeAllowed P c key = true ->
  contexts.computeGasForKey A key (isCached c key) c
    <= contexts.GasLeft (contexts.host c) ->
  contexts.StorageUpdatesOf (contexts.address c)
      (contexts.SetStorage P A key value c).2
    = if decide (storedValue c key = value) then cachedUpdates c key
      else <[key := {| contexts.Offset := key; contexts.Data := value;
                       contexts.Written := true |}]> (cachedUpdates c key).
Proof.
  intros Hallowed Hgas. rewrite SetStorage_eq by done. cbv zeta.
  apply Z.ltb_ge in Hgas. rewrite Hgas.
  unfold bytes_Equal at 1.
  destruct (decide (storedValue c key = value)) as [Heq|Hne].
  - rewrite bool_decide_eq_true_2 by done.
    unfold contexts.storageUnchanged, contexts.UseGasBounded.
    split_gas_checks; unfold contexts.StorageUpdatesOf; simpl;
      by rewrite lookup_insert_eq.
  - rewrite bool_decide_eq_false_2 by done.
    unfold contexts.storageAdded, contexts.storageDeleted,
      contexts.UseGasBounded, contexts.computeGasForBiggerValues,
      contexts.computeGasForSmallerValues.
    repeat match goal with
      | |- context [if bytes_Equal ?a ?b then _ else _] => destruct (bytes_Equal a b)
      end;
      split_gas_checks; cbv beta iota zeta; split_gas_checks;
      unfold contexts.StorageUpdatesOf; simpl; by rewrite lookup_insert_eq.
Qed.

(** X1. A write that passes the guards and the charge for the key is read
    back: the next unmetered read of the key returns the written value, from
    the cache. This holds whatever the write returned, also when the charge
    for the value failed with not-enough-gas. *)
Theorem write_is_read_back (P : bytes) (A : Z) (c : contexts.storageContext)
    (key value : bytes) :
  writeAllowed P c key = true ->
  contexts.computeGasForKey A key (isCached c key) c
    <= contexts.GasLeft (contexts.host c) ->
  (contexts.GetStorageUnmetered P key (contexts.SetStorage P A key value c).2).1
    = (value, true).
Proof.
  intros Hallowed Hgas.
  pose proof (SetStorage_updates P A c key value Hallowed Hgas) as Hupd.
  destruct (SetStorage_accounts P A c key value) as (r & h' & Heq & _).
  rewrite Heq in *. simpl in Hupd.
  rewrite GetStorageUnmetered_eq by exact (no_bypass _ _ _ Hallowed).
  unfold storedValue, isCached. simpl. rewrite Hupd.
  destruct (cachedUpdates_lookup c key) as (u & Hu & Hdata).
  destruct (decide (storedValue c key = value)) as [Hv|Hv].
  - rewrite Hu. rewrite bool_decide_eq_true_2 by eauto. by rewrite Hdata, Hv.
  - rewrite lookup_insert_eq. by rewrite bool_decide_eq_true_2 by eauto.
Qed.

Lemma write_is_read_back_witness :
  (contexts.GetStorageUnmetered (bytes_of "ARWEN") (bytes_of "fresh")
     (contexts.SetStorage (bytes_of "ARWEN") 32 (bytes_of "fresh") (bytes_of "v")
        (storage_context_1 false true)).2).1
  = (bytes_of "v", true).
Proof.
  apply (write_is_read_back (bytes_of "ARWEN") 32 (storage_context_1 false true)
           (bytes_of "fresh") (bytes_of "v")).
  - reflexivity.
  - vm_compute. discriminate.
Defined.

(** X2. The first write of a value under a key whose stored value is empty,
    when the gas left after the charge for the key does not cover the charge
    for storing the value: the write returns status unchanged with
    not-enough-gas, and yet the entry of the key holds the new value, marked
    as written. *)
Theorem failed_add_keeps_written_entry (P : bytes) (A : Z)
    (c : contexts.storageContext) (key value : bytes) :
  writeAllowed P c key = true ->
  contexts.computeGasForKey A key (isCached c key) c
    <= contexts.GasLeft (contexts.host c) ->
  storedValue c key = [] ->
  contexts.GasLeft
      (contexts.UseGas (contexts.computeGasForKey A key (isCached c key) c)
         (contexts.host c))
    < math.MulUint64
        (StorePerByte (BaseOperationCostOf (contexts.gasSchedule (contexts.host c))))
        (len value) ->
  (contexts.SetStorage P A key value c).1
    = (contexts.StorageUnchanged, Some ErrNotEnoughGas) /\
  contexts.StorageUpdatesOf (contexts.address c)
      (contexts.SetStorage P A key value c).2 !! key
    = Some {| contexts.Offset := key; contexts.Data := value;
              contexts.Written := true |}.
Proof.
  intros Hallowed Hgas Hold Hvalue.
  assert (Hne : storedValue c key <> value).
  { intros Heq. rewrite Hold in Heq. subst value. simpl in Hvalue.
    unfold math.MulUint64 in Hvalue. rewrite Z.mul_0_r in Hvalue.
    unfold contexts.GasLeft in Hvalue. simpl in Hvalue.
    repeat case_match; lia. }
  split.
  - rewrite SetStorage_eq by done. cbv zeta.
    apply Z.ltb_ge in Hgas. rewrite Hgas.
    unfold bytes_Equal. rewrite bool_decide_eq_false_2 by done.
    rewrite bool_decide_eq_true_2 by done.
    unfold contexts.storageAdded, contexts.UseGasBounded.
    apply Z.ltb_lt in Hvalue. simpl. unfold contexts.GasLeft in *. simpl in *.
    by rewrite Hvalue.
  - rewrite SetStorage_updates by done. rewrite decide_False by done.
    by rewrite lookup_insert_eq.
Qed.

Lemma failed_add_keeps_written_entry_witness :
  (contexts.SetStorage (bytes_of "ARWEN") 32 (bytes_of "fresh") (bytes_of "abc")
     (storage_context_2 995)).1
    = (contexts.StorageUnchanged, Some ErrNotEnoughGas) /\
  contexts.StorageUpdatesOf (bytes_of "alice")
      (contexts.SetStorage (bytes_of "ARWEN") 32 (bytes_of "fresh") (bytes_of "abc")
         (storage_context_2 995)).2 !! bytes_of "fresh"
    = Some {| contexts.Offset := bytes_of "fresh"; contexts.Data := bytes_of "abc";
              contexts.Written := true |}.
Proof.
  apply (failed_add_keeps_written_entry (bytes_of "ARWEN") 32 (storage_context_2 995)
           (bytes_of "fresh") (bytes_of "abc")).
  - reflexivity.
  - vm_compute. discriminate.
  - reflexivity.
  - vm_compute. reflexivity.
Defined.

(** X3. A write of the value that the key already holds returns status
    unchanged and never marks the entry as written: the map of the account
    is the map that the read of the old value leaves. *)
Theorem same_value_write_is_unchanged (P : bytes) (A : Z)
    (c : contexts.storageContext) (key : bytes) :
  writeAllowed P c key = true ->
  contexts.computeGasForKey A key (isCached c key) c
    <= contexts.GasLeft (contexts.host c) ->
  (contexts.SetStorage P A key (storedValue c key) c).1.1 = contexts.StorageUnchanged /\
  contexts.StorageUpdatesOf (contexts.address c)
      (contexts.SetStorage P A key (storedValue c key) c).2
    = cachedUpdates c key.
Proof.
  intros Hallowed Hgas. split.
  - rewrite SetStorage_eq by done. cbv zeta.
    apply Z.ltb_ge in Hgas. rewrite Hgas.
    unfold bytes_Equal. rewrite bool_decide_eq_true_2 by done.
    unfold contexts.storageUnchanged, contexts.UseGasBounded.
    by split_gas_checks.
  - rewrite SetStorage_updates by done. by rewrite decide_True.
Qed.

Lemma same_value_write_is_unchanged_witness :
  (contexts.SetStorage (bytes_of "ARWEN") 32 (bytes_of "k")
     (storedValue (storage_context_1 false true) (bytes_of "k"))
     (storage_context_1 false true)).1.1 = contexts.StorageUnchanged /\
  contexts.StorageUpdatesOf (bytes_of "alice")
      (contexts.SetStorage (bytes_of "ARWEN") 32 (bytes_of "k")
         (storedValue (storage_context_1 false true) (bytes_of "k"))
         (storage_context_1 false true)).2
    = cachedUpdates (storage_context_1 false true) (bytes_of "k").
Proof.
  apply (same_value_write_is_unchanged (bytes_of "ARWEN") 32
           (storage_context_1 false true) (bytes_of "k")).
  - reflexivity.
  - vm_compute. discriminate.
Defined.

(** X4. A write touches one entry only: under the current address every
    other key holds what it held, and the accounts of the other addresses are
    the same. This holds for every write, whatever it returns. *)
Theorem write_leaves_other_entries (P : bytes) (A : Z)
    (c : contexts.storageContext) (key value key' addr' : bytes) :
  key' <> key ->
  addr' <> contexts.address c ->
  let c' := (contexts.SetStorage P A key value c).2 in
  contexts.StorageUpdatesOf (contexts.address c) c' !! key'
    = contexts.StorageUpdatesOf (contexts.address c) c !! key' /\
  contexts.OutputAccounts (contexts.host c') !! addr'
    = contexts.OutputAccounts (contexts.host c) !! addr'.
Proof.
  intros Hkey Haddr c'. subst c'.
  destruct (SetStorage_accounts P A c key value)
    as (r & h' & Heq & _ & _ & _ & Hoa).
  rewrite Heq. unfold contexts.StorageUpdatesOf at 1. simpl.
  destruct Hoa as [Hoa|[Hoa|Hoa]]; rewrite Hoa; clear Hoa.
  - done.
  - rewrite lookup_insert_eq, lookup_insert_ne by done. simpl.
    by rewrite cachedUpdates_lookup_ne.
  - rewrite lookup_insert_eq, lookup_insert_ne by done. simpl.
    rewrite lookup_insert_ne by done.
    by rewrite cachedUpdates_lookup_ne.
Qed.

Lemma write_leaves_other_entries_witness :
  let c := storage_context_1 false true in
  let c' := (contexts.SetStorage (bytes_of "ARWEN") 32 (bytes_of "fresh")
               (bytes_of "v") c).2 in
  contexts.StorageUpdatesOf (contexts.address c) c' !! bytes_of "k"
    = contexts.StorageUpdatesOf (contexts.address c) c !! bytes_of "k" /\
  contexts.OutputAccounts (contexts.host c') !! bytes_of "bob"
    = contexts.OutputAccounts (contexts.host c) !! bytes_of "bob".
Proof.
  apply (write_leaves_other_entries (bytes_of "ARWEN") 32
           (storage_context_1 false true) (bytes_of "fresh") (bytes_of "v")
           (bytes_of "k") (bytes_of "bob")); discriminate.
Defined.

(** A run of writes changes only the host part of the context. *)
Lemma SetStorage_all_frame (P : bytes) (A : Z) (writes : list (bytes * bytes))
    (c : contexts.storageContext) :
  exists h', (contexts.SetStorage_all P A writes c).2 = contexts.set_host h' c /\
             contexts.readOnly h' = contexts.readOnly (contexts.host c).
Proof.
  revert c. induction writes as [|[key value] rest IH]; intros c.
  - exists (contexts.host c). by destruct c.
  - simpl.
    destruct (SetStorage_accounts P A c key value) as (r & h1 & Heq & Hro & _).
    rewrite Heq.
    destruct (IH (contexts.set_host h1 c)) as (h2 & Heq2 & Hro2).
    destruct (contexts.SetStorage_all P A rest (contexts.set_host h1 c)) as [rs c2].
    simpl in *. subst c2. exists h2. split; [done|]. congruence.
Qed.

(** X5. The state stack brackets a nested execution: after [PushState], a
    change of address and any run of writes, [PopSetActiveState] gives back
    the address and the stack of before, and [PopDiscard] gives back the
    stack and keeps the new address. *)
Theorem pop_restores_address_after_writes (P : bytes) (A : Z)
    (c : contexts.storageContext) (a : bytes) (writes : list (bytes * bytes)) :
  let c' := (contexts.SetStorage_all P A writes
               (contexts.SetAddress a (contexts.PushState c))).2 in
  contexts.address (contexts.PopSetActiveState c') = contexts.address c /\
  contexts.stateStack (contexts.PopSetActiveState c') = contexts.stateStack c /\
  contexts.address (contexts.PopDiscard c') = a /\
  contexts.stateStack (contexts.PopDiscard c') = contexts.stateStack c.
Proof.
  intros c'. subst c'.
  destruct (SetStorage_all_frame P A writes
              (contexts.SetAddress a (contexts.PushState c))) as (h' & Heq & _).
  rewrite Heq.
  unfold contexts.PopSetActiveState, contexts.PopDiscard. simpl.
  rewrite last_snoc. simpl. by rewrite removelast_last.
Qed.

(** Once the entry of the key is in the map, reads see it there. *)
Lemma cached_state (c c' : contexts.storageContext) (key : bytes) :
  contexts.address c' = contexts.address c ->
  contexts.StorageUpdatesOf (contexts.address c) c' = cachedUpdates c key ->
  storedValue c' key = storedValue c key /\
  isCached c' key = true /\
  cachedUpdates c' key = cachedUpdates c key.
Proof.
  intros Ha Hm. destruct (cachedUpdates_lookup c key) as (u & Hu & Hdata).
  unfold storedValue at 1, isCached, cachedUpdates at 1.
  rewrite Ha, Hm, Hu. rewrite bool_decide_eq_true_2 by eauto. done.
Qed.

(** X6. An unmetered read of a key that is not served directly by the node
    caches the value: the same read again returns the same value from the
    cache and changes nothing. *)
Theorem second_read_is_cached (P : bytes) (c : contexts.storageContext) (key : bytes) :
  negb (contexts.isArwenProtectedKey P key) && contexts.isElrondReservedKey c key
  && contexts.flagUseDifferentGasCostForReadingCachedStorage c = false ->
  contexts.GetStorageUnmetered P key (contexts.GetStorageUnmetered P key c).2
    = (((contexts.GetStorageUnmetered P key c).1.1, true),
       (contexts.GetStorageUnmetered P key c).2).
Proof.
  intros Hby. rewrite (GetStorageUnmetered_eq P c key Hby). simpl.
  rewrite GetStorageUnmetered_eq by exact Hby.
  destruct (cached_state c
              (contexts.put_StorageUpdates (contexts.address c) (cachedUpdates c key) c)
              key) as (Hv & Hc & Hm).
  { done. }
  { rewrite StorageUpdatesOf_put. by rewrite decide_True. }
  rewrite Hv, Hc, Hm. by rewrite put_StorageUpdates_twice.
Qed.

Lemma second_read_is_cached_witness :
  let c := storage_context_1 false true in
  contexts.GetStorageUnmetered (bytes_of "ARWEN") (bytes_of "fresh")
    (contexts.GetStorageUnmetered (bytes_of "ARWEN") (bytes_of "fresh") c).2
    = (((contexts.GetStorageUnmetered (bytes_of "ARWEN") (bytes_of "fresh") c).1.1, true),
       (contexts.GetStorageUnmetered (bytes_of "ARWEN") (bytes_of "fresh") c).2).
Proof.
  apply (second_read_is_cached (bytes_of "ARWEN") (storage_context_1 false true)
           (bytes_of "fresh")).
  reflexivity.
Defined.

(** X7. With the flag for the gas cost of cached reads set, a metered read
    of a key that is not node-reserved is paid once: the same read again
    returns the same value from the cache and uses no gas, the whole context
    being as the first read left it. *)
Theorem repeated_read_is_free (P : bytes) (A : Z) (c : contexts.storageContext)
    (key : bytes) :
  contexts.flagUseDifferentGasCostForReadingCachedStorage c = true ->
  negb (contexts.isArwenProtectedKey P key) && contexts.isElrondReservedKey c key
    = false ->
  contexts.GetStorage P A key (contexts.GetStorage P A key c).2
    = (((contexts.GetStorage P A key c).1.1, true), (contexts.GetStorage P A key c).2).
Proof.
  intros Hflag Hres.
  assert (Hby : negb (contexts.isArwenProtectedKey P key)
                && contexts.isElrondReservedKey c key
                && contexts.flagUseDifferentGasCostForReadingCachedStorage c = false)
    by (by rewrite Hres).
  unfold contexts.GetStorage at 2 3 4.
  rewrite (GetStorageUnmetered_eq P c key Hby). cbv beta iota zeta.
  set (c1 := contexts.put_StorageUpdates (contexts.address c) (cachedUpdates c key) c).
  set (c3 := contexts.useGasForValueIfNeeded _ _ _). cbn [fst snd].
  assert (Hc3 : exists h, c3 = contexts.set_host h c /\
            contexts.OutputAccounts h
              = <[contexts.address c := cachedUpdates c key]>
                  (contexts.OutputAccounts (contexts.host c))).
  { subst c3. unfold contexts.useGasForValueIfNeeded, contexts.useExtraGasForKeyIfNeeded.
    repeat case_match; eexists; (split; [reflexivity|]); done. }
  destruct Hc3 as (h & Hc3 & Hoa). clearbody c3. subst c3.
  unfold contexts.GetStorage.
  rewrite GetStorageUnmetered_eq by exact Hby.
  destruct (cached_state c (contexts.set_host h c) key) as (Hv & Hc & Hm).
  { done. }
  { unfold contexts.StorageUpdatesOf. simpl. by rewrite Hoa, lookup_insert_eq. }
  rewrite Hv, Hc, Hm. cbv beta iota zeta.
  unfold contexts.useGasForValueIfNeeded, contexts.useExtraGasForKeyIfNeeded.
  simpl. rewrite Hflag. simpl.
  assert (Hput : contexts.put_StorageUpdates (contexts.address c) (cachedUpdates c key)
                   (contexts.set_host h c) = contexts.set_host h c).
  { unfold contexts.put_StorageUpdates. simpl. rewrite Hoa, insert_insert_eq.
    rewrite <- Hoa. by destruct h. }
  rewrite Hput. destruct (len key - A <=? 0); simpl; by rewrite Hflag.
Qed.

Lemma repeated_read_is_free_witness :
  let c := storage_context_1 false true in
  contexts.GetStorage (bytes_of "ARWEN") 2 (bytes_of "fresh")
    (contexts.GetStorage (bytes_of "ARWEN") 2 (bytes_of "fresh") c).2
    = (((contexts.GetStorage (bytes_of "ARWEN") 2 (bytes_of "fresh") c).1.1, true),
       (contexts.GetStorage (bytes_of "ARWEN") 2 (bytes_of "fresh") c).2).
Proof.
  apply (repeated_read_is_free (bytes_of "ARWEN") 2 (storage_context_1 false true)
           (bytes_of "fresh")); reflexivity.
Defined.

(** X8. A key with the prefix of the VM is written through
    [SetProtectedStorage] only. Outside read-only mode, while the protection
    is enabled, [SetStorage] refuses it with cannot-write-protected-key and
    changes nothing. Outside read-only mode and with the gas left covering
    the charge for the key, [SetProtectedStorage] writes it: the value is
    read back from the cache. In read-only mode both functions return status
    unchanged with no error and write nothing. In every case the protection
    is enabled after [SetProtectedStorage]. *)
Theorem protected_key_needs_SetProtectedStorage (P : bytes) (A : Z)
    (c : contexts.storageContext) (key value : bytes) :
  contexts.isArwenProtectedKey P key = true ->
  (contexts.readOnly (contexts.host c) = false ->
   contexts.arwenStorageProtectionEnabled c = true ->
   contexts.SetStorage P A key value c
     = ((contexts.StorageUnchanged, Some ErrCannotWriteProtectedKey), c)) /\
  (contexts.readOnly (contexts.host c) = false ->
   contexts.computeGasForKey A key (isCached c key) c
     <= contexts.GasLeft (contexts.host c) ->
   (contexts.GetStorageUnmetered P key
      (contexts.SetProtectedStorage P A key value c).2).1 = (value, true)) /\
  (contexts.readOnly (contexts.host c) = true ->
   contexts.SetStorage P A key value c = ((contexts.StorageUnchanged, None), c) /\
   contexts.SetProtectedStorage P A key value c
     = ((contexts.StorageUnchanged, None), contexts.set_protection true c)) /\
  contexts.arwenStorageProtectionEnabled
    (contexts.SetProtectedStorage P A key value c).2 = true.
Proof.
  intros Hprot. split; [|split; [|split]].
  - intros Hro Hen. unfold contexts.SetStorage, contexts.setStorageToAddress.
    by rewrite Hro, Hprot, Hen.
  - intros Hro Hgas. unfold contexts.SetProtectedStorage.
    set (c0 := contexts.set_protection false c).
    assert (Hallowed : writeAllowed P c0 key = true).
    { unfold writeAllowed. simpl. by rewrite Hro, Hprot. }
    pose proof (SetStorage_updates P A c0 key value Hallowed Hgas) as Hupd.
    destruct (SetStorage_accounts P A c0 key value) as (r & h' & Heq & _).
    rewrite Heq in *. simpl in Hupd. cbv beta iota. cbn [snd].
    rewrite GetStorageUnmetered_eq by (simpl; by rewrite Hprot).
    unfold storedValue at 1, isCached.
    change (contexts.StorageUpdatesOf _ (contexts.set_protection true _))
      with (contexts.StorageUpdatesOf (contexts.address c) (contexts.set_host h' c0)).
    rewrite Hupd.
    destruct (cachedUpdates_lookup c0 key) as (u & Hu & Hdata).
    destruct (decide (storedValue c0 key = value)) as [Hv|Hv].
    + rewrite Hu. rewrite bool_decide_eq_true_2 by eauto. by rewrite Hdata, Hv.
    + rewrite lookup_insert_eq. by rewrite bool_decide_eq_true_2 by eauto.
  - intros Hro. unfold contexts.SetProtectedStorage, contexts.SetStorage,
      contexts.setStorageToAddress. simpl. by rewrite Hro.
  - unfold contexts.SetProtectedStorage.
    by destruct (contexts.SetStorage P A key value (contexts.set_protection false c)).
Qed.

Lemma protected_key_needs_SetProtectedStorage_witness :
  let c := storage_context_1 false true in
  contexts.SetStorage (bytes_of "ARWEN") 32 (bytes_of "ARWENlock") (bytes_of "v") c
    = ((contexts.StorageUnchanged, Some ErrCannotWriteProtectedKey), c) /\
  (contexts.GetStorageUnmetered (bytes_of "ARWEN") (bytes_of "ARWENlock")
     (contexts.SetProtectedStorage (bytes_of "ARWEN") 32 (bytes_of "ARWENlock")
        (bytes_of "v") c).2).1 = (bytes_of "v", true) /\
  contexts.arwenStorageProtectionEnabled
    (contexts.SetProtectedStorage (bytes_of "ARWEN") 32 (bytes_of "ARWENlock")
       (bytes_of "v") c).2 = true.
Proof.
  intros c.
  destruct (protected_key_needs_SetProtectedStorage (bytes_of "ARWEN") 32
              (storage_context_1 false true) (bytes_of "ARWENlock") (bytes_of "v"))
    as (H1 & H2 & _ & H4); [reflexivity|].
  split; [|split].
  - apply H1; reflexivity.
  - apply H2; [reflexivity | vm_compute; discriminate].
  - exact H4.
Defined.

(** X9. No write changes what is stored under a key reserved by the node
    (one with the reserved prefix and without the prefix of the VM): after
    any run of writes to any keys, and after a [SetProtectedStorage] to the
    key itself, the entry of the reserved key is what it was. *)
Theorem reserved_key_is_never_written (P : bytes) (A : Z)
    (c : contexts.storageContext) (writes : list (bytes * bytes)) (k value : bytes) :
  contexts.isArwenProtectedKey P k = false ->
  contexts.isElrondReservedKey c k = true ->
  contexts.StorageUpdatesOf (contexts.address c)
      (contexts.SetStorage_all P A writes c).2 !! k
    = contexts.StorageUpdatesOf (contexts.address c) c !! k /\
  contexts.StorageUpdatesOf (contexts.address c)
      (contexts.SetProtectedStorage P A k value c).2 !! k
    = contexts.StorageUpdatesOf (contexts.address c) c !! k.
Proof.
  intros Hprot Hres. split.
  - revert c Hres. induction writes as [|[key v] rest IH]; intros c Hres; [done|].
    simpl.
    destruct (SetStorage_accounts P A c key v)
      as (r & h1 & Heq & _ & _ & _ & Hoa).
    assert (Hk : contexts.StorageUpdatesOf (contexts.address c) (contexts.set_host h1 c) !! k
                 = contexts.StorageUpdatesOf (contexts.address c) c !! k).
    { destruct (decide (key = k)) as [->|Hne].
      - assert (Hno : writeAllowed P c k = false).
        { unfold writeAllowed. rewrite Hprot, Hres. simpl. by rewrite andb_false_r. }
        pose proof (writeAllowed_false P A c k v Hno) as Hc.
        rewrite Heq in Hc. simpl in Hc. by rewrite Hc.
      - unfold contexts.StorageUpdatesOf at 1. simpl.
        destruct Hoa as [Hoa|[Hoa|Hoa]]; rewrite Hoa; clear Hoa.
        + done.
        + rewrite lookup_insert_eq. simpl. by rewrite cachedUpdates_lookup_ne.
        + rewrite lookup_insert_eq. simpl. rewrite lookup_insert_ne by done.
          by rewrite cachedUpdates_lookup_ne. }
    rewrite Heq.
    specialize (IH (contexts.set_host h1 c) Hres).
    destruct (contexts.SetStorage_all P A rest (contexts.set_host h1 c)) as [rs c2].
    simpl in *. by rewrite IH.
  - unfold contexts.SetProtectedStorage.
    assert (Hno : writeAllowed P (contexts.set_protection false c) k = false).
    { unfold writeAllowed. simpl. rewrite Hprot.
      change (contexts.isElrondReservedKey (contexts.set_protection false c) k)
        with (contexts.isElrondReservedKey c k).
      rewrite Hres. simpl. by rewrite andb_false_r. }
    pose proof (writeAllowed_false P A _ k value Hno) as Hc.
    destruct (contexts.SetStorage P A k value (contexts.set_protection false c))
      as [r c1]. simpl in Hc. subst c1. done.
Qed.

Lemma reserved_key_is_never_written_witness :
  let c := storage_context_1 false true in
  let writes := [(bytes_of "k", bytes_of "v"); (bytes_of "ELRONDx", bytes_of "mine");
                 (bytes_of "ELRONDy", [])] in
  contexts.StorageUpdatesOf (contexts.address c)
      (contexts.SetStorage_all (bytes_of "ARWEN") 32 writes c).2 !! bytes_of "ELRONDx"
    = contexts.StorageUpdatesOf (contexts.address c) c !! bytes_of "ELRONDx" /\
  contexts.StorageUpdatesOf (contexts.address c)
      (contexts.SetProtectedStorage (bytes_of "ARWEN") 32 (bytes_of "ELRONDx")
         (bytes_of "mine") c).2 !! bytes_of "ELRONDx"
    = contexts.StorageUpdatesOf (contexts.address c) c !! bytes_of "ELRONDx".
Proof.
  apply (reserved_key_is_never_written (bytes_of "ARWEN") 32
           (storage_context_1 false true)
           [(bytes_of "k", bytes_of "v"); (bytes_of "ELRONDx", bytes_of "mine");
            (bytes_of "ELRONDy", [])] (bytes_of "ELRONDx") (bytes_of "mine"));
    reflexivity.
Defined.

(** ** Runtime context: memory, the state stack and the instance stack *)

Lemma slice_in_bounds (s : bytes) (lo hi : Z) :
  0 <= lo <= hi -> hi <= len s ->
  runtime.slice s lo hi = Some (take (Z.to_nat (hi - lo)) (drop (Z.to_nat lo) s)).
Proof.
  intros [H0 H1] H2. unfold runtime.slice.
  by rewrite (proj2 (Z.leb_le 0 lo)), (proj2 (Z.leb_le lo hi)),
    (proj2 (Z.leb_le hi (len s))) by lia.
Qed.

(** A load that lies within the memory returns the bytes of the range. *)
Lemma MemLoad_in_bounds (c : runtime.runtimeContext) (inst : runtime.WasmerInstance)
    (offset length : Z) :
  runtime.currentInstance c = Some inst ->
  len (runtime.memoryData inst) <= math.MaxInt32 ->
  0 <= offset -> 0 <= length ->
  offset + length <= len (runtime.memoryData inst) ->
  runtime.MemLoad c offset length
    = Returns (take (Z.to_nat length) (drop (Z.to_nat offset) (runtime.memoryData inst))).
Proof.
  intros Hinst Hmem Hoff Hlen Hend. unfold math.MaxInt32 in *.
  unfold runtime.MemLoad.
  destruct (length =? 0) eqn:E0.
  { apply Z.eqb_eq in E0. subst length. by rewrite take_0. }
  apply Z.eqb_neq in E0. rewrite Hinst. cbv zeta.
  assert (Hadd : math.AddInt32 offset length = offset + length).
  { unfold math.AddInt32, math.MaxInt32, math.MinInt32.
    rewrite (proj2 (Z.ltb_ge _ _)) by lia. by rewrite (proj2 (Z.ltb_ge _ _)) by lia. }
  rewrite Hadd. unfold math.to_uint32.
  rewrite !Z.mod_small by lia.
  rewrite (proj2 (Z.ltb_ge offset 0)) by lia.
  rewrite (proj2 (Z.ltb_ge (len _) offset)) by lia.
  rewrite (proj2 (Z.ltb_ge length 0)) by lia.
  rewrite (proj2 (Z.ltb_ge (len _) (offset + length))) by lia.
  simpl. rewrite slice_in_bounds by lia.
  replace (offset + length - offset) with length by lia.
  f_equal. unfold runtime.make. rewrite copy_make.
  2:{ rewrite length_take. lia. }
  rewrite length_take, length_drop. unfold len in *.
  replace (Z.to_nat length - _)%nat with 0%nat by lia.
  simpl. by rewrite app_nil_r.
Qed.

Lemma to_int32_small (x : Z) :
  - 2 ^ 31 <= x < 2 ^ 31 -> runtime.to_int32 x = x.
Proof. intros Hx. unfold runtime.to_int32. rewrite Z.mod_small; lia. Qed.

Lemma MemLoadMultiple_loop_consecutive (c : runtime.runtimeContext)
    (inst : runtime.WasmerInstance) (lengths : list Z) (offset : Z) :
  runtime.currentInstance c = Some inst ->
  len (runtime.memoryData inst) <= math.MaxInt32 ->
  0 <= offset ->
  Forall (fun length => 0 <= length) lengths ->
  offset + foldr Z.add 0 lengths <= len (runtime.memoryData inst) ->
  exists results,
    runtime.MemLoadMultiple_loop c offset lengths = Returns results /\
    len <$> results = lengths /\
    concat results
      = take (Z.to_nat (foldr Z.add 0 lengths))
          (drop (Z.to_nat offset) (runtime.memoryData inst)).
Proof.
  intros Hinst Hmem. revert offset.
  induction lengths as [|length rest IH]; intros offset Hoff Hpos Hend.
  - exists []. by rewrite take_0.
  - apply Forall_cons in Hpos as [Hlen Hpos]. simpl in Hend.
    assert (Hrest : 0 <= foldr Z.add 0 rest).
    { clear -Hpos. induction Hpos; simpl; lia. }
    simpl. rewrite (MemLoad_in_bounds c inst) by (done || lia).
    unfold math.MaxInt32 in Hmem.
    rewrite to_int32_small by lia.
    destruct (IH (offset + length)) as (results & Heq & Hlens & Hcat);
      [lia | done | lia |].
    rewrite Heq. eexists. split; [reflexivity|]. split.
    + rewrite fmap_cons, Hlens. f_equal. unfold len. rewrite length_take, length_drop.
      unfold len in *. lia.
    + simpl. rewrite Hcat.
      rewrite Z2Nat.inj_add by lia.
      rewrite <- drop_drop.
      rewrite Z2Nat.inj_add by lia.
      by rewrite take_take_drop.
Qed.

(** X10. [MemLoadMultiple] with lengths that are not negative and a range
    that lies within the memory returns one byte string per length, of that
    length, and these are consecutive: together they are the bytes of the
    memory from the offset on. *)
Theorem MemLoadMultiple_consecutive (c : runtime.runtimeContext)
    (inst : runtime.WasmerInstance) (offset : Z) (lengths : list Z) :
  runtime.currentInstance c = Some inst ->
  len (runtime.memoryData inst) <= math.MaxInt32 ->
  0 <= offset ->
  Forall (fun length => 0 <= length) lengths ->
  offset + foldr Z.add 0 lengths <= len (runtime.memoryData inst) ->
  exists results,
    runtime.MemLoadMultiple c offset lengths = Returns results /\
    len <$> results = lengths /\
    concat results
      = take (Z.to_nat (foldr Z.add 0 lengths))
          (drop (Z.to_nat offset) (runtime.memoryData inst)).
Proof.
  intros Hinst Hmem Hoff Hpos Hend.
  destruct (MemLoadMultiple_loop_consecutive c inst lengths offset)
    as (results & Heq & Hrest); try done.
  exists results. split; [|done].
  unfold runtime.MemLoadMultiple. rewrite <- Heq.
  by destruct lengths.
Qed.

Lemma MemLoadMultiple_consecutive_witness :
  exists results,
    runtime.MemLoadMultiple (runtime_context_1 (bytes_of "abcdefgh")) 1 [2; 0; 3]
      = Returns results /\
    len <$> results = [2; 0; 3] /\
    concat results
      = take (Z.to_nat (foldr Z.add 0 [2; 0; 3]))
          (drop (Z.to_nat 1) (bytes_of "abcdefgh")).
Proof.
  apply (MemLoadMultiple_consecutive (runtime_context_1 (bytes_of "abcdefgh"))
           {| runtime.memoryData := bytes_of "abcdefgh"; runtime.cleaned := false |}
           1 [2; 0; 3]).
  - reflexivity.
  - vm_compute. discriminate.
  - lia.
  - repeat constructor; lia.
  - vm_compute. discriminate.
Defined.

(** Writing [data] over the bytes from [off] on leaves the bytes outside the
    written range. *)
Lemma splice_outside (m data : bytes) (off o l : nat) :
  (off + length data <= length m)%nat ->
  (o + l <= off \/ off + length data <= o)%nat ->
  take l (drop o (take off m ++ data ++ drop (off + length data) m))
    = take l (drop o m).
Proof.
  intros Hin Hout. apply list_eq. intros i.
  rewrite !lookup_take. destruct (decide (i < l)%nat); [|done].
  rewrite !lookup_drop.
  destruct Hout as [Hbefore|Hafter].
  - rewrite lookup_app_l by (rewrite length_take; lia).
    by rewrite lookup_take_lt by lia.
  - rewrite lookup_app_r by (rewrite length_take; lia).
    rewrite length_take.
    rewrite lookup_app_r by lia.
    rewrite lookup_drop. f_equal. lia.
Qed.

Lemma splice_inside (m data : bytes) (off : nat) :
  (off + length data <= length m)%nat ->
  take (length data) (drop off (take off m ++ data ++ drop (off + length data) m))
    = data.
Proof.
  intros Hin.
  rewrite drop_app_ge by (rewrite length_take; lia).
  rewrite length_take.
  replace (off - off `min` length m)%nat with 0%nat by lia.
  rewrite drop_0. by rewrite take_app_length.
Qed.

Lemma currentInstance_set_memory (c : runtime.runtimeContext) (p : nat)
    (inst : runtime.WasmerInstance) (m : bytes) :
  runtime.instance c = Some p ->
  runtime.instances c !! p = Some inst ->
  runtime.currentInstance (runtime.set_memory p m c)
    = Some {| runtime.memoryData := m; runtime.cleaned := runtime.cleaned inst |}.
Proof.
  intros Hp Hinst. unfold runtime.currentInstance, runtime.set_memory. simpl.
  rewrite Hp, lookup_alter_eq, Hinst. done.
Qed.

(** A store that lies within the memory: no page is added, and the memory
    is the old one with the data written over the range. *)
Lemma MemStore_in_bounds (Grow : bytes -> VMError + bytes)
    (c : runtime.runtimeContext) (p : nat) (inst : runtime.WasmerInstance)
    (offset : Z) (data : bytes) :
  runtime.instance c = Some p ->
  runtime.instances c !! p = Some inst ->
  len (runtime.memoryData inst) <= math.MaxInt32 ->
  0 <= offset -> data <> [] ->
  offset + len data <= len (runtime.memoryData inst) ->
  runtime.MemStore Grow c offset data
    = (Returns tt,
       runtime.set_memory p
         (take (Z.to_nat offset) (runtime.memoryData inst) ++ data
            ++ drop (Z.to_nat offset + length data) (runtime.memoryData inst)) c).
Proof.
  intros Hp Hinst Hmem Hoff Hdata Hend. unfold math.MaxInt32 in *.
  assert (Hlen : 0 < len data).
  { destruct data; [done|]. unfold len. simpl. lia. }
  unfold runtime.MemStore. cbv zeta.
  rewrite to_int32_small by lia.
  rewrite (proj2 (Z.eqb_neq _ _)) by lia.
  unfold runtime.currentInstance. rewrite Hp, Hinst.
  assert (Hadd : math.AddInt32 offset (len data) = offset + len data).
  { unfold math.AddInt32, math.MaxInt32, math.MinInt32.
    rewrite (proj2 (Z.ltb_ge _ _)) by lia. by rewrite (proj2 (Z.ltb_ge _ _)) by lia. }
  rewrite Hadd. unfold math.to_uint32. rewrite Z.mod_small by lia.
  rewrite (proj2 (Z.ltb_ge offset 0)) by lia.
  rewrite (proj2 (Z.ltb_ge (len _) (offset + len data))) by lia.
  cbv beta iota zeta.
  rewrite (proj2 (Z.ltb_ge (len _) (offset + len data))) by lia.
  rewrite slice_in_bounds by lia.
  f_equal. f_equal. f_equal. f_equal.
  - unfold runtime.copy.
    rewrite length_take, length_drop.
    replace (offset + len data - offset) with (len data) by lia.
    unfold len in *. rewrite take_ge by lia.
    rewrite drop_ge; [by rewrite app_nil_r|].
    rewrite length_take, length_drop. lia.
  - f_equal. unfold len. lia.
Qed.

(** X11. A store of a non-empty byte string that lies within the memory
    succeeds without growing the memory, whatever [memory.Grow] would do; the
    length of the memory is unchanged, a load of the same range returns the
    stored bytes, and a load of any range within the memory that does not
    meet the stored range returns what it returned before. *)
Theorem MemStore_then_MemLoad (Grow : bytes -> VMError + bytes)
    (c : runtime.runtimeContext) (p : nat) (inst : runtime.WasmerInstance)
    (offset : Z) (data : bytes) :
  runtime.instance c = Some p ->
  runtime.instances c !! p = Some inst ->
  len (runtime.memoryData inst) <= math.MaxInt32 ->
  0 <= offset -> data <> [] ->
  offset + len data <= len (runtime.memoryData inst) ->
  exists c' inst',
    runtime.MemStore Grow c offset data = (Returns tt, c') /\
    runtime.currentInstance c' = Some inst' /\
    len (runtime.memoryData inst') = len (runtime.memoryData inst) /\
    runtime.MemLoad c' offset (len data) = Returns data /\
    forall o l, 0 <= o -> 0 <= l -> o + l <= len (runtime.memoryData inst) ->
      o + l <= offset \/ offset + len data <= o ->
      runtime.MemLoad c' o l = runtime.MemLoad c o l.
Proof.
  intros Hp Hinst Hmem Hoff Hdata Hend.
  rewrite (MemStore_in_bounds Grow c p inst) by done.
  set (m' := take (Z.to_nat offset) (runtime.memoryData inst) ++ data
               ++ drop (Z.to_nat offset + length data) (runtime.memoryData inst)).
  assert (Hlen' : len m' = len (runtime.memoryData inst)).
  { subst m'. unfold len in *. rewrite !length_app, length_take, length_drop. lia. }
  pose proof (currentInstance_set_memory c p inst m' Hp Hinst) as Hcur.
  assert (Hc : runtime.currentInstance c = Some inst).
  { unfold runtime.currentInstance. by rewrite Hp. }
  eexists _, _. split; [reflexivity|]. split; [exact Hcur|]. split; [exact Hlen'|].
  split.
  - rewrite (MemLoad_in_bounds _ _ _ _ Hcur); simpl; try lia.
    + f_equal. unfold len. rewrite Nat2Z.id. subst m'.
      apply splice_inside. unfold len in *. lia.
    + unfold len in *. lia.
  - intros o l Ho Hl Hin Hout.
    rewrite (MemLoad_in_bounds _ _ _ _ Hcur); simpl; try lia.
    rewrite (MemLoad_in_bounds _ _ _ _ Hc); try lia.
    f_equal. subst m'. apply splice_outside; unfold len in *; lia.
Qed.

Lemma MemStore_then_MemLoad_witness :
  exists c' inst',
    runtime.MemStore (fun _ => inl ErrBadBounds) (runtime_context_1 (bytes_of "abcdefgh")) 2
        (bytes_of "XY") = (Returns tt, c') /\
    runtime.currentInstance c' = Some inst' /\
    len (runtime.memoryData inst') = len (bytes_of "abcdefgh") /\
    runtime.MemLoad c' 2 (len (bytes_of "XY")) = Returns (bytes_of "XY") /\
    forall o l, 0 <= o -> 0 <= l -> o + l <= len (bytes_of "abcdefgh") ->
      o + l <= 2 \/ 2 + len (bytes_of "XY") <= o ->
      runtime.MemLoad c' o l
        = runtime.MemLoad (runtime_context_1 (bytes_of "abcdefgh")) o l.
Proof.
  apply (MemStore_then_MemLoad (fun _ => inl ErrBadBounds)
           (runtime_context_1 (bytes_of "abcdefgh")) 1%nat
           {| runtime.memoryData := bytes_of "abcdefgh"; runtime.cleaned := false |}
           2 (bytes_of "XY")).
  - reflexivity.
  - reflexivity.
  - vm_compute. discriminate.
  - lia.
  - discriminate.
  - vm_compute. discriminate.
Defined.

Lemma AddInt32_exact (a b : Z) :
  math.MinInt32 <= a + b <= math.MaxInt32 -> math.AddInt32 a b = a + b.
Proof.
  intros H. unfold math.AddInt32.
  rewrite (proj2 (Z.ltb_ge _ _)) by lia. by rewrite (proj2 (Z.ltb_ge _ _)) by lia.
Qed.

(** X12. What [MemStore] refuses before it looks at the size of the memory:
    a store of no bytes returns at once without an error, whatever the
    offset, also a negative one, and whatever the instance; a store of some
    bytes at a negative offset fails with bad-lower-bounds. In both cases
    the memory is not grown and nothing changes. *)
Theorem MemStore_rejects_before_growing (Grow : bytes -> VMError + bytes)
    (c : runtime.runtimeContext) (inst : runtime.WasmerInstance)
    (offset : Z) (data : bytes) :
  runtime.MemStore Grow c offset [] = (Returns tt, c) /\
  (runtime.currentInstance c = Some inst ->
   offset < 0 -> 0 < len data <= math.MaxInt32 ->
   runtime.MemStore Grow c offset data = (Fails ErrBadLowerBounds, c)).
Proof.
  split; [reflexivity|].
  intros Hinst Hoff Hlen. unfold math.MaxInt32 in *.
  unfold runtime.MemStore. cbv zeta.
  rewrite to_int32_small by lia.
  rewrite (proj2 (Z.eqb_neq _ _)) by lia.
  rewrite Hinst. unfold runtime.currentInstance in Hinst.
  destruct (runtime.instance c); [|done].
  by rewrite (proj2 (Z.ltb_lt offset 0)) by lia.
Qed.

Lemma MemStore_rejects_before_growing_witness :
  runtime.MemStore (fun m => inr (m ++ m)) (runtime_context_1 (bytes_of "abcd")) (-1) []
    = (Returns tt, runtime_context_1 (bytes_of "abcd")) /\
  runtime.MemStore (fun m => inr (m ++ m)) (runtime_context_1 (bytes_of "abcd")) (-1)
      (bytes_of "XY")
    = (Fails ErrBadLowerBounds, runtime_context_1 (bytes_of "abcd")).
Proof.
  split.
  - apply (MemStore_rejects_before_growing (fun m => inr (m ++ m))
             (runtime_context_1 (bytes_of "abcd"))
             {| runtime.memoryData := bytes_of "abcd"; runtime.cleaned := false |}
             (-1) (bytes_of "XY")).
  - apply (MemStore_rejects_before_growing (fun m => inr (m ++ m))
             (runtime_context_1 (bytes_of "abcd"))
             {| runtime.memoryData := bytes_of "abcd"; runtime.cleaned := false |}
             (-1) (bytes_of "XY")).
    + reflexivity.
    + lia.
    + vm_compute. split; [reflexivity | discriminate].
Defined.

(** X13. A store that ends beyond the memory asks for one more page. If
    growing fails, its error is returned and nothing changes. If the page is
    not enough, the store fails with bad-upper-bounds and writes no byte, but
    the memory stays grown. *)
Theorem MemStore_failed_growth (Grow : bytes -> VMError + bytes)
    (c : runtime.runtimeContext) (p : nat) (inst : runtime.WasmerInstance)
    (offset : Z) (data : bytes) :
  runtime.instance c = Some p ->
  runtime.instances c !! p = Some inst ->
  0 <= offset -> 0 < len data ->
  offset + len data <= math.MaxInt32 ->
  len (runtime.memoryData inst) < offset + len data ->
  (forall err, Grow (runtime.memoryData inst) = inl err ->
     runtime.MemStore Grow c offset data = (Fails err, c)) /\
  (forall m, Grow (runtime.memoryData inst) = inr m ->
     len m < offset + len data ->
     runtime.MemStore Grow c offset data
       = (Fails ErrBadUpperBounds, runtime.set_memory p m c)).
Proof.
  intros Hp Hinst Hoff Hlen Hmax Hend. unfold math.MaxInt32 in *.
  split.
  - intros err Hgrow. unfold runtime.MemStore. cbv zeta.
    rewrite to_int32_small by lia.
    rewrite (proj2 (Z.eqb_neq _ _)) by lia.
    unfold runtime.currentInstance. rewrite Hp, Hinst.
    rewrite AddInt32_exact by (unfold math.MinInt32, math.MaxInt32; lia).
    unfold math.to_uint32. rewrite Z.mod_small by lia.
    rewrite (proj2 (Z.ltb_ge offset 0)) by lia.
    rewrite (proj2 (Z.ltb_lt (len _) (offset + len data))) by lia.
    by rewrite Hgrow.
  - intros m Hgrow Hm. unfold runtime.MemStore. cbv zeta.
    rewrite to_int32_small by lia.
    rewrite (proj2 (Z.eqb_neq _ _)) by lia.
    unfold runtime.currentInstance. rewrite Hp, Hinst.
    rewrite AddInt32_exact by (unfold math.MinInt32, math.MaxInt32; lia).
    unfold math.to_uint32. rewrite Z.mod_small by lia.
    rewrite (proj2 (Z.ltb_ge offset 0)) by lia.
    rewrite (proj2 (Z.ltb_lt (len _) (offset + len data))) by lia.
    rewrite Hgrow. cbv beta iota.
    by rewrite (proj2 (Z.ltb_lt (len m) (offset + len data))) by lia.
Qed.

Lemma MemStore_failed_growth_witness :
  let c := runtime_context_1 (bytes_of "abcd") in
  let Grow (m : bytes) : VMError + bytes := inr (m ++ bytes_of "__") in
  (forall err, Grow (bytes_of "abcd") = inl err ->
     runtime.MemStore Grow c 3 (bytes_of "VWXYZ") = (Fails err, c)) /\
  (forall m, Grow (bytes_of "abcd") = inr m ->
     len m < 3 + len (bytes_of "VWXYZ") ->
     runtime.MemStore Grow c 3 (bytes_of "VWXYZ")
       = (Fails ErrBadUpperBounds, runtime.set_memory 1%nat m c)).
Proof.
  apply (MemStore_failed_growth (fun m => inr (m ++ bytes_of "__"))
           (runtime_context_1 (bytes_of "abcd")) 1%nat
           {| runtime.memoryData := bytes_of "abcd"; runtime.cleaned := false |}
           3 (bytes_of "VWXYZ")).
  - reflexivity.
  - reflexivity.
  - lia.
  - reflexivity.
  - vm_compute. discriminate.
  - reflexivity.
Defined.

(** X14. A store that ends beyond the memory and fits after one more page
    succeeds on the grown memory: a load of the stored range returns the
    stored bytes. *)
Theorem MemStore_after_growth (Grow : bytes -> VMError + bytes)
    (c : runtime.runtimeContext) (p : nat) (inst : runtime.WasmerInstance)
    (offset : Z) (data m : bytes) :
  runtime.instance c = Some p ->
  runtime.instances c !! p = Some inst ->
  0 <= offset -> 0 < len data ->
  len (runtime.memoryData inst) < offset + len data ->
  Grow (runtime.memoryData inst) = inr m ->
  offset + len data <= len m -> len m <= math.MaxInt32 ->
  exists c' inst',
    runtime.MemStore Grow c offset data = (Returns tt, c') /\
    runtime.currentInstance c' = Some inst' /\
    len (runtime.memoryData inst') = len m /\
    runtime.MemLoad c' offset (len data) = Returns data.
Proof.
  intros Hp Hinst Hoff Hlen Hend Hgrow Hfit Hmax. unfold math.MaxInt32 in *.
  set (m' := take (Z.to_nat offset) m ++ data ++ drop (Z.to_nat offset + length data) m).
  assert (Hlen' : len m' = len m).
  { subst m'. unfold len in *. rewrite !length_app, length_take, length_drop. lia. }
  assert (Hstore : runtime.MemStore Grow c offset data
                   = (Returns tt, runtime.set_memory p m' (runtime.set_memory p m c))).
  { unfold runtime.MemStore. cbv zeta.
    rewrite to_int32_small by lia.
    rewrite (proj2 (Z.eqb_neq _ _)) by lia.
    unfold runtime.currentInstance. rewrite Hp, Hinst.
    rewrite AddInt32_exact by (unfold math.MinInt32, math.MaxInt32; lia).
    unfold math.to_uint32. rewrite Z.mod_small by lia.
    rewrite (proj2 (Z.ltb_ge offset 0)) by lia.
    rewrite (proj2 (Z.ltb_lt (len _) (offset + len data))) by lia.
    rewrite Hgrow. cbv beta iota.
    rewrite (proj2 (Z.ltb_ge (len m) (offset + len data))) by lia.
    rewrite slice_in_bounds by lia.
    f_equal. f_equal. subst m'. f_equal. f_equal.
    - unfold runtime.copy. rewrite length_take, length_drop.
      replace (offset + len data - offset) with (len data) by lia.
      unfold len in *. rewrite take_ge by lia.
      rewrite drop_ge; [by rewrite app_nil_r|].
      rewrite length_take, length_drop. lia.
    - f_equal. unfold len. lia. }
  rewrite Hstore.
  assert (Hcur : runtime.currentInstance
                   (runtime.set_memory p m' (runtime.set_memory p m c))
                 = Some {| runtime.memoryData := m';
                           runtime.cleaned := runtime.cleaned inst |}).
  { unfold runtime.currentInstance, runtime.set_memory. simpl.
    rewrite Hp, !lookup_alter_eq, Hinst. done. }
  eexists _, _. split; [reflexivity|]. split; [exact Hcur|]. split; [exact Hlen'|].
  rewrite (MemLoad_in_bounds _ _ _ _ Hcur); simpl; try lia.
  - f_equal. unfold len. rewrite Nat2Z.id. subst m'.
    apply splice_inside. unfold len in *. lia.
  - unfold math.MaxInt32. lia.
Qed.

Lemma MemStore_after_growth_witness :
  let Grow (m : bytes) : VMError + bytes := inr (m ++ bytes_of "____") in
  exists c' inst',
    runtime.MemStore Grow (runtime_context_1 (bytes_of "abcd")) 3 (bytes_of "XYZ")
      = (Returns tt, c') /\
    runtime.currentInstance c' = Some inst' /\
    len (runtime.memoryData inst') = len (bytes_of "abcd____") /\
    runtime.MemLoad c' 3 (len (bytes_of "XYZ")) = Returns (bytes_of "XYZ").
Proof.
  apply (MemStore_after_growth (fun m => inr (m ++ bytes_of "____"))
           (runtime_context_1 (bytes_of "abcd")) 1%nat
           {| runtime.memoryData := bytes_of "abcd"; runtime.cleaned := false |}
           3 (bytes_of "XYZ") (bytes_of "abcd____")).
  - reflexivity.
  - reflexivity.
  - lia.
  - reflexivity.
  - reflexivity.
  - reflexivity.
  - vm_compute. discriminate.
  - vm_compute. discriminate.
Defined.

Lemma cloneVMInput_twice (i : runtime.VMInput) :
  runtime.cloneVMInput (runtime.cloneVMInput i) = runtime.cloneVMInput i.
Proof.
  unfold runtime.cloneVMInput. simpl. f_equal.
  rewrite <- list_fmap_compose. apply list_fmap_ext. intros _ t _. simpl.
  by destruct t.
Qed.

Lemma popInstance_same (c : runtime.runtimeContext) (s : list (option nat)) :
  runtime.instanceStack c = s ++ [runtime.instance c] ->
  runtime.popInstance c = runtime.set_instanceStack s c.
Proof.
  intros Hs. unfold runtime.popInstance. rewrite Hs, last_snoc, removelast_last.
  cbv zeta. by rewrite decide_True.
Qed.

(** X15. [PushState] and [PopSetActiveState] bracket a nested execution
    that runs on the same instance: whatever input, contract address,
    function and read-only flag were set in between, the pop gives back the
    context of before the push, with the input as its clone; no instance is
    cleaned. *)
Theorem push_pop_restores_frame (c : runtime.runtimeContext)
    (i : option runtime.VMInput) (a : bytes) (f : string) (r : bool) :
  runtime.PopSetActiveState
    (runtime.set_frame a f r (runtime.SetVMInput i (runtime.PushState c)))
  = runtime.SetVMInput (runtime.vmInput c) c.
Proof.
  unfold runtime.PopSetActiveState.
  replace (runtime.stateStack _) with
    (runtime.stateStack c ++
       [{| runtime.saved_vmInput := runtime.cloneVMInput <$> runtime.vmInput c;
           runtime.saved_scAddress := runtime.scAddress c;
           runtime.saved_callFunction := runtime.callFunction c;
           runtime.saved_readOnly := runtime.readOnly c |}]) by reflexivity.
  rewrite last_snoc, removelast_last. cbv zeta.
  rewrite (popInstance_same _ (runtime.instanceStack c)) by reflexivity.
  assert (Hv : runtime.cloneVMInput <$> (runtime.cloneVMInput <$> runtime.vmInput c)
               = runtime.cloneVMInput <$> runtime.vmInput c).
  { destruct (runtime.vmInput c); [|done]. simpl. by rewrite cloneVMInput_twice. }
  destruct c. unfold runtime.SetVMInput, runtime.set_frame, runtime.set_instanceStack,
    runtime.set_stateStack. simpl in *. by rewrite Hv.
Qed.

(** X16. When the nested execution has started an instance of its own, the
    pop cleans that instance and makes the instance of before the push
    current again, which is not cleaned; this holds for [PopSetActiveState]
    and for [PopDiscard]. *)
Theorem pop_cleans_replaced_instance (c : runtime.runtimeContext) (q : nat)
    (inst : runtime.WasmerInstance) :
  runtime.instance c <> Some q ->
  let nested :=
    runtime.set_instance (<[q := inst]> (runtime.instances c)) (Some q)
      (runtime.PushState c) in
  forall c', c' = runtime.PopSetActiveState nested \/ c' = runtime.PopDiscard nested ->
    runtime.instance c' = runtime.instance c /\
    runtime.instanceStack c' = runtime.instanceStack c /\
    runtime.stateStack c' = runtime.stateStack c /\
    runtime.instances c' !! q
      = Some {| runtime.memoryData := runtime.memoryData inst;
                runtime.cleaned := true |} /\
    forall p, p <> q -> runtime.instances c' !! p = runtime.instances c !! p.
Proof.
  intros Hq nested c' Hc'.
  assert (Hpop : forall c1,
    runtime.instanceStack c1 = runtime.instanceStack c ++ [runtime.instance c] ->
    runtime.instances c1 = <[q := inst]> (runtime.instances c) ->
    runtime.instance c1 = Some q ->
    runtime.instance (runtime.popInstance c1) = runtime.instance c /\
    runtime.instanceStack (runtime.popInstance c1) = runtime.instanceStack c /\
    runtime.stateStack (runtime.popInstance c1) = runtime.stateStack c1 /\
    runtime.instances (runtime.popInstance c1) !! q
      = Some {| runtime.memoryData := runtime.memoryData inst;
                runtime.cleaned := true |} /\
    forall p, p <> q ->
      runtime.instances (runtime.popInstance c1) !! p = runtime.instances c !! p).
  { intros c1 Hstack Hinsts Hinst. unfold runtime.popInstance.
    rewrite Hstack, last_snoc, removelast_last. simpl. rewrite Hinst.
    rewrite decide_False by done.
    unfold runtime.CleanWasmerInstance. simpl. rewrite Hinst. simpl.
    repeat split; try done.
    - by rewrite Hinsts, lookup_alter_eq, lookup_insert_eq.
    - intros p Hp. rewrite lookup_alter_ne by done.
      by rewrite Hinsts, lookup_insert_ne. }
  destruct Hc' as [-> | ->].
  - unfold runtime.PopSetActiveState. subst nested.
    unfold runtime.PushState, runtime.pushInstance. simpl.
    rewrite last_snoc, removelast_last. cbv zeta.
    match goal with |- context [runtime.popInstance ?c1] =>
      destruct (Hpop c1) as (H1 & H2 & H3 & H4 & H5); [done..|] end.
    rewrite H1, H2, H3. done.
  - unfold runtime.PopDiscard. subst nested.
    unfold runtime.PushState, runtime.pushInstance. simpl.
    rewrite last_snoc, removelast_last.
    match goal with |- context [runtime.popInstance ?c1] =>
      destruct (Hpop c1) as (H1 & H2 & H3 & H4 & H5); [done..|] end.
    rewrite H1, H2, H3. done.
Qed.

Lemma pop_cleans_replaced_instance_witness :
  let c := runtime_context_1 (bytes_of "abcd") in
  let inst := {| runtime.memoryData := bytes_of "new"; runtime.cleaned := false |} in
  let c' := runtime.PopSetActiveState
              (runtime.set_instance (<[2%nat := inst]> (runtime.instances c))
                 (Some 2%nat) (runtime.PushState c)) in
  runtime.instance c' = runtime.instance c /\
  runtime.instanceStack c' = runtime.instanceStack c /\
  runtime.stateStack c' = runtime.stateStack c /\
  runtime.instances c' !! 2%nat
    = Some {| runtime.memoryData := bytes_of "new"; runtime.cleaned := true |} /\
  forall p, p <> 2%nat -> runtime.instances c' !! p = runtime.instances c !! p.
Proof.
  intros c inst c'.
  apply (pop_cleans_replaced_instance (runtime_context_1 (bytes_of "abcd")) 2%nat
           {| runtime.memoryData := bytes_of "new"; runtime.cleaned := false |}).
  - discriminate.
  - left. reflexivity.
Defined.

(** X17. [CountSameContractInstancesOnStack] counts the entries of the
    state stack that were pushed for the address, as a [uint64]; a push
    adds one to the count of the current contract address and to no
    other. *)
Theorem CountSameContractInstancesOnStack_counts (c : runtime.runtimeContext)
    (address : bytes) :
  runtime.CountSameContractInstancesOnStack address c
    = math.to_uint64
        (len (filter (fun state => runtime.saved_scAddress state = address)
                (runtime.stateStack c))) /\
  runtime.CountSameContractInstancesOnStack address (runtime.PushState c)
    = math.to_uint64
        (runtime.CountSameContractInstancesOnStack address c
         + if decide (runtime.scAddress c = address) then 1 else 0).
Proof.
  assert (Hfold : forall (l : list runtime.savedState) (z : Z),
    0 <= z < 2 ^ 64 ->
    fold_left
      (fun count state =>
         if bytes_Equal address (runtime.saved_scAddress state)
         then math.to_uint64 (count + 1) else count) l z
    = math.to_uint64
        (z + len (filter (fun state => runtime.saved_scAddress state = address) l))).
  { induction l as [|s l IH]; intros z Hz; simpl.
    - unfold math.to_uint64, len. simpl. rewrite Z.add_0_r. by rewrite Z.mod_small.
    - unfold bytes_Equal. rewrite filter_cons.
      destruct (decide (runtime.saved_scAddress s = address)) as [Heq|Hne].
      + rewrite bool_decide_eq_true_2 by done.
        rewrite IH by (unfold math.to_uint64; apply Z.mod_pos_bound; lia).
        unfold math.to_uint64, len. simpl length.
        rewrite Zplus_mod_idemp_l. f_equal. lia.
      + rewrite bool_decide_eq_false_2 by congruence. by apply IH. }
  split.
  - unfold runtime.CountSameContractInstancesOnStack. rewrite Hfold by lia.
    by rewrite Z.add_0_l.
  - unfold runtime.CountSameContractInstancesOnStack.
    unfold runtime.PushState, runtime.pushInstance. simpl.
    rewrite fold_left_app. simpl. rewrite !Hfold by lia. rewrite Z.add_0_l.
    unfold bytes_Equal.
    destruct (decide (runtime.scAddress c = address)) as [Heq|Hne].
    + by rewrite bool_decide_eq_true_2 by done.
    + rewrite bool_decide_eq_false_2 by congruence.
      unfold math.to_uint64. by rewrite Z.add_0_r, Z.mod_mod by lia.
Qed.

(** ** Host: the gas of the async calls and the pending calls *)

Lemma allCalls_assignGas_groups (gasShare : Z)
    (groups : list (string * host.AsyncCallGroup)) :
  allCalls (assignGas_groups gasShare groups)
    = assignGas gasShare <$> allCalls groups.
Proof.
  induction groups as [|[gid g] rest IH]; [done|].
  change (assignGas_groups gasShare ((gid, g) :: rest))
    with ((gid, host.set_AsyncCalls (assignGas gasShare <$> host.AsyncCalls g) g)
            :: assignGas_groups gasShare rest).
  rewrite !allCalls_cons. simpl. rewrite fmap_app. by rewrite IH.
Qed.

Lemma sumGasLimit_assignGas (gasShare : Z) (calls : list host.AsyncCall) :
  sumGasLimit (assignGas gasShare <$> calls)
    = sumProvidedGas calls + gasShare * zeroGasCalls calls.
Proof.
  induction calls as [|c calls IH]; [simpl; lia|].
  rewrite fmap_cons.
  change (sumGasLimit (assignGas gasShare c :: (assignGas gasShare <$> calls)))
    with (host.GasLimit (assignGas gasShare c)
          + sumGasLimit (assignGas gasShare <$> calls)).
  rewrite IH. simpl. destruct (host.ProvidedGas c =? 0) eqn:E; [|lia].
  apply Z.eqb_eq in E. lia.
Qed.

Lemma allCalls_firstPass_groups (groups : list (string * host.AsyncCallGroup)) :
  allCalls (firstPass_groups groups) = firstPass <$> allCalls groups.
Proof.
  induction groups as [|[gid g] rest IH]; [done|].
  change (firstPass_groups ((gid, g) :: rest))
    with ((gid, host.set_AsyncCalls (firstPass <$> host.AsyncCalls g) g)
            :: firstPass_groups rest).
  rewrite !allCalls_cons. simpl. rewrite fmap_app. by rewrite IH.
Qed.

Lemma sumGasLimit_firstPass (calls : list host.AsyncCall) :
  zeroGasCalls calls = 0 ->
  sumGasLimit (firstPass <$> calls) = sumProvidedGas calls.
Proof.
  induction calls as [|c calls IH]; [done|].
  pose proof (zeroGasCalls_nonneg calls) as Hz.
  rewrite fmap_cons.
  change (sumGasLimit (firstPass c :: (firstPass <$> calls)))
    with (host.GasLimit (firstPass c) + sumGasLimit (firstPass <$> calls)).
  simpl. unfold firstPass at 1.
  destruct (host.ProvidedGas c =? 0) eqn:E; [lia|].
  intros Hzero. rewrite IH by lia. simpl. lia.
Qed.

(** X18. The gas setup never hands out more than there is: when it
    succeeds, the limits of all calls add up to at most the gas left, and
    what stays unassigned is less than one unit per call that specified no
    gas (nothing at all when every call specified its gas and these use up
    the gas left). *)
Theorem setup_gas_is_conserved {vmHost : Type} `{host.HostAPI vmHost} (h : vmHost)
    (ctx : host.AsyncContext) :
  let gasLeft := host.Metering_GasLeft h in
  let calls := allCalls (host.AsyncCallGroups ctx) in
  let assigned :=
    sumGasLimit (allCalls (host.AsyncCallGroups (host.setupAsyncCallsGas h ctx).2)) in
  math.is_uint64 gasLeft ->
  Forall (fun c => math.is_uint64 (host.ProvidedGas c)) calls ->
  (host.setupAsyncCallsGas h ctx).1 = None ->
  assigned <= gasLeft /\
  (0 < zeroGasCalls calls -> gasLeft - assigned < zeroGasCalls calls) /\
  (zeroGasCalls calls = 0 -> assigned = sumProvidedGas calls).
Proof.
  intros gasLeft calls assigned Hgas Hall Hok. unfold math.is_uint64 in *.
  pose proof (zeroGasCalls_nonneg calls) as Hz.
  pose proof (sumProvidedGas_nonneg _ Hall) as Hn.
  subst assigned. revert Hok. unfold host.setupAsyncCallsGas. fold gasLeft.
  destruct (Z_lt_le_dec gasLeft (sumProvidedGas calls)) as [Hlt|Hle].
  - destruct (provideGas_groups_fail gasLeft (host.AsyncCallGroups ctx)
                {| host.gasNeeded := 0; host.callsWithZeroGas := 0 |})
      as (groups' & e & Heq & _); [done | unfold calls in *; simpl; lia.. |].
    rewrite Heq. done.
  - rewrite provideGas_groups_ok by (unfold calls in *; simpl; auto; lia). simpl.
    fold calls. rewrite !Z.add_0_l.
    destruct (zeroGasCalls calls =? 0) eqn:Ez.
    + apply Z.eqb_eq in Ez. intros _. simpl.
      rewrite allCalls_firstPass_groups, sumGasLimit_firstPass by done.
      fold calls. lia.
    + apply Z.eqb_neq in Ez.
      destruct (gasLeft <=? sumProvidedGas calls) eqn:El; [done|].
      apply Z.leb_gt in El. intros _. simpl.
      rewrite shareGas_firstPass, allCalls_assignGas_groups, sumGasLimit_assignGas.
      fold calls.
      set (needed := sumProvidedGas calls) in *.
      set (zeros := zeroGasCalls calls) in *.
      pose proof (Z.mul_div_le (gasLeft - needed) zeros ltac:(lia)).
      pose proof (Z.mod_pos_bound (gasLeft - needed) zeros ltac:(lia)).
      pose proof (Z.div_mod (gasLeft - needed) zeros ltac:(lia)).
      nia.
Qed.

Lemma setup_gas_is_conserved_witness :
  let h := sample_host 100 "childA" [] in
  let ctx := sample_context [sample_call "a" 10; sample_call "b" 0; sample_call "c" 0;
                             sample_call "d" 0] in
  let calls := allCalls (host.AsyncCallGroups ctx) in
  let assigned :=
    sumGasLimit (allCalls (host.AsyncCallGroups (host.setupAsyncCallsGas h ctx).2)) in
  assigned <= 100 /\
  (0 < zeroGasCalls calls -> 100 - assigned < zeroGasCalls calls) /\
  (zeroGasCalls calls = 0 -> assigned = sumProvidedGas calls).
Proof.
  intros h ctx calls assigned.
  refine (setup_gas_is_conserved (sample_host 100 "childA" [])
            (sample_context [sample_call "a" 10; sample_call "b" 0; sample_call "c" 0;
                             sample_call "d" 0]) _ _ _).
  - vm_compute. split; discriminate.
  - repeat constructor; vm_compute; discriminate.
  - reflexivity.
Defined.

Lemma keptGroups_cons (keep : host.AsyncCall -> bool) (gid : string)
    (g : host.AsyncCallGroup) (rest : list (string * host.AsyncCallGroup)) :
  keptGroups keep ((gid, g) :: rest)
    = match filter (fun c => keep c = true) (host.AsyncCalls g) with
      | [] => keptGroups keep rest
      | kept =>
          (gid, {| host.Callback := host.Callback g; host.AsyncCalls := kept |})
            :: keptGroups keep rest
      end.
Proof.
  unfold keptGroups. rewrite fmap_cons, filter_cons. simpl.
  destruct (filter (fun c => keep c = true) (host.AsyncCalls g)) eqn:E.
  - by rewrite decide_False by (intros Hne; by apply Hne).
  - by rewrite decide_True by done.
Qed.

Lemma appendCall_absent (gid callback : string) (c : host.AsyncCall)
    (collected : list (string * host.AsyncCallGroup)) :
  gid ∉ collected.*1 ->
  host.appendCall gid callback c collected
    = collected ++ [(gid, {| host.Callback := callback; host.AsyncCalls := [c] |})].
Proof.
  induction collected as [|[k g] rest IH]; intros Hnot; [done|].
  simpl in *. apply not_elem_of_cons in Hnot as [Hne Hnot].
  rewrite decide_False by done. by rewrite IH.
Qed.

Lemma appendCall_present (gid callback : string) (c : host.AsyncCall)
    (collected : list (string * host.AsyncCallGroup)) (g : host.AsyncCallGroup) :
  gid ∉ collected.*1 ->
  host.appendCall gid callback c (collected ++ [(gid, g)])
    = collected ++ [(gid, host.set_AsyncCalls (host.AsyncCalls g ++ [c]) g)].
Proof.
  induction collected as [|[k g'] rest IH]; intros Hnot.
  - simpl. by rewrite decide_True.
  - simpl in *. apply not_elem_of_cons in Hnot as [Hne Hnot].
    rewrite decide_False by done. by rewrite IH.
Qed.

Lemma collect_group_present (keep : host.AsyncCall -> bool) (gid callback : string)
    (calls kept : list host.AsyncCall)
    (collected : list (string * host.AsyncCallGroup)) :
  gid ∉ collected.*1 ->
  fold_left
    (fun collected asyncCall =>
       if keep asyncCall then host.appendCall gid callback asyncCall collected
       else collected)
    calls
    (collected ++ [(gid, {| host.Callback := callback; host.AsyncCalls := kept |})])
  = collected
      ++ [(gid, {| host.Callback := callback;
                   host.AsyncCalls := kept ++ filter (fun c => keep c = true) calls |})].
Proof.
  intros Hnot. revert kept.
  induction calls as [|c calls IH]; intros kept; simpl.
  - by rewrite app_nil_r.
  - rewrite filter_cons. destruct (keep c) eqn:Ek.
    + rewrite decide_True by done.
      rewrite appendCall_present by done. unfold host.set_AsyncCalls. simpl.
      rewrite IH. by rewrite <- app_assoc.
    + rewrite decide_False by done. by rewrite IH.
Qed.

Lemma collect_group_absent (keep : host.AsyncCall -> bool) (gid callback : string)
    (calls : list host.AsyncCall) (collected : list (string * host.AsyncCallGroup)) :
  gid ∉ collected.*1 ->
  fold_left
    (fun collected asyncCall =>
       if keep asyncCall then host.appendCall gid callback asyncCall collected
       else collected)
    calls collected
  = match filter (fun c => keep c = true) calls with
    | [] => collected
    | kept =>
        collected ++ [(gid, {| host.Callback := callback; host.AsyncCalls := kept |})]
    end.
Proof.
  intros Hnot. induction calls as [|c calls IH]; simpl; [done|].
  rewrite filter_cons. destruct (keep c) eqn:Ek.
  - rewrite decide_True by done.
    rewrite appendCall_absent by done. by rewrite collect_group_present by done.
  - rewrite decide_False by done. by rewrite IH.
Qed.

(** The two loops compute the restriction of the groups, when no two groups
    have the same identifier (they are the entries of a map). *)
Lemma collectCalls_keptGroups (keep : host.AsyncCall -> bool)
    (groups : list (string * host.AsyncCallGroup)) :
  NoDup groups.*1 ->
  host.collectCalls keep groups = keptGroups keep groups.
Proof.
  unfold host.collectCalls.
  assert (Hgen : forall collected,
    NoDup groups.*1 ->
    (forall gid, gid ∈ collected.*1 -> gid ∉ groups.*1) ->
    fold_left
      (fun collected g =>
         fold_left
           (fun collected asyncCall =>
              if keep asyncCall
              then host.appendCall g.1 (host.Callback g.2) asyncCall collected
              else collected)
           (host.AsyncCalls g.2) collected)
      groups collected
    = collected ++ keptGroups keep groups).
  { induction groups as [|[gid g] rest IH]; intros collected Hnd Hdisj.
    - simpl. by rewrite app_nil_r.
    - rewrite fmap_cons in Hnd. simpl in Hnd. apply NoDup_cons in Hnd as [Hgid Hnd].
      simpl. rewrite collect_group_absent.
      2:{ intros Hin. apply (Hdisj gid Hin). rewrite fmap_cons. simpl. left. }
      rewrite keptGroups_cons.
      destruct (filter (fun c => keep c = true) (host.AsyncCalls g)) as [|c kept].
      + apply IH; [done|]. intros k Hk. specialize (Hdisj k Hk).
        rewrite fmap_cons in Hdisj. by apply not_elem_of_cons in Hdisj as [_ ?].
      + rewrite IH; [by rewrite <- app_assoc | done |].
        intros k Hk. rewrite fmap_app in Hk. apply elem_of_app in Hk as [Hk|Hk].
        * specialize (Hdisj k Hk).
          rewrite fmap_cons in Hdisj. by apply not_elem_of_cons in Hdisj as [_ ?].
        * simpl in Hk. apply list_elem_of_singleton in Hk. by subst k. }
  intros Hnd. rewrite Hgen; [done | done |]. intros gid Hin. simpl in Hin.
  by apply elem_of_nil in Hin.
Qed.

Lemma filter_keep_twice (keep : host.AsyncCall -> bool) (calls : list host.AsyncCall) :
  filter (fun c => keep c = true) (filter (fun c => keep c = true) calls)
    = filter (fun c => keep c = true) calls.
Proof.
  induction calls as [|c calls IH]; [done|].
  rewrite filter_cons. destruct (decide (keep c = true)) as [Hk|Hk]; [|done].
  rewrite filter_cons, decide_True by done. by rewrite IH.
Qed.

Lemma keptGroups_ids (keep : host.AsyncCall -> bool)
    (groups : list (string * host.AsyncCallGroup)) (gid : string) :
  gid ∈ (keptGroups keep groups).*1 -> gid ∈ groups.*1.
Proof.
  induction groups as [|[k g] rest IH]; [done|].
  rewrite keptGroups_cons, fmap_cons. simpl.
  destruct (filter (fun c => keep c = true) (host.AsyncCalls g)).
  - intros Hin. right. by apply IH.
  - rewrite fmap_cons. simpl. intros Hin. apply elem_of_cons in Hin as [->|Hin].
    + left.
    + right. by apply IH.
Qed.

Lemma keptGroups_NoDup (keep : host.AsyncCall -> bool)
    (groups : list (string * host.AsyncCallGroup)) :
  NoDup groups.*1 -> NoDup (keptGroups keep groups).*1.
Proof.
  induction groups as [|[k g] rest IH]; [done|].
  rewrite fmap_cons. simpl. intros Hnd. apply NoDup_cons in Hnd as [Hk Hnd].
  rewrite keptGroups_cons.
  destruct (filter (fun c => keep c = true) (host.AsyncCalls g)); [by apply IH|].
  rewrite fmap_cons. simpl. apply NoDup_cons. split; [|by apply IH].
  intros Hin. apply Hk. by apply keptGroups_ids in Hin.
Qed.

Lemma keptGroups_twice (keep : host.AsyncCall -> bool)
    (groups : list (string * host.AsyncCallGroup)) :
  keptGroups keep (keptGroups keep groups) = keptGroups keep groups.
Proof.
  induction groups as [|[k g] rest IH]; [done|].
  rewrite keptGroups_cons.
  destruct (filter (fun c => keep c = true) (host.AsyncCalls g)) as [|c kept] eqn:E;
    [done|].
  rewrite keptGroups_cons. simpl. rewrite <- E, filter_keep_twice, E.
  by rewrite IH.
Qed.

Lemma keptGroups_calls (keep : host.AsyncCall -> bool)
    (groups : list (string * host.AsyncCallGroup)) :
  allCalls (keptGroups keep groups) = filter (fun c => keep c = true) (allCalls groups).
Proof.
  induction groups as [|[k g] rest IH]; [done|].
  rewrite keptGroups_cons, allCalls_cons, filter_app. simpl.
  destruct (filter (fun c => keep c = true) (host.AsyncCalls g)) as [|c kept] eqn:E.
  - by rewrite IH.
  - rewrite allCalls_cons. simpl. by rewrite IH.
Qed.

(** X19. [getPendingAsyncCalls], on a context whose groups have distinct
    identifiers (they are the entries of a map): each group is restricted to
    its pending calls, in their order, and a group without pending calls is
    dropped. So the calls of the result are the pending calls of the
    context, no group of the result is empty, and the function changes
    nothing when applied again. *)
Theorem getPendingAsyncCalls_keeps_pending (ctx : host.AsyncContext) :
  NoDup (host.AsyncCallGroups ctx).*1 ->
  let isPending c := bool_decide (host.Status c = host.AsyncCallPending) in
  let pending := host.getPendingAsyncCalls ctx in
  host.AsyncCallGroups pending = keptGroups isPending (host.AsyncCallGroups ctx) /\
  allCalls (host.AsyncCallGroups pending)
    = filter (fun c => host.Status c = host.AsyncCallPending)
        (allCalls (host.AsyncCallGroups ctx)) /\
  Forall (fun g => host.AsyncCalls g.2 <> []) (host.AsyncCallGroups pending) /\
  host.getPendingAsyncCalls pending = pending.
Proof.
  intros Hnd isPending pending.
  assert (Hgroups : host.AsyncCallGroups pending
                    = keptGroups isPending (host.AsyncCallGroups ctx)).
  { subst pending. unfold host.getPendingAsyncCalls. simpl.
    by rewrite collectCalls_keptGroups. }
  split; [done|]. split; [|split].
  - rewrite Hgroups, keptGroups_calls. apply list_filter_iff.
    intros c. subst isPending. simpl. by rewrite bool_decide_eq_true.
  - rewrite Hgroups. unfold keptGroups. apply Forall_forall. intros g Hg.
    by apply list_elem_of_filter in Hg as [? _].
  - unfold host.getPendingAsyncCalls at 1. fold isPending.
    rewrite collectCalls_keptGroups
      by (rewrite Hgroups; by apply keptGroups_NoDup).
    rewrite Hgroups, keptGroups_twice, <- Hgroups.
    subst pending. by unfold host.getPendingAsyncCalls.
Qed.

Lemma getPendingAsyncCalls_keeps_pending_witness :
  let ctx :=
    {| host.CallerAddr := bytes_of "user"; host.ReturnData := [];
       host.AsyncCallGroups :=
         [("g1", {| host.Callback := "cb1";
                    host.AsyncCalls :=
                      [sample_call "a" 1;
                       {| host.Status := host.AsyncCallResolved;
                          host.Destination := bytes_of "b";
                          host.Data := []; host.GasLimit := 0;
                          host.ProvidedGas := 0; host.ValueBytes := [];
                          host.SuccessCallback := "onSuccess";
                          host.ErrorCallback := "onError" |};
                       sample_call "c" 2] |});
          ("g2", {| host.Callback := "cb2";
                    host.AsyncCalls :=
                      [{| host.Status := host.AsyncCallRejected;
                          host.Destination := bytes_of "d";
                          host.Data := []; host.GasLimit := 0;
                          host.ProvidedGas := 0; host.ValueBytes := [];
                          host.SuccessCallback := "onSuccess";
                          host.ErrorCallback := "onError" |}] |})] |} in
  let isPending c := bool_decide (host.Status c = host.AsyncCallPending) in
  let pending := host.getPendingAsyncCalls ctx in
  host.AsyncCallGroups pending = keptGroups isPending (host.AsyncCallGroups ctx) /\
  allCalls (host.AsyncCallGroups pending)
    = filter (fun c => host.Status c = host.AsyncCallPending)
        (allCalls (host.AsyncCallGroups ctx)) /\
  Forall (fun g => host.AsyncCalls g.2 <> []) (host.AsyncCallGroups pending) /\
  host.getPendingAsyncCalls pending = pending.
Proof.
  intros ctx.
  refine (getPendingAsyncCalls_keeps_pending ctx _).
  apply NoDup_ListNoDup. repeat constructor; simpl; intuition discriminate.
Defined.

Lemma keptGroups_nil (keep : host.AsyncCall -> bool)
    (groups : list (string * host.AsyncCallGroup)) :
  filter (fun c => keep c = true) (allCalls groups) = [] ->
  keptGroups keep groups = [].
Proof.
  rewrite <- keptGroups_calls. intros Hcalls.
  destruct (keptGroups keep groups) as [|[gid g] rest] eqn:E; [done|].
  assert (Hg : host.AsyncCalls (gid, g).2 <> []).
  { assert (Hin : (gid, g) ∈ keptGroups keep groups) by (rewrite E; left).
    unfold keptGroups in Hin. by apply list_elem_of_filter in Hin as [? _]. }
  rewrite allCalls_cons in Hcalls. simpl in *.
  by destruct (host.AsyncCalls g).
Qed.

(** X20. [saveCrossShardCalls], on a context whose groups have distinct
    identifiers. When every call goes to a contract that can be executed
    here, nothing is stored and the host is unchanged. Otherwise what is
    stored, under the async-data key of the original transaction, is the
    serialisation of the context restricted to the calls that cannot be
    executed here, without the groups left empty. *)
Theorem saveCrossShardCalls_stores_remote_calls {vmHost : Type} `{host.HostAPI vmHost}
    (h : vmHost) (ctx : host.AsyncContext) :
  NoDup (host.AsyncCallGroups ctx).*1 ->
  let remote c := negb (host.canExecuteSynchronouslyOnDest (host.Destination c) h) in
  (Forall (fun c => remote c = false) (allCalls (host.AsyncCallGroups ctx)) ->
   host.saveCrossShardCalls ctx h = (None, h)) /\
  (forall data,
     Exists (fun c => remote c = true) (allCalls (host.AsyncCallGroups ctx)) ->
     host.json_Marshal
       {| host.CallerAddr := host.CallerAddr ctx;
          host.ReturnData := host.ReturnData ctx;
          host.AsyncCallGroups := keptGroups remote (host.AsyncCallGroups ctx) |}
       = inl data ->
     host.saveCrossShardCalls ctx h
       = host.Storage_SetStorage
           (host.CustomStorageKey host.AsyncDataPrefix (host.Runtime_GetOriginalTxHash h))
           data h).
Proof.
  intros Hnd remote. unfold host.saveCrossShardCalls. fold remote.
  rewrite collectCalls_keptGroups by done. unfold host.savePendingAsyncCalls. simpl.
  split.
  - intros Hlocal. rewrite keptGroups_nil; [done|].
    induction Hlocal as [|c calls Hc Hlocal IH]; [done|].
    rewrite filter_cons, decide_False by congruence. done.
  - intros data Hremote Hjson.
    assert (Hne : keptGroups remote (host.AsyncCallGroups ctx) <> []).
    { intros Hnil. pose proof (keptGroups_calls remote (host.AsyncCallGroups ctx)) as Hc.
      rewrite Hnil in Hc. simpl in Hc. symmetry in Hc.
      apply Exists_exists in Hremote as (c & Hin & Hc').
      assert (Hin' : c ∈ filter (fun c => remote c = true)
                          (allCalls (host.AsyncCallGroups ctx)))
        by (by apply list_elem_of_filter).
      rewrite Hc in Hin'. by apply elem_of_nil in Hin'. }
    destruct (keptGroups remote (host.AsyncCallGroups ctx)) eqn:E; [done|].
    by rewrite Hjson.
Qed.

Lemma saveCrossShardCalls_stores_remote_calls_witness :
  host.saveCrossShardCalls context_B (sample_host 100 "childA" [])
    = host.Storage_SetStorage
        (host.CustomStorageKey host.AsyncDataPrefix
           (host.Runtime_GetOriginalTxHash (sample_host 100 "childA" [])))
        (bytes_of "[childB]") (sample_host 100 "childA" []).
Proof.
  refine (proj2 (saveCrossShardCalls_stores_remote_calls (sample_host 100 "childA" [])
                   context_B _) (bytes_of "[childB]") _ _).
  - apply NoDup_ListNoDup. repeat constructor; simpl; intuition discriminate.
  - apply Exists_cons_hd. reflexivity.
  - vm_compute. reflexivity.
Defined.

Lemma findGroup_unnamed (caller : bytes) (groups : list (string * host.AsyncCallGroup))
    (pos0 : nat) :
  Forall (fun g => host.findCall caller (host.AsyncCalls g.2) 0 <> None -> g.1 = "")
    groups ->
  (host.findGroup caller groups pos0 "").2 = "".
Proof.
  intros Hall. revert pos0.
  induction Hall as [|[gid g] rest Hg Hall IH]; intros pos0; simpl; [done|].
  simpl in Hg.
  destruct (host.findCall caller (host.AsyncCalls g) 0) as [p|] eqn:Hf.
  - rewrite (Hg ltac:(done)). simpl. apply IH.
  - simpl. apply IH.
Qed.

(** X21. A callback that was not expected is refused without a write. When
    the stored context has no call whose destination is the caller of the
    callback, [processCallbackStack] returns callback-not-expected and the
    host is as the read of the context left it. The same happens when the
    only groups that hold such a call have the empty string as identifier:
    the search takes a match in such a group for no match. *)
Theorem unexpected_callback_is_refused {vmHost : Type} `{host.HostAPI vmHost}
    (h : vmHost) (ctx : host.AsyncContext) :
  let key := host.CustomStorageKey host.AsyncDataPrefix (host.Runtime_GetOriginalTxHash h) in
  let read := host.Storage_GetStorage key h in
  let caller := runtime.CallerAddr (host.Runtime_GetVMInput read.2) in
  host.json_Unmarshal read.1 = inl ctx ->
  Forall (fun g => host.findCall caller (host.AsyncCalls g.2) 0 <> None -> g.1 = "")
    (host.AsyncCallGroups ctx) ->
  host.processCallbackStack h = (Some ErrCallBackFuncNotExpected, read.2).
Proof.
  intros key read caller Hjson Hall.
  unfold host.processCallbackStack. fold key. fold read.
  destruct read as [buff h1] eqn:Hread. simpl in *. rewrite Hjson. fold caller.
  pose proof (findGroup_unnamed caller (host.AsyncCallGroups ctx) 0%nat Hall) as Hid.
  destruct (host.findGroup caller (host.AsyncCallGroups ctx) 0 "") as [pos gid].
  simpl in Hid. subst gid. done.
Qed.

Lemma unexpected_callback_is_refused_witness :
  host.processCallbackStack (sample_host 100 "childC" (bytes_of "[childB]"))
    = (Some ErrCallBackFuncNotExpected, sample_host 100 "childC" (bytes_of "[childB]")).
Proof.
  refine (unexpected_callback_is_refused
            (sample_host 100 "childC" (bytes_of "[childB]")) context_B _ _).
  - vm_compute. reflexivity.
  - repeat constructor. vm_compute. intros Hne. by contradict Hne.
Defined.

(** X22. The callback of the last pending call. When the stored context
    holds one group, with an identifier that is not empty, and this group one
    call, whose destination is the caller of the callback, then
    [processCallbackStack] first overwrites the stored context with the empty
    value; if that write fails its error is returned and nothing is
    dispatched, otherwise the context is resolved, without groups, on the
    host the write left. *)
Theorem last_callback_clears_then_resolves {vmHost : Type} `{host.HostAPI vmHost}
    (h : vmHost) (ctx : host.AsyncContext) (gid : string) (g : host.AsyncCallGroup)
    (call : host.AsyncCall) :
  let key := host.CustomStorageKey host.AsyncDataPrefix (host.Runtime_GetOriginalTxHash h) in
  let read := host.Storage_GetStorage key h in
  let caller := runtime.CallerAddr (host.Runtime_GetVMInput read.2) in
  host.json_Unmarshal read.1 = inl ctx ->
  host.AsyncCallGroups ctx = [(gid, g)] ->
  gid <> "" ->
  host.AsyncCalls g = [call] ->
  host.Destination call = caller ->
  host.processCallbackStack h
    = match host.Storage_SetStorage key [] read.2 with
      | (Some err, h2) => (Some err, h2)
      | (None, h2) => host.resolveContext (host.set_AsyncCallGroups [] ctx) h2
      end.
Proof.
  intros key read caller Hjson Hgroups Hgid Hcalls Hdest.
  unfold host.processCallbackStack. fold key. fold read.
  destruct read as [buff h1] eqn:Hread. simpl in *. rewrite Hjson. fold caller.
  rewrite Hgroups. simpl. rewrite Hcalls. simpl.
  unfold bytes_Equal. rewrite bool_decide_eq_true_2 by done.
  destruct gid as [|a gid]; [done|]. simpl.
  rewrite decide_True by done. simpl. rewrite Hcalls.
  unfold host.removeCall. simpl.
  unfold host.deleteGroup. rewrite filter_cons. simpl.
  rewrite decide_False by (intros Hne; by apply Hne). done.
Qed.

Lemma last_callback_clears_then_resolves_witness :
  let h := sample_host 100 "childB" (bytes_of "[childB]") in
  let key := host.CustomStorageKey host.AsyncDataPrefix (host.Runtime_GetOriginalTxHash h) in
  host.processCallbackStack h
    = match host.Storage_SetStorage key [] h with
      | (Some err, h2) => (Some err, h2)
      | (None, h2) => host.resolveContext (host.set_AsyncCallGroups [] context_B) h2
      end.
Proof.
  intros h key.
  refine (last_callback_clears_then_resolves
            (sample_host 100 "childB" (bytes_of "[childB]")) context_B "group"
            {| host.Callback := ""; host.AsyncCalls := [sample_call "childB" 0] |}
            (sample_call "childB" 0) _ _ _ _ _).
  - vm_compute. reflexivity.
  - reflexivity.
  - discriminate.
  - reflexivity.
  - reflexivity.
Defined.

(** ** Big-integer host functions: results, faults and handles *)

Lemma GetBigInt_after_create (c : elrondapi.EICallbacks) (dest op a : Z) :
  elrondapi.bigIntValues c !! op = Some a ->
  elrondapi.GetBigInt op (elrondapi.GetBigIntOrCreate dest c).2 = inl a.
Proof.
  intros H1. unfold elrondapi.GetBigIntOrCreate, elrondapi.GetBigInt.
  destruct (elrondapi.bigIntValues c !! dest) as [d|] eqn:Hd; simpl.
  - by rewrite H1.
  - rewrite lookup_insert_ne by congruence. by rewrite H1.
Qed.

(** The handle table after a write to the destination handle that was got
    or created before. *)
Lemma insert_after_create (c : elrondapi.EICallbacks) (dest v : Z) :
  <[dest := v]> (elrondapi.bigIntValues (elrondapi.GetBigIntOrCreate dest c).2)
    = <[dest := v]> (elrondapi.bigIntValues c).
Proof.
  unfold elrondapi.GetBigIntOrCreate.
  destruct (elrondapi.bigIntValues c !! dest); simpl; [done|].
  by rewrite insert_insert_eq.
Qed.

Lemma errors_after_create (c : elrondapi.EICallbacks) (dest : Z) :
  elrondapi.allErrors (elrondapi.GetBigIntOrCreate dest c).2 = elrondapi.allErrors c /\
  elrondapi.executionFailed (elrondapi.GetBigIntOrCreate dest c).2
    = elrondapi.executionFailed c.
Proof.
  unfold elrondapi.GetBigIntOrCreate.
  by destruct (elrondapi.bigIntValues c !! dest).
Qed.

Lemma values_after_create (c : elrondapi.EICallbacks) (dest handle value : Z) :
  elrondapi.bigIntValues c !! handle = Some value ->
  elrondapi.bigIntValues (elrondapi.GetBigIntOrCreate dest c).2 !! handle = Some value.
Proof.
  intros Hh. unfold elrondapi.GetBigIntOrCreate.
  destruct (elrondapi.bigIntValues c !! dest) eqn:Hd; simpl; [done|].
  rewrite lookup_insert_ne; [done | congruence].
Qed.

(** The run of a function with a destination and two operands that are
    present, up to the point after the copy cost. *)
Ltac run_binary dest op1 op2 H1 H2 :=
  cbv zeta;
  match goal with
  | |- context [elrondapi.GetBigIntOrCreate dest ?c1] =>
      let Htwo := fresh "Htwo" in
      let Hins := fresh "Hins" in
      let Herr := fresh "Herr" in
      let Hval := fresh "Hval" in
      pose proof (GetTwoBigInt_after_create c1 dest op1 op2 _ _ H1 H2) as Htwo;
      pose proof (fun v => insert_after_create c1 dest v) as Hins;
      pose proof (errors_after_create c1 dest) as Herr;
      pose proof (fun handle value => values_after_create c1 dest handle value) as Hval;
      destruct (elrondapi.GetBigIntOrCreate dest c1) as [? ?];
      simpl in Htwo, Hins, Herr, Hval; rewrite Htwo; simpl
  end.

(** The same with one operand. *)
Ltac run_unary dest op H1 :=
  cbv zeta;
  match goal with
  | |- context [elrondapi.GetBigIntOrCreate dest ?c1] =>
      let Hone := fresh "Hone" in
      let Hins := fresh "Hins" in
      let Herr := fresh "Herr" in
      let Hval := fresh "Hval" in
      pose proof (GetBigInt_after_create c1 dest op _ H1) as Hone;
      pose proof (fun v => insert_after_create c1 dest v) as Hins;
      pose proof (errors_after_create c1 dest) as Herr;
      pose proof (fun handle value => values_after_create c1 dest handle value) as Hval;
      destruct (elrondapi.GetBigIntOrCreate dest c1) as [? ?];
      simpl in Hone, Hins, Herr, Hval; rewrite Hone; simpl
  end.

Lemma BigIntTDiv_result (c : elrondapi.EICallbacks) (dest op1 op2 a b : Z) :
  elrondapi.bigIntValues c !! op1 = Some a ->
  elrondapi.bigIntValues c !! op2 = Some b ->
  b <> 0 ->
  elrondapi.bigIntValues (elrondapi.BigIntTDiv dest op1 op2 c)
    = <[dest := Z.quot a b]> (elrondapi.bigIntValues c) /\
  elrondapi.allErrors (elrondapi.BigIntTDiv dest op1 op2 c) = elrondapi.allErrors c.
Proof.
  intros H1 H2 Hb. unfold elrondapi.BigIntTDiv. run_binary dest op1 op2 H1 H2.
  rewrite (proj2 (Z.eqb_neq (Z.sgn b) 0)) by (by rewrite Z.sgn_null_iff).
  simpl. split; [apply Hins | apply Herr].
Qed.

Lemma BigIntTMod_result (c : elrondapi.EICallbacks) (dest op1 op2 a b : Z) :
  elrondapi.bigIntValues c !! op1 = Some a ->
  elrondapi.bigIntValues c !! op2 = Some b ->
  b <> 0 ->
  elrondapi.bigIntValues (elrondapi.BigIntTMod dest op1 op2 c)
    = <[dest := Z.rem a b]> (elrondapi.bigIntValues c) /\
  elrondapi.allErrors (elrondapi.BigIntTMod dest op1 op2 c) = elrondapi.allErrors c.
Proof.
  intros H1 H2 Hb. unfold elrondapi.BigIntTMod. run_binary dest op1 op2 H1 H2.
  rewrite (proj2 (Z.eqb_neq (Z.sgn b) 0)) by (by rewrite Z.sgn_null_iff).
  simpl. split; [apply Hins | apply Herr].
Qed.

Lemma BigIntEDiv_result (c : elrondapi.EICallbacks) (dest op1 op2 a b : Z) :
  elrondapi.bigIntValues c !! op1 = Some a ->
  elrondapi.bigIntValues c !! op2 = Some b ->
  b <> 0 ->
  elrondapi.bigIntValues (elrondapi.BigIntEDiv dest op1 op2 c)
    = <[dest := elrondapi.big_Div a b]> (elrondapi.bigIntValues c) /\
  elrondapi.allErrors (elrondapi.BigIntEDiv dest op1 op2 c) = elrondapi.allErrors c.
Proof.
  intros H1 H2 Hb. unfold elrondapi.BigIntEDiv. run_binary dest op1 op2 H1 H2.
  rewrite (proj2 (Z.eqb_neq (Z.sgn b) 0)) by (by rewrite Z.sgn_null_iff).
  simpl. split; [apply Hins | apply Herr].
Qed.

Lemma BigIntEMod_result (c : elrondapi.EICallbacks) (dest op1 op2 a b : Z) :
  elrondapi.bigIntValues c !! op1 = Some a ->
  elrondapi.bigIntValues c !! op2 = Some b ->
  b <> 0 ->
  elrondapi.bigIntValues (elrondapi.BigIntEMod dest op1 op2 c)
    = <[dest := elrondapi.big_Mod a b]> (elrondapi.bigIntValues c) /\
  elrondapi.allErrors (elrondapi.BigIntEMod dest op1 op2 c) = elrondapi.allErrors c.
Proof.
  intros H1 H2 Hb. unfold elrondapi.BigIntEMod. run_binary dest op1 op2 H1 H2.
  rewrite (proj2 (Z.eqb_neq (Z.sgn b) 0)) by (by rewrite Z.sgn_null_iff).
  simpl. split; [apply Hins | apply Herr].
Qed.

(** X23. The truncated division and modulus, for operands that are present
    and a divisor that is not zero: no error is recorded, and the quotient
    [q] and the remainder [r] that the two functions leave under their
    destination handles satisfy a = q * b + r with |r| < |b|, the remainder
    having the sign of the dividend. *)
Theorem truncated_division_identity (c : elrondapi.EICallbacks)
    (destQ destR op1 op2 a b : Z) :
  elrondapi.bigIntValues c !! op1 = Some a ->
  elrondapi.bigIntValues c !! op2 = Some b ->
  b <> 0 ->
  exists q r,
    elrondapi.bigIntValues (elrondapi.BigIntTDiv destQ op1 op2 c) !! destQ = Some q /\
    elrondapi.bigIntValues (elrondapi.BigIntTMod destR op1 op2 c) !! destR = Some r /\
    a = q * b + r /\ Z.abs r < Z.abs b /\ 0 <= r * a /\
    elrondapi.allErrors (elrondapi.BigIntTDiv destQ op1 op2 c) = elrondapi.allErrors c /\
    elrondapi.allErrors (elrondapi.BigIntTMod destR op1 op2 c) = elrondapi.allErrors c.
Proof.
  intros H1 H2 Hb.
  destruct (BigIntTDiv_result c destQ op1 op2 a b H1 H2 Hb) as [Hq Heq].
  destruct (BigIntTMod_result c destR op1 op2 a b H1 H2 Hb) as [Hr Her].
  exists (Z.quot a b), (Z.rem a b).
  rewrite Hq, Hr, !lookup_insert_eq. repeat split; try done.
  - pose proof (Z.quot_rem' a b). lia.
  - by apply Z.rem_bound_abs.
  - apply Z.rem_sign_mul. done.
Qed.

Lemma truncated_division_identity_witness :
  exists q r,
    elrondapi.bigIntValues
      (elrondapi.BigIntTDiv 3 1 2 (sample_callbacks {[ 1 := -7; 2 := 2 ]})) !! 3 = Some q /\
    elrondapi.bigIntValues
      (elrondapi.BigIntTMod 4 1 2 (sample_callbacks {[ 1 := -7; 2 := 2 ]})) !! 4 = Some r /\
    -7 = q * 2 + r /\ Z.abs r < Z.abs 2 /\ 0 <= r * (-7) /\
    elrondapi.allErrors
      (elrondapi.BigIntTDiv 3 1 2 (sample_callbacks {[ 1 := -7; 2 := 2 ]}))
      = elrondapi.allErrors (sample_callbacks {[ 1 := -7; 2 := 2 ]}) /\
    elrondapi.allErrors
      (elrondapi.BigIntTMod 4 1 2 (sample_callbacks {[ 1 := -7; 2 := 2 ]}))
      = elrondapi.allErrors (sample_callbacks {[ 1 := -7; 2 := 2 ]}).
Proof.
  apply (truncated_division_identity (sample_callbacks {[ 1 := -7; 2 := 2 ]})
           3 4 1 2 (-7) 2); [reflexivity | reflexivity | discriminate].
Defined.

(** X24. The Euclidean division and modulus, for operands that are present
    and a divisor that is not zero: no error is recorded, and the quotient
    [q] and the modulus [m] that the two functions leave under their
    destination handles satisfy a = q * b + m with 0 <= m < |b|, also for
    negative operands. *)
Theorem euclidean_division_identity (c : elrondapi.EICallbacks)
    (destQ destM op1 op2 a b : Z) :
  elrondapi.bigIntValues c !! op1 = Some a ->
  elrondapi.bigIntValues c !! op2 = Some b ->
  b <> 0 ->
  exists q m,
    elrondapi.bigIntValues (elrondapi.BigIntEDiv destQ op1 op2 c) !! destQ = Some q /\
    elrondapi.bigIntValues (elrondapi.BigIntEMod destM op1 op2 c) !! destM = Some m /\
    a = q * b + m /\ 0 <= m < Z.abs b /\
    elrondapi.allErrors (elrondapi.BigIntEDiv destQ op1 op2 c) = elrondapi.allErrors c /\
    elrondapi.allErrors (elrondapi.BigIntEMod destM op1 op2 c) = elrondapi.allErrors c.
Proof.
  intros H1 H2 Hb.
  destruct (BigIntEDiv_result c destQ op1 op2 a b H1 H2 Hb) as [Hq Heq].
  destruct (BigIntEMod_result c destM op1 op2 a b H1 H2 Hb) as [Hm Hem].
  exists (elrondapi.big_Div a b), (elrondapi.big_Mod a b).
  rewrite Hq, Hm, !lookup_insert_eq. repeat split; try done.
  - unfold elrondapi.big_Div, elrondapi.big_Mod.
    destruct (0 <? b) eqn:E.
    + apply Z.ltb_lt in E. rewrite Z.abs_eq by lia.
      pose proof (Z.div_mod a b ltac:(lia)). lia.
    + apply Z.ltb_ge in E. rewrite Z.abs_neq by lia.
      pose proof (Z.div_mod a (- b) ltac:(lia)). lia.
  - unfold elrondapi.big_Mod. apply Z.mod_pos_bound. lia.
  - unfold elrondapi.big_Mod. apply Z.mod_pos_bound. lia.
Qed.

Lemma euclidean_division_identity_witness :
  exists q m,
    elrondapi.bigIntValues
      (elrondapi.BigIntEDiv 3 1 2 (sample_callbacks {[ 1 := -7; 2 := -2 ]})) !! 3 = Some q /\
    elrondapi.bigIntValues
      (elrondapi.BigIntEMod 4 1 2 (sample_callbacks {[ 1 := -7; 2 := -2 ]})) !! 4 = Some m /\
    -7 = q * (-2) + m /\ 0 <= m < Z.abs (-2) /\
    elrondapi.allErrors
      (elrondapi.BigIntEDiv 3 1 2 (sample_callbacks {[ 1 := -7; 2 := -2 ]}))
      = elrondapi.allErrors (sample_callbacks {[ 1 := -7; 2 := -2 ]}) /\
    elrondapi.allErrors
      (elrondapi.BigIntEMod 4 1 2 (sample_callbacks {[ 1 := -7; 2 := -2 ]}))
      = elrondapi.allErrors (sample_callbacks {[ 1 := -7; 2 := -2 ]}).
Proof.
  apply (euclidean_division_identity (sample_callbacks {[ 1 := -7; 2 := -2 ]})
           3 4 1 2 (-7) (-2)); [reflexivity | reflexivity | discriminate].
Defined.

(** X25. [BigIntPow], for a base and an exponent that are present. With a
    negative exponent the function signals bad-lower-bounds, marks the
    execution as failed and computes nothing: every handle that held a value
    keeps it. With an exponent that is not negative no error is recorded and
    the destination holds the power; the other handles keep their values. *)
Theorem BigIntPow_result (c : elrondapi.EICallbacks) (dest op1 op2 a b : Z) :
  elrondapi.bigIntValues c !! op1 = Some a ->
  elrondapi.bigIntValues c !! op2 = Some b ->
  let c' := elrondapi.BigIntPow dest op1 op2 c in
  (b < 0 ->
   elrondapi.allErrors c' = elrondapi.allErrors c ++ [ErrBadLowerBounds] /\
   elrondapi.executionFailed c' = true /\
   forall handle value,
     elrondapi.bigIntValues c !! handle = Some value ->
     elrondapi.bigIntValues c' !! handle = Some value) /\
  (0 <= b ->
   elrondapi.allErrors c' = elrondapi.allErrors c /\
   elrondapi.bigIntValues c' = <[dest := a ^ b]> (elrondapi.bigIntValues c)).
Proof.
  intros H1 H2 c'. subst c'. unfold elrondapi.BigIntPow.
  run_binary dest op1 op2 H1 H2.
  split.
  - intros Hb. rewrite (proj2 (Z.ltb_lt (Z.sgn b) 0)) by (apply Z.sgn_neg_iff; lia).
    simpl. unfold elrondapi.BigIntAPIErrorShouldFailExecution.
    rewrite orb_true_r. destruct Herr as [-> _]. repeat split; try done;
      try (intros handle value Hh; by apply Hval).
  - intros Hb. rewrite (proj2 (Z.ltb_ge (Z.sgn b) 0)) by (apply Z.sgn_nonneg; lia).
    simpl. split; [apply Herr | apply Hins].
Qed.

Lemma BigIntPow_result_witness :
  let c := sample_callbacks {[ 1 := 2; 2 := -1; 3 := 10 ]} in
  elrondapi.allErrors (elrondapi.BigIntPow 3 1 2 c)
    = elrondapi.allErrors c ++ [ErrBadLowerBounds] /\
  elrondapi.executionFailed (elrondapi.BigIntPow 3 1 2 c) = true /\
  forall handle value,
    elrondapi.bigIntValues c !! handle = Some value ->
    elrondapi.bigIntValues (elrondapi.BigIntPow 3 1 2 c) !! handle = Some value.
Proof.
  refine (proj1 (BigIntPow_result (sample_callbacks {[ 1 := 2; 2 := -1; 3 := 10 ]})
                   3 1 2 2 (-1) _ _) _); [reflexivity | reflexivity | lia].
Defined.

Lemma BigIntAdd_result (costs : GasSchedule -> elrondapi.MoreBigIntAPICost)
    (c : elrondapi.EICallbacks) (dest op1 op2 a b : Z) :
  elrondapi.bigIntValues c !! op1 = Some a ->
  elrondapi.bigIntValues c !! op2 = Some b ->
  elrondapi.bigIntValues (elrondapi.BigIntAdd costs dest op1 op2 c)
    = <[dest := a + b]> (elrondapi.bigIntValues c) /\
  elrondapi.allErrors (elrondapi.BigIntAdd costs dest op1 op2 c) = elrondapi.allErrors c.
Proof.
  intros H1 H2. unfold elrondapi.BigIntAdd. run_binary dest op1 op2 H1 H2.
  split; [apply Hins | apply Herr].
Qed.

Lemma BigIntSub_result (costs : GasSchedule -> elrondapi.MoreBigIntAPICost)
    (c : elrondapi.EICallbacks) (dest op1 op2 a b : Z) :
  elrondapi.bigIntValues c !! op1 = Some a ->
  elrondapi.bigIntValues c !! op2 = Some b ->
  elrondapi.bigIntValues (elrondapi.BigIntSub costs dest op1 op2 c)
    = <[dest := a - b]> (elrondapi.bigIntValues c) /\
  elrondapi.allErrors (elrondapi.BigIntSub costs dest op1 op2 c) = elrondapi.allErrors c.
Proof.
  intros H1 H2. unfold elrondapi.BigIntSub. run_binary dest op1 op2 H1 H2.
  split; [apply Hins | apply Herr].
Qed.

(** X26. Addition and subtraction undo each other, also when the
    destination is one of the operands: after [BigIntAdd dest op1 op2]
    followed by [BigIntSub dest dest op2], with the destination different
    from the second operand, the destination holds the value of the first
    operand, the second operand is unchanged, and no error is recorded. *)
Theorem add_then_sub_restores (costs : GasSchedule -> elrondapi.MoreBigIntAPICost)
    (c : elrondapi.EICallbacks) (dest op1 op2 a b : Z) :
  elrondapi.bigIntValues c !! op1 = Some a ->
  elrondapi.bigIntValues c !! op2 = Some b ->
  dest <> op2 ->
  let c' := elrondapi.BigIntSub costs dest dest op2
              (elrondapi.BigIntAdd costs dest op1 op2 c) in
  elrondapi.bigIntValues c' !! dest = Some a /\
  elrondapi.bigIntValues c' !! op2 = Some b /\
  elrondapi.allErrors c' = elrondapi.allErrors c.
Proof.
  intros H1 H2 Hne c'. subst c'.
  destruct (BigIntAdd_result costs c dest op1 op2 a b H1 H2) as [Hadd Herr].
  destruct (BigIntSub_result costs (elrondapi.BigIntAdd costs dest op1 op2 c)
              dest dest op2 (a + b) b) as [Hsub Herr'].
  { by rewrite Hadd, lookup_insert_eq. }
  { rewrite Hadd, lookup_insert_ne by done. done. }
  rewrite Hsub, Herr', Herr, Hadd. rewrite lookup_insert_eq.
  rewrite !lookup_insert_ne by done. repeat split; try done. f_equal. lia.
Qed.

(** X27. [BigIntSqrt], for an operand that is present. For an operand that
    is not negative the destination receives the integer square root, the
    greatest [s] with s * s <= a, and no error is recorded. For a negative
    operand the function signals bad-lower-bounds and every handle that held
    a value keeps it. *)
Theorem BigIntSqrt_result (costs : GasSchedule -> elrondapi.MoreBigIntAPICost)
    (c : elrondapi.EICallbacks) (dest op a : Z) :
  elrondapi.bigIntValues c !! op = Some a ->
  let c' := elrondapi.BigIntSqrt costs dest op c in
  (0 <= a ->
   exists s, elrondapi.bigIntValues c' !! dest = Some s /\
             0 <= s /\ s * s <= a < (s + 1) * (s + 1) /\
             elrondapi.allErrors c' = elrondapi.allErrors c) /\
  (a < 0 ->
   elrondapi.allErrors c' = elrondapi.allErrors c ++ [ErrBadLowerBounds] /\
   elrondapi.executionFailed c' = true /\
   forall handle value,
     elrondapi.bigIntValues c !! handle = Some value ->
     elrondapi.bigIntValues c' !! handle = Some value).
Proof.
  intros H1 c'. subst c'. unfold elrondapi.BigIntSqrt. run_unary dest op H1.
  split.
  - intros Ha. rewrite (proj2 (Z.ltb_ge (Z.sgn a) 0)) by (apply Z.sgn_nonneg; lia).
    simpl. exists (Z.sqrt a). rewrite Hins, lookup_insert_eq.
    pose proof (Z.sqrt_spec a Ha) as Hs. pose proof (Z.sqrt_nonneg a).
    cbv zeta in Hs. destruct Herr as [Herr _].
    repeat split; try done; lia.
  - intros Ha. rewrite (proj2 (Z.ltb_lt (Z.sgn a) 0)) by (apply Z.sgn_neg_iff; lia).
    simpl. unfold elrondapi.BigIntAPIErrorShouldFailExecution.
    rewrite orb_true_r. destruct Herr as [-> _]. repeat split; try done;
      try (intros handle value Hh; by apply Hval).
Qed.

Lemma add_then_sub_restores_witness :
  let c := sample_callbacks {[ 1 := 5; 2 := 7 ]} in
  let c' := elrondapi.BigIntSub sample_more_costs 1 1 2
              (elrondapi.BigIntAdd sample_more_costs 1 1 2 c) in
  elrondapi.bigIntValues c' !! 1 = Some 5 /\
  elrondapi.bigIntValues c' !! 2 = Some 7 /\
  elrondapi.allErrors c' = elrondapi.allErrors c.
Proof.
  apply (add_then_sub_restores sample_more_costs
           (sample_callbacks {[ 1 := 5; 2 := 7 ]}) 1 1 2 5 7);
    [reflexivity | reflexivity | discriminate].
Defined.

Lemma BigIntSqrt_result_witness :
  let c := sample_callbacks {[ 1 := 17 ]} in
  let c' := elrondapi.BigIntSqrt sample_more_costs 2 1 c in
  exists s, elrondapi.bigIntValues c' !! 2 = Some s /\
            0 <= s /\ s * s <= 17 < (s + 1) * (s + 1) /\
            elrondapi.allErrors c' = elrondapi.allErrors c.
Proof.
  refine (proj1 (BigIntSqrt_result sample_more_costs (sample_callbacks {[ 1 := 17 ]})
                   2 1 17 _) _); [reflexivity | lia].
Defined.

(** X28. [BigIntLog2], for an operand that is present; the handle table is
    never changed. For a positive operand (of less than 2^31 bits) the result
    [r] is the binary logarithm rounded down: 2^r <= a < 2^(r+1). For zero
    the result is -1 and no error is recorded, although -1 is also what the
    function returns when it fails. For a negative operand the result is -1
    and bad-lower-bounds is signalled. *)
Theorem BigIntLog2_result (costs : GasSchedule -> elrondapi.MoreBigIntAPICost)
    (c : elrondapi.EICallbacks) (op a : Z) :
  elrondapi.bigIntValues c !! op = Some a ->
  let r := (elrondapi.BigIntLog2 costs op c).1 in
  let c' := (elrondapi.BigIntLog2 costs op c).2 in
  elrondapi.bigIntValues c' = elrondapi.bigIntValues c /\
  (0 < a -> Z.log2 a < 2 ^ 31 ->
   2 ^ r <= a < 2 ^ (r + 1) /\ elrondapi.allErrors c' = elrondapi.allErrors c) /\
  (a = 0 -> r = -1 /\ elrondapi.allErrors c' = elrondapi.allErrors c) /\
  (a < 0 -> r = -1 /\
            elrondapi.allErrors c' = elrondapi.allErrors c ++ [ErrBadLowerBounds] /\
            elrondapi.executionFailed c' = true).
Proof.
  intros H1 r c'. subst r c'. unfold elrondapi.BigIntLog2. cbv zeta.
  unfold elrondapi.GetBigInt. simpl. rewrite H1.
  destruct (Z.sgn a <? 0) eqn:Es.
  - apply Z.ltb_lt in Es. apply Z.sgn_neg_iff in Es. simpl.
    unfold elrondapi.BigIntAPIErrorShouldFailExecution. rewrite orb_true_r.
    repeat split; try done; lia.
  - apply Z.ltb_ge in Es. apply Z.sgn_nonneg in Es. simpl.
    split; [done|]. split; [|split]; [| |lia].
    + intros Ha Hlog. unfold elrondapi.BitLen.
      rewrite (proj2 (Z.eqb_neq a 0)) by lia. rewrite Z.abs_eq by lia.
      pose proof (Z.log2_nonneg a).
      rewrite to_int32_small by lia.
      replace (Z.log2 a + 1 - 1) with (Z.log2 a) by lia.
      pose proof (Z.log2_spec a Ha). split; [|done].
      replace (Z.log2 a + 1) with (Z.succ (Z.log2 a)) by lia. done.
    + intros ->. done.
Qed.

Lemma BigIntLog2_result_witness :
  let c := sample_callbacks {[ 1 := 0 ]} in
  (elrondapi.BigIntLog2 sample_more_costs 1 c).1 = -1 /\
  elrondapi.allErrors (elrondapi.BigIntLog2 sample_more_costs 1 c).2
    = elrondapi.allErrors c.
Proof.
  refine (proj1 (proj2 (proj2 (BigIntLog2_result sample_more_costs
                                 (sample_callbacks {[ 1 := 0 ]}) 1 0 _))) _);
    reflexivity.
Defined.

(** X29. [BigIntCmp] never changes the handle table: unlike the functions
    with a destination it creates no handle. When both operands are present
    the result is the sign of their difference (-1, 0 or 1) and no error is
    recorded; when one is missing the result is -2, the missing handle is
    signalled and the execution is marked as failed. *)
Theorem BigIntCmp_result (costs : GasSchedule -> elrondapi.MoreBigIntAPICost)
    (c : elrondapi.EICallbacks) (op1 op2 : Z) :
  let r := (elrondapi.BigIntCmp costs op1 op2 c).1 in
  let c' := (elrondapi.BigIntCmp costs op1 op2 c).2 in
  elrondapi.bigIntValues c' = elrondapi.bigIntValues c /\
  match elrondapi.bigIntValues c !! op1, elrondapi.bigIntValues c !! op2 with
  | Some a, Some b =>
      r = Z.sgn (a - b) /\ elrondapi.allErrors c' = elrondapi.allErrors c /\
      (elrondapi.BigIntCmp costs op2 op1 c).1 = - r
  | _, _ =>
      r = -2 /\
      elrondapi.allErrors c' = elrondapi.allErrors c ++ [ErrNoBigIntUnderThisHandle] /\
      elrondapi.executionFailed c' = true
  end.
Proof.
  intros r c'. subst r c'. unfold elrondapi.BigIntCmp. cbv zeta.
  unfold elrondapi.GetTwoBigInt, elrondapi.GetBigInt. simpl.
  unfold elrondapi.BigIntAPIErrorShouldFailExecution.
  destruct (elrondapi.bigIntValues c !! op1) as [a|],
           (elrondapi.bigIntValues c !! op2) as [b|]; simpl;
    rewrite ?orb_true_r; repeat split; try done.
  - unfold elrondapi.big_Cmp. destruct (Z.compare_spec a b); lia.
  - unfold elrondapi.big_Cmp.
    destruct (Z.compare_spec a b), (Z.compare_spec b a); lia.
Qed.

(** X30. Negation in place: [BigIntNeg dest dest] applied twice gives back
    the value; applied once it turns the result of [BigIntSign] into its
    opposite and leaves what [BigIntAbs] computes unchanged; no error is
    recorded. *)
Theorem negation_in_place (costs : GasSchedule -> elrondapi.MoreBigIntAPICost)
    (c : elrondapi.EICallbacks) (dest a : Z) :
  elrondapi.bigIntValues c !! dest = Some a ->
  let once := elrondapi.BigIntNeg costs dest dest c in
  let twice := elrondapi.BigIntNeg costs dest dest once in
  elrondapi.bigIntValues once !! dest = Some (- a) /\
  elrondapi.bigIntValues twice !! dest = Some a /\
  (elrondapi.BigIntSign costs dest once).1 = - (elrondapi.BigIntSign costs dest c).1 /\
  elrondapi.bigIntValues (elrondapi.BigIntAbs costs dest dest once) !! dest
    = elrondapi.bigIntValues (elrondapi.BigIntAbs costs dest dest c) !! dest /\
  elrondapi.allErrors twice = elrondapi.allErrors c.
Proof.
  intros H1 once twice.
  assert (Hneg : forall c0 v, elrondapi.bigIntValues c0 !! dest = Some v ->
    elrondapi.bigIntValues (elrondapi.BigIntNeg costs dest dest c0)
      = <[dest := - v]> (elrondapi.bigIntValues c0) /\
    elrondapi.allErrors (elrondapi.BigIntNeg costs dest dest c0)
      = elrondapi.allErrors c0).
  { intros c0 v Hv. unfold elrondapi.BigIntNeg. run_unary dest dest Hv.
    split; [apply Hins | apply Herr]. }
  assert (Hsign : forall c0 v, elrondapi.bigIntValues c0 !! dest = Some v ->
    (elrondapi.BigIntSign costs dest c0).1 = Z.sgn v).
  { intros c0 v Hv. unfold elrondapi.BigIntSign. cbv zeta.
    unfold elrondapi.GetBigInt. simpl. by rewrite Hv. }
  assert (Habs : forall c0 v, elrondapi.bigIntValues c0 !! dest = Some v ->
    elrondapi.bigIntValues (elrondapi.BigIntAbs costs dest dest c0) !! dest
      = Some (Z.abs v)).
  { intros c0 v Hv. unfold elrondapi.BigIntAbs. run_unary dest dest Hv.
    by rewrite Hins, lookup_insert_eq. }
  destruct (Hneg c a H1) as [Hv1 He1].
  assert (Honce : elrondapi.bigIntValues once !! dest = Some (- a)).
  { subst once. by rewrite Hv1, lookup_insert_eq. }
  destruct (Hneg once (- a) Honce) as [Hv2 He2].
  split; [done|]. split; [|split; [|split]].
  - subst twice. rewrite Hv2, lookup_insert_eq. f_equal. lia.
  - rewrite (Hsign once (- a) Honce), (Hsign c a H1). apply Z.sgn_opp.
  - rewrite (Habs once (- a) Honce), (Habs c a H1). by rewrite Z.abs_opp.
  - subst twice. by rewrite He2, <- He1.
Qed.

Lemma negation_in_place_witness :
  let c := sample_callbacks {[ 1 := 5 ]} in
  let once := elrondapi.BigIntNeg sample_more_costs 1 1 c in
  let twice := elrondapi.BigIntNeg sample_more_costs 1 1 once in
  elrondapi.bigIntValues once !! 1 = Some (- 5) /\
  elrondapi.bigIntValues twice !! 1 = Some 5 /\
  (elrondapi.BigIntSign sample_more_costs 1 once).1
    = - (elrondapi.BigIntSign sample_more_costs 1 c).1 /\
  elrondapi.bigIntValues (elrondapi.BigIntAbs sample_more_costs 1 1 once) !! 1
    = elrondapi.bigIntValues (elrondapi.BigIntAbs sample_more_costs 1 1 c) !! 1 /\
  elrondapi.allErrors twice = elrondapi.allErrors c.
Proof.
  apply (negation_in_place sample_more_costs (sample_callbacks {[ 1 := 5 ]}) 1 5).
  reflexivity.
Defined.
